(** * qwen-code-proxy: credential lifecycle, dispatcher and stream translator

    A shallow embedding of [qwen_client.py] (class [QwenClient]) and of the
    streaming generator of [openai_adapter.py], with the properties the
    design document states about them.

    Conventions.
    - Python [str] values are [string]; the text model is ASCII.
    - [time.time()] is a rational number of seconds ([Q]).  Every interval
      the poller can reach (2, 3, 4.5, 6.75, 10) is a dyadic rational, so
      the float arithmetic of the source is exact on them.
    - A Python [dict] received from JSON is a record of optional fields,
      one per key the code reads: [None] is a missing key.
    - The network, the clock and the credential file are an explicit world
      that every method threads through; exceptions are values.  A sleep
      takes exactly its argument and a request the time its reply states.
    - The poller's [while] loop runs on fuel, one unit per iteration;
      [poll_loop_terminates] bounds the fuel it needs. *)

From Stdlib Require Import String Ascii ZArith QArith Qminmax Lqa List Lia Bool.
Import ListNotations.

Local Open Scope string_scope.

(* ------------------------------------------------------------------ *)
(** ** Python string helpers *)

Module PyStr.

Definition dquote : string := String "034"%char EmptyString.
Definition backslash : string := String "092"%char EmptyString.
Definition nl : string := String "010"%char EmptyString.

(** [s.startswith(p)] *)
Definition startswith (s p : string) : bool := String.prefix p s.

(** [new.join(list(s))] with [new] also at both ends: what
    [s.replace('', new)] gives. *)
Fixpoint interleave (new s : string) : string :=
  match s with
  | EmptyString => new
  | String c s' => new ++ String c (interleave new s')
  end.

(** Left-to-right scan of [s.replace(old, new)] for a non-empty [old];
    [skip] counts the characters of a match still to be dropped. *)
Fixpoint replace_from (old new s : string) (skip : nat) : string :=
  match s with
  | EmptyString => EmptyString
  | String c s' =>
      match skip with
      | S k => replace_from old new s' k
      | O =>
          if String.prefix old s
          then new ++ replace_from old new s' (String.length old - 1)
          else String c (replace_from old new s' 0)
      end
  end.

(** [s.replace(old, new)]: every non-overlapping occurrence. *)
Definition replace (s old new : string) : string :=
  match old with
  | EmptyString => interleave new s
  | _ => replace_from old new s 0
  end.

(** [bool(s)] *)
Definition truthy (s : string) : bool :=
  match s with EmptyString => false | _ => true end.

Fixpoint contains_char (c : ascii) (s : string) : bool :=
  match s with
  | EmptyString => false
  | String d s' => Ascii.eqb c d || contains_char c s'
  end.

Definition hex_digit (n : nat) : ascii :=
  ascii_of_nat (if Nat.ltb n 10 then 48 + n else 87 + n).

(** One character of [repr(s)] when [q] is the chosen quote. *)
Definition repr_char (q c : ascii) : string :=
  let n := nat_of_ascii c in
  if Ascii.eqb c "092"%char then backslash ++ backslash
  else if Ascii.eqb c q then backslash ++ String q EmptyString
  else if Nat.eqb n 9 then backslash ++ "t"
  else if Nat.eqb n 10 then backslash ++ "n"
  else if Nat.eqb n 13 then backslash ++ "r"
  else if Nat.ltb n 32 || Nat.eqb n 127
       then backslash ++ "x"
            ++ String (hex_digit (n / 16)) (String (hex_digit (n mod 16)) EmptyString)
  else String c EmptyString.

Fixpoint repr_body (q : ascii) (s : string) : string :=
  match s with
  | EmptyString => EmptyString
  | String c s' => repr_char q c ++ repr_body q s'
  end.

(** [repr(s)] for a [str]: single quotes, unless the text holds a single
    quote and no double quote. *)
Definition repr (s : string) : string :=
  let q := if contains_char "039"%char s && negb (contains_char "034"%char s)
           then "034"%char else "039"%char in
  String q (repr_body q s ++ String q EmptyString).

(** One character of [json.dumps(s)] (default [ensure_ascii]). *)
Definition json_char (c : ascii) : string :=
  let n := nat_of_ascii c in
  if Ascii.eqb c "092"%char then backslash ++ backslash
  else if Ascii.eqb c "034"%char then backslash ++ dquote
  else if Nat.eqb n 8 then backslash ++ "b"
  else if Nat.eqb n 9 then backslash ++ "t"
  else if Nat.eqb n 10 then backslash ++ "n"
  else if Nat.eqb n 12 then backslash ++ "f"
  else if Nat.eqb n 13 then backslash ++ "r"
  else if Nat.ltb n 32 || Nat.leb 127 n
       then backslash ++ "u00"
            ++ String (hex_digit (n / 16)) (String (hex_digit (n mod 16)) EmptyString)
  else String c EmptyString.

Fixpoint json_body (s : string) : string :=
  match s with
  | EmptyString => EmptyString
  | String c s' => json_char c ++ json_body s'
  end.

(** [json.dumps(s)] for a [str]. *)
Definition json_string (s : string) : string :=
  dquote ++ json_body s ++ dquote.

(** [str(x)] of an optional text, as an f-string prints it. *)
Definition str_of_option (o : option string) : string :=
  match o with Some s => s | None => "None" end.

End PyStr.

(* ------------------------------------------------------------------ *)
(** ** Data model ([qwen_client.py], lines 14-45) *)

Definition API_BASE_URL : string := "https://dashscope.aliyuncs.com/compatible-mode/v1".

Record PKCE : Type := mkPKCE {
  code_verifier : string;
  code_challenge : string
}.

Record DeviceAuth : Type := mkDeviceAuth {
  device_code : string;
  user_code : string;
  verification_uri : string;
  verification_uri_complete : string;
  expires_in : Z
}.

Record OAuthCreds : Type := mkOAuthCreds {
  access_token : string;
  refresh_token : string;
  token_type : string;
  resource_url : string;
  expiry_date : Z
}.

(* ------------------------------------------------------------------ *)
(** ** Time *)

Definition Qltb (x y : Q) : bool := negb (Qle_bool y x).

(** [int(t)] for a float [t]: truncation toward zero. *)
Definition int_of_time (t : Q) : Z := Z.quot (Qnum t) (Z.pos (Qden t)).

(* ------------------------------------------------------------------ *)
(** ** Pure parts of [QwenClient] *)

(** [_is_token_expired] (lines 76-79), with [self._oauth_creds] and the
    value of [time.time()] as arguments. *)
Definition is_token_expired (creds : option OAuthCreds) (now : Q) : bool :=
  match creds with
  | None => true
  | Some c => Qltb (inject_Z (expiry_date c)) (now - 30)
  end.

(** The URL [make_request] posts to (lines 202-205). *)
Definition chat_completions_url (stored : string) : string :=
  let resource_url :=
    if negb (PyStr.startswith stored "https://")
    then "https://" ++ stored
    else stored in
  resource_url ++ "/v1/chat/completions".

(** The fallback of [data.get('resource_url', ...)] in [_poll_for_token]
    (line 125). *)
Definition default_resource_url : string := PyStr.replace API_BASE_URL "/v1" "".

(** Whether a stored value carries a URI scheme: a letter, then letters,
    digits, [+], [-] or [.], then [://]. *)
Module Scheme.

Definition is_alpha (c : ascii) : bool :=
  let n := nat_of_ascii c in
  (Nat.leb 65 n && Nat.leb n 90) || (Nat.leb 97 n && Nat.leb n 122).

Definition is_scheme_char (c : ascii) : bool :=
  let n := nat_of_ascii c in
  is_alpha c || (Nat.leb 48 n && Nat.leb n 57)
  || Nat.eqb n 43 || Nat.eqb n 45 || Nat.eqb n 46.

Fixpoint after_scheme_chars (s : string) : string :=
  match s with
  | EmptyString => EmptyString
  | String c s' => if is_scheme_char c then after_scheme_chars s' else s
  end.

Definition carries_scheme (s : string) : bool :=
  match s with
  | EmptyString => false
  | String c _ => is_alpha c && String.prefix "://" (after_scheme_chars s)
  end.

End Scheme.

(* ------------------------------------------------------------------ *)
(** ** Exceptions *)

Inductive PyExc : Type :=
| Exception (msg : string)          (* raise Exception(msg) *)
| KeyError (key : string)           (* data[key] on a missing key *)
| TypeError (what : string)         (* a constructor given the wrong keywords *)
| AttributeError (what : string)    (* an attribute of None *)
| JSONDecodeError                   (* json.load / response.json() *)
| HTTPError (status : Z)            (* response.raise_for_status() *)
| RequestException (what : string). (* requests.post could not complete *)

(** The failures the design document names, as the source raises them. *)
Definition NoCredentialError : PyExc := Exception "No credentials to refresh.".
Definition RefreshFailedError : PyExc :=
  Exception "Failed to refresh token. Please re-authenticate.".
Definition OAuthTimeoutError : PyExc := Exception "OAuth device flow timed out.".
Definition OAuthError (description : option string) : PyExc :=
  Exception ("OAuth error: " ++ PyStr.str_of_option description).
Definition UpstreamHTTPError (status : Z) : PyExc := HTTPError status.

(* ------------------------------------------------------------------ *)
(** ** The world: credential cache, credential file, clock, network *)

(** What decoding a JSON text and passing it as keywords to the
    constructor of [A] comes to. *)
Inductive Decoded (A : Type) : Type :=
| NotJson                 (* the text is not JSON *)
| Rejected                (* JSON, but not exactly the fields of [A] *)
| Accepted (a : A).       (* a JSON object holding the fields of [A] *)
Arguments NotJson {A}.
Arguments Rejected {A}.
Arguments Accepted {A} a.

(** The keys [_poll_for_token] and [_refresh_token] read from the token
    endpoint's JSON object. *)
Record TokenData : Type := mkTokenData {
  td_access_token : option string;
  td_refresh_token : option string;
  td_token_type : option string;
  td_resource_url : option string;
  td_expires_in : option Z;
  td_error : option string;
  td_error_description : option string
}.

(** A [requests.Response]. *)
Record Response (B : Type) : Type := mkResponse {
  status_code : Z;
  body : B
}.
Arguments mkResponse {B} _ _.
Arguments status_code {B} _.
Arguments body {B} _.

(** What one [requests.post] comes to, after [elapsed] seconds. *)
Inductive HttpReply (B : Type) : Type :=
| Fails (elapsed : Q) (e : PyExc)
| Replies (elapsed : Q) (r : Response B).
Arguments Fails {B} _ _.
Arguments Replies {B} _ _.

(** The body of a chat completion: what [response.json()] parses (kept
    opaque; [None] when the body is not JSON) and the decoded chunks
    [iter_content] delivers. *)
Record ChatBody : Type := mkChatBody {
  cb_json : option string;
  cb_chunks : list string
}.

(** The payload [make_request] sends: [{'model': self._model, **request_data}]. *)
Record RequestData : Type := mkRequestData {
  rd_model : option string;
  rd_stream : option bool;
  rd_rest : string
}.

Record Payload : Type := mkPayload {
  p_model : string;
  p_stream : option bool;
  p_rest : string
}.

Inductive Grant : Type :=
| DeviceCodeGrant (device_code code_verifier : string)
| RefreshGrant (refresh_token : string).

Inductive Event : Type :=
| EvSleep (seconds : Q)
| EvTokenPost (g : Grant)
| EvDevicePost (code_challenge : string)
| EvChatPost (url authorization : string) (payload : Payload) (stream : bool)
| EvPrint (text : string)
| EvBrowser (url : string).

(** The environment: the reply to the n-th request of each endpoint, the
    n-th PKCE pair drawn, and whether the browser opens.  The body of a
    token reply is [None] when it is not JSON. *)
Record Env : Type := mkEnv {
  token_endpoint : nat -> HttpReply (option TokenData);
  device_endpoint : nat -> HttpReply (Decoded DeviceAuth);
  chat_endpoint : nat -> HttpReply ChatBody;
  fresh_pkce : nat -> PKCE;
  browser_opens : string -> bool
}.

Record World : Type := mkWorld {
  oauth_creds : option OAuthCreds;          (* self._oauth_creds *)
  pkce : option PKCE;                       (* self._pkce *)
  creds_file : option (Decoded OAuthCreds); (* OAUTH_CREDS_FILE *)
  clock : Q;                                (* time.time() *)
  trace : list Event                        (* newest first *)
}.

Definition is_token_post (e : Event) : bool :=
  match e with EvTokenPost _ => true | _ => false end.
Definition is_refresh_post (e : Event) : bool :=
  match e with EvTokenPost (RefreshGrant _) => true | _ => false end.
Definition is_device_post (e : Event) : bool :=
  match e with EvDevicePost _ => true | _ => false end.
Definition is_chat_post (e : Event) : bool :=
  match e with EvChatPost _ _ _ _ => true | _ => false end.

Definition count (p : Event -> bool) (w : World) : nat :=
  List.length (List.filter p (trace w)).

(** Requests made so far. *)
Definition token_posts : World -> nat := count is_token_post.
Definition refreshes : World -> nat := count is_refresh_post.
Definition authorizations : World -> nat := count is_device_post.
Definition chat_posts : World -> nat := count is_chat_post.

(* ------------------------------------------------------------------ *)
(** ** A state and exception monad over the world *)

Inductive Outcome (A : Type) : Type :=
| Returns (a : A)
| Raises (e : PyExc)
| OutOfFuel.
Arguments Returns {A} a.
Arguments Raises {A} e.
Arguments OutOfFuel {A}.

Definition M (A : Type) : Type := World -> Outcome A * World.

Definition ret {A} (a : A) : M A := fun w => (Returns a, w).
Definition raise {A} (e : PyExc) : M A := fun w => (Raises e, w).
Definition out_of_fuel {A} : M A := fun w => (OutOfFuel, w).

Definition bind {A B} (m : M A) (k : A -> M B) : M B :=
  fun w =>
    match m w with
    | (Returns a, w') => k a w'
    | (Raises e, w') => (Raises e, w')
    | (OutOfFuel, w') => (OutOfFuel, w')
    end.

(** [try: m  except Exception: handler] *)
Definition try_except {A} (m : M A) (handler : PyExc -> M A) : M A :=
  fun w =>
    match m w with
    | (Raises e, w') => handler e w'
    | r => r
    end.

Declare Scope py_scope.
Delimit Scope py_scope with py.
Notation "x <- m ;; k" := (bind m (fun x => k))
  (at level 100, m at next level, right associativity) : py_scope.
Notation "m ;; k" := (bind m (fun _ => k))
  (at level 100, right associativity) : py_scope.
Local Open Scope py_scope.

Definition gets {A} (f : World -> A) : M A := fun w => (Returns (f w), w).
Definition get_creds : M (option OAuthCreds) := gets oauth_creds.
Definition set_creds (c : option OAuthCreds) : M unit :=
  fun w => (Returns tt, mkWorld c (pkce w) (creds_file w) (clock w) (trace w)).
Definition get_pkce : M (option PKCE) := gets pkce.
Definition set_pkce (p : PKCE) : M unit :=
  fun w => (Returns tt, mkWorld (oauth_creds w) (Some p) (creds_file w) (clock w) (trace w)).
Definition read_file : M (option (Decoded OAuthCreds)) := gets creds_file.
Definition write_file (f : option (Decoded OAuthCreds)) : M unit :=
  fun w => (Returns tt, mkWorld (oauth_creds w) (pkce w) f (clock w) (trace w)).
Definition time_time : M Q := gets clock.
Definition elapse (d : Q) (w : World) : World :=
  mkWorld (oauth_creds w) (pkce w) (creds_file w) (clock w + d)%Q (trace w).
Definition emit (e : Event) (w : World) : World :=
  mkWorld (oauth_creds w) (pkce w) (creds_file w) (clock w) (e :: trace w).
Definition log (e : Event) : M unit := fun w => (Returns tt, emit e w).

(** [time.sleep(d)] *)
Definition sleep (d : Q) : M unit := fun w => (Returns tt, elapse d (emit (EvSleep d) w)).

(** One [requests.post]: the event is recorded, the reply's time passes,
    and the reply is returned or its failure raised. *)
Definition post {B} (e : Event) (reply : HttpReply B) : M (Response B) :=
  fun w =>
    match reply with
    | Fails dt exc => (Raises exc, elapse dt (emit e w))
    | Replies dt r => (Returns r, elapse dt (emit e w))
    end.

(** [response.json()]: the body is [None] when it is not JSON. *)
Definition response_json {B} (r : Response (option B)) : M B :=
  match body r with
  | Some b => ret b
  | None => raise JSONDecodeError
  end.

(** [response.raise_for_status()]: an error for 4xx and 5xx. *)
Definition is_error_status (status : Z) : bool :=
  (400 <=? status)%Z && (status <? 600)%Z.
Definition raise_for_status {B} (r : Response B) : M unit :=
  if is_error_status (status_code r) then raise (HTTPError (status_code r)) else ret tt.

(** [data[key]] *)
Definition getitem {A} (key : string) (field : option A) : M A :=
  match field with
  | Some v => ret v
  | None => raise (KeyError key)
  end.

(** [data.get(key) == text] *)
Definition option_eqb (field : option string) (text : string) : bool :=
  match field with Some v => String.eqb v text | None => false end.

(** [data.get(key, default)] *)
Definition get_default {A} (field : option A) (default : A) : A :=
  match field with Some v => v | None => default end.

(* ------------------------------------------------------------------ *)
(** ** [QwenClient] *)

Section Client.

Variable env : Env.
(** [self._model] *)
Variable _model : string.

(** Lines 63-68.  No handler surrounds [json.load] or the constructor. *)
Definition _load_oauth_creds : M (option OAuthCreds) :=
  f <- read_file ;;
  match f with
  | None => ret None
  | Some NotJson => raise JSONDecodeError
  | Some Rejected => raise (TypeError "OAuthCreds.__init__()")
  | Some (Accepted creds) => ret (Some creds)
  end.

(** Lines 59-61. *)
Definition __init__ : M unit :=
  creds <- _load_oauth_creds ;;
  set_creds creds.

(** Lines 70-74. *)
Definition _save_oauth_creds (creds : OAuthCreds) : M unit :=
  write_file (Some (Accepted creds)) ;;
  set_creds (Some creds).

(** Lines 76-79. *)
Definition _is_token_expired : M bool :=
  creds <- get_creds ;;
  now <- time_time ;;
  ret (is_token_expired creds now).

(** Lines 81-97. *)
Definition _perform_device_auth : M DeviceAuth :=
  n <- gets authorizations ;;
  let pkce := fresh_pkce env n in
  set_pkce pkce ;;
  response <- post (EvDevicePost (code_challenge pkce)) (device_endpoint env n) ;;
  raise_for_status response ;;
  match body response with
  | NotJson => raise JSONDecodeError
  | Rejected => raise (TypeError "DeviceAuth.__init__()")
  | Accepted device_auth => ret device_auth
  end.

(** The credential built from a token response (lines 119-128 and
    162-173): [fallback] gives the values used for omitted keys. *)
Definition creds_of_token_data (data : TokenData)
    (refresh_fallback : option string) (resource_fallback : string)
    : M OAuthCreds :=
  now <- time_time ;;
  expires <- getitem "expires_in" (td_expires_in data) ;;
  let expiry_date := (int_of_time now + expires)%Z in
  access <- getitem "access_token" (td_access_token data) ;;
  refresh <- match refresh_fallback with
             | None => getitem "refresh_token" (td_refresh_token data)
             | Some old => ret (get_default (td_refresh_token data) old)
             end ;;
  type <- getitem "token_type" (td_token_type data) ;;
  ret (mkOAuthCreds access refresh type
         (get_default (td_resource_url data) resource_fallback)
         expiry_date).

(** The [while] loop of [_poll_for_token] (lines 113-140); one unit of
    fuel per iteration. *)
Fixpoint poll_loop (fuel : nat) (device_auth : DeviceAuth) (verifier : string)
    (start_time poll_interval : Q) : M OAuthCreds :=
  match fuel with
  | O => out_of_fuel
  | S fuel' =>
      now <- time_time ;;
      if Qltb (now - start_time) (inject_Z (expires_in device_auth)) then
        sleep poll_interval ;;
        n <- gets token_posts ;;
        response <- post (EvTokenPost (DeviceCodeGrant (device_code device_auth) verifier))
                         (token_endpoint env n) ;;
        data <- response_json response ;;
        if (status_code response =? 200)%Z then
          creds <- creds_of_token_data data None default_resource_url ;;
          _save_oauth_creds creds ;;
          ret creds
        else if option_eqb (td_error data) "authorization_pending" then
          poll_loop fuel' device_auth verifier start_time poll_interval
        else if option_eqb (td_error data) "slow_down" then
          poll_loop fuel' device_auth verifier start_time
                    (Qmin (poll_interval * (3 # 2)) 10)
        else raise (OAuthError (td_error_description data))
      else raise OAuthTimeoutError
  end.

(** Lines 99-140. *)
Definition _poll_for_token (fuel : nat) (device_auth : DeviceAuth) : M OAuthCreds :=
  p <- get_pkce ;;
  match p with
  | None => raise (AttributeError "_pkce")
  | Some pkce =>
      start_time <- time_time ;;
      poll_loop fuel device_auth (code_verifier pkce) start_time 2
  end.

(** Lines 142-174. *)
Definition _refresh_token : M unit :=
  current <- get_creds ;;
  match current with
  | None => raise NoCredentialError
  | Some old =>
      n <- gets token_posts ;;
      response <- post (EvTokenPost (RefreshGrant (refresh_token old)))
                       (token_endpoint env n) ;;
      if negb (status_code response =? 200)%Z then
        set_creds None ;;
        write_file None ;;
        raise RefreshFailedError
      else
        data <- response_json response ;;
        creds <- creds_of_token_data data (Some (refresh_token old)) (resource_url old) ;;
        _save_oauth_creds creds
  end.

(** Lines 186-197. *)
Definition _authenticate (fuel : nat) : M unit :=
  device_auth <- _perform_device_auth ;;
  let uri := verification_uri_complete device_auth in
  log (EvPrint ("Please visit the following URL to authorize the application:"
                ++ PyStr.nl ++ uri)) ;;
  (if browser_opens env uri
   then log (EvBrowser uri)
   else log (EvPrint "Could not open browser automatically.")) ;;
  _poll_for_token fuel device_auth ;;
  ret tt.

(** Lines 176-184. *)
Definition _ensure_valid_token (fuel : nat) : M unit :=
  expired <- _is_token_expired ;;
  if expired then
    current <- get_creds ;;
    if match current with
       | Some creds => PyStr.truthy (refresh_token creds)
       | None => false
       end
    then try_except _refresh_token (fun _ => _authenticate fuel)
    else _authenticate fuel
  else ret tt.

(** [self._oauth_creds.<field>]: an [AttributeError] on [None]. *)
Definition creds_attr {A} (field : OAuthCreds -> A) (name : string) : M A :=
  current <- get_creds ;;
  match current with
  | Some creds => ret (field creds)
  | None => raise (AttributeError name)
  end.

Definition post_chat (api_url authorization : string) (payload : Payload)
    (stream : bool) : M (Response ChatBody) :=
  n <- gets chat_posts ;;
  post (EvChatPost api_url authorization payload stream) (chat_endpoint env n).

Definition retry_status (status : Z) : bool :=
  (status =? 400)%Z || (status =? 401)%Z || (status =? 403)%Z.

(** What [make_request] returns: the parsed body, or the generator over
    the decoded chunks of the live response. *)
Inductive Result : Type :=
| ParsedBody (json : string)
| StreamGenerator (chunks : list string).

(** Lines 221-229: the retry on a rejected token.  The [try] covers the
    refresh and the resend. *)
Definition resend_after_rejection (fuel : nat) (api_url : string) (payload : Payload)
    (stream : bool) (response : Response ChatBody) : M (Response ChatBody) :=
  if retry_status (status_code response) then
    try_except
      (_refresh_token ;;
       token <- creds_attr access_token "access_token" ;;
       post_chat api_url ("Bearer " ++ token) payload stream)
      (fun _ =>
       _authenticate fuel ;;
       token <- creds_attr access_token "access_token" ;;
       post_chat api_url ("Bearer " ++ token) payload stream)
  else ret response.

(** Lines 231-239. *)
Definition return_response (stream : bool) (response : Response ChatBody) : M Result :=
  raise_for_status response ;;
  if stream then ret (StreamGenerator (cb_chunks (body response)))
  else match cb_json (body response) with
       | Some json => ret (ParsedBody json)
       | None => raise JSONDecodeError
       end.

(** Lines 199-239. *)
Definition make_request (fuel : nat) (request_data : RequestData) : M Result :=
  _ensure_valid_token fuel ;;
  stored <- creds_attr resource_url "resource_url" ;;
  let api_url := chat_completions_url stored in
  token <- creds_attr access_token "access_token" ;;
  let payload := mkPayload (get_default (rd_model request_data) _model)
                           (rd_stream request_data) (rd_rest request_data) in
  let stream := get_default (p_stream payload) false in
  response <- post_chat api_url ("Bearer " ++ token) payload stream ;;
  response <- resend_after_rejection fuel api_url payload stream response ;;
  return_response stream response.

End Client.

(* ------------------------------------------------------------------ *)
(** ** Python values printed by the stream generator *)

#[local] Set Warnings "-register-all".
Inductive PyVal : Type :=
| PStr (s : string)
| PDict (items : list (string * PyVal)).

(** [repr(v)], which is also [str(v)] and what an f-string prints for a
    [dict]. *)
Fixpoint py_repr (v : PyVal) : string :=
  match v with
  | PStr s => PyStr.repr s
  | PDict items =>
      let fix items_repr (l : list (string * PyVal)) : string :=
        match l with
        | [] => ""
        | [(k, x)] => PyStr.repr k ++ ": " ++ py_repr x
        | (k, x) :: rest => PyStr.repr k ++ ": " ++ py_repr x ++ ", " ++ items_repr rest
        end in
      "{" ++ items_repr items ++ "}"
  end.

(** [json.dumps(v)] with the default separators. *)
Fixpoint json_dumps (v : PyVal) : string :=
  match v with
  | PStr s => PyStr.json_string s
  | PDict items =>
      let fix items_json (l : list (string * PyVal)) : string :=
        match l with
        | [] => ""
        | [(k, x)] => PyStr.json_string k ++ ": " ++ json_dumps x
        | (k, x) :: rest =>
            PyStr.json_string k ++ ": " ++ json_dumps x ++ ", " ++ items_json rest
        end in
      "{" ++ items_json items ++ "}"
  end.

(* ------------------------------------------------------------------ *)
(** ** [OpenAIAdapter.chat_completion_stream.generate_stream] *)

(** The two response models, with the fields the generator passes to
    their constructors (lines 124-135 and 139-148). *)
Record ChatCompletionStreamChoice : Type := mkChoice {
  index : Z;
  delta : list (string * string);
  finish_reason : option string
}.

Record ChatCompletionStreamResponse : Type := mkStreamResponse {
  id : string;
  created : Z;
  model : string;
  choices : list ChatCompletionStreamChoice
}.

(** An exception [e] caught by [except Exception as e]; the handler only
    reads [str(e)]. *)
Record Caught : Type := mkCaught { str_of : string }.

(** The byte source the generator iterates over: chunks, then a normal end
    or an exception. *)
Inductive ByteSource : Type :=
| Exhausted
| Broken (e : Caught)
| Chunk (text : string) (rest : ByteSource).

Fixpoint source_of_list (chunks : list string) : ByteSource :=
  match chunks with
  | [] => Exhausted
  | c :: rest => Chunk c (source_of_list rest)
  end.

(** A source that delivers [chunks] and then raises [e]. *)
Fixpoint source_raising (chunks : list string) (e : Caught) : ByteSource :=
  match chunks with
  | [] => Broken e
  | c :: rest => Chunk c (source_raising rest e)
  end.

Definition sse (data : string) : string := "data: " ++ data ++ PyStr.nl ++ PyStr.nl.

Definition DONE : string := sse "[DONE]".

Section Adapter.

(** [model_dump_json] of the response model.  The module [models] that
    declares it is not part of the sources at hand, so the encoder is a
    parameter. *)
Variable model_dump_json : ChatCompletionStreamResponse -> string.

(** [completion_id], [created_time] and [request.model] (lines 107-108). *)
Variable completion_id : string.
Variable created_time : Z.
Variable request_model : string.

Definition stream_response (chunk : string) : ChatCompletionStreamResponse :=
  mkStreamResponse completion_id created_time request_model
    [mkChoice 0 [("content", chunk)] None].

Definition final_response : ChatCompletionStreamResponse :=
  mkStreamResponse completion_id created_time request_model
    [mkChoice 0 [] (Some "stop")].

(** Lines 157-159. *)
Definition error_response (e : Caught) : PyVal :=
  PDict [("error", PDict [("message", PStr (str_of e));
                          ("type", PStr "internal_error")])].

(** The body of the [try] from the [async for] on (lines 123-150): the
    strings yielded, and the exception that ends it, if any. *)
Fixpoint try_body (source : ByteSource) : list string * option Caught :=
  match source with
  | Chunk chunk rest =>
      let (yielded, raised) := try_body rest in
      (sse (model_dump_json (stream_response chunk)) :: yielded, raised)
  | Exhausted => ([sse (model_dump_json final_response); DONE], None)
  | Broken e => ([], Some e)
  end.

(** Lines 154-161: what the handler yields for [e]. *)
Definition except_handler (e : Caught) : list string :=
  [sse (py_repr (error_response e)); DONE].

(** The body of the generator (lines 105-161) from line 120 on.
    [acquired] is what line 120 binds to [stream_generator], or the
    exception raised up to there.  The result is every string yielded
    and the exception that leaves the generator, if any.  What line 120
    comes to in the repository is [await_make_request] below: it never
    binds a source, and [chat_completion_stream] is the generator over
    the client. *)
Definition generate_stream (acquired : Caught + ByteSource)
    : list string * option Caught :=
  let (yielded, raised) :=
    match acquired with
    | inl e => ([], Some e)
    | inr source => try_body source
    end in
  match raised with
  | None => (yielded, None)
  | Some e => ((yielded ++ except_handler e)%list, None)
  end.

End Adapter.

(** The wire form the design document gives for the error event: the JSON
    encoding of the error object. *)
Definition spec_error_event (message : string) : string :=
  sse (json_dumps (PDict [("error", PDict [("message", PStr message);
                                           ("type", PStr "internal_error")])])).

(* ------------------------------------------------------------------ *)
(** ** Sample worlds and environments *)

(** A world with nothing cached, at time 0, whose credential file is [f]. *)
Definition world_with_file (f : option (Decoded OAuthCreds)) : World :=
  mkWorld None None f 0 [].

(** A token response that grants a token for an hour. *)
Definition granted (access refresh : string) (resource : option string) : TokenData :=
  mkTokenData (Some access) (Some refresh) (Some "Bearer") resource (Some 3600%Z)
              None None.

(** A token response that carries an OAuth error code. *)
Definition refused (error : string) : TokenData :=
  mkTokenData None None None None None (Some error) (Some error).

Definition unreachable {B} : HttpReply B := Fails 0 (RequestException "unreachable").

(** An environment whose token endpoint answers from [replies], in order. *)
Definition env_of_token_replies (replies : list (HttpReply (option TokenData))) : Env :=
  mkEnv (fun n => nth n replies unreachable)
        (fun _ => unreachable) (fun _ => unreachable)
        (fun _ => mkPKCE "verifier" "challenge") (fun _ => true).

(** A cached credential without a refresh token. *)
Definition creds_without_refresh_token : OAuthCreds :=
  mkOAuthCreds "old-access" "" "Bearer" "portal.qwen.ai" 0.

Definition world_with_creds (c : OAuthCreds) (now : Q) : World :=
  mkWorld (Some c) None (Some (Accepted c)) now [].


(** The world once one poll iteration has slept [poll_interval] and its
    request has been answered after [dt] seconds. *)
Definition after_poll_request (device_auth : DeviceAuth) (verifier : string)
    (poll_interval dt : Q) (w : World) : World :=
  elapse dt
    (emit (EvTokenPost (DeviceCodeGrant (device_code device_auth) verifier))
       (elapse poll_interval (emit (EvSleep poll_interval) w))).

(** The world once [_save_oauth_creds creds] has run. *)
Definition saved (creds : OAuthCreds) (w : World) : World :=
  mkWorld (Some creds) (pkce w) (Some (Accepted creds)) (clock w) (trace w).

Definition sample_device_auth : DeviceAuth :=
  mkDeviceAuth "device-code" "USER-CODE" "https://chat.qwen.ai/authorize"
               "https://chat.qwen.ai/authorize?user_code=USER-CODE" 600.

(** A client that has just drawn its PKCE pair, at time 100. *)
Definition world_polling : World :=
  mkWorld None (Some (mkPKCE "verifier" "challenge")) None 100 [].

Definition pending : HttpReply (option TokenData) :=
  Replies (1 # 2) (mkResponse 400 (Some (refused "authorization_pending"))).

(** The user approves before the third request. *)
Definition env_approved_on_third : Env :=
  env_of_token_replies
    [pending; pending;
     Replies (1 # 4) (mkResponse 200 (Some (granted "access" "refresh" None)))].

(** The user has approved before the first request. *)
Definition env_approved_at_once : Env :=
  env_of_token_replies
    [Replies (1 # 4) (mkResponse 200 (Some (granted "access" "refresh" None)))].

(* ------------------------------------------------------------------ *)
(** ** Counting what a computation adds to the trace *)

(** [m] records no event that satisfies [p]. *)
Definition keeps (p : Event -> bool) {A} (m : M A) : Prop :=
  forall w, count p (snd (m w)) = count p w.

(** [m] records at most [n] events that satisfy [p]. *)
Definition adds_at_most (p : Event -> bool) (n : nat) {A} (m : M A) : Prop :=
  forall w, (count p (snd (m w)) <= count p w + n)%nat.

(** What [_authenticate] records apart from its device request. *)
Definition silent_on_authentication (p : Event -> bool) : Prop :=
  (forall d, p (EvSleep d) = false)
  /\ (forall code verifier, p (EvTokenPost (DeviceCodeGrant code verifier)) = false)
  /\ (forall text, p (EvPrint text) = false)
  /\ (forall url, p (EvBrowser url) = false).


(* ------------------------------------------------------------------ *)
(** ** Sample dispatches *)

(** A cached credential that expires at 10000. *)
Definition valid_creds : OAuthCreds :=
  mkOAuthCreds "old-access" "old-refresh" "Bearer" "portal.qwen.ai" 10000.

(** A non-streaming chat request. *)
Definition chat_request : RequestData := mkRequestData None (Some false) "messages".

Definition rejected_401 : HttpReply ChatBody :=
  Replies 0 (mkResponse 401 (mkChatBody None [])).

Definition completion_200 : HttpReply ChatBody :=
  Replies 0 (mkResponse 200 (mkChatBody (Some "completion") [])).

Definition env_of_replies (tokens : list (HttpReply (option TokenData)))
    (devices : list (HttpReply (Decoded DeviceAuth)))
    (chats : list (HttpReply ChatBody)) : Env :=
  mkEnv (fun n => nth n tokens unreachable)
        (fun n => nth n devices unreachable)
        (fun n => nth n chats unreachable)
        (fun _ => mkPKCE "verifier" "challenge") (fun _ => true).

(** The token is rejected, the refresh is granted, the resend succeeds. *)
Definition env_refresh_then_ok : Env :=
  env_of_replies
    [Replies 0 (mkResponse 200 (Some (granted "new-access" "new-refresh" None)))]
    []
    [rejected_401; completion_200].

(** The token is rejected, the refresh is granted, the resend cannot reach
    the server; the device flow that follows is approved at once and the
    second resend succeeds. *)
Definition env_resend_unreachable : Env :=
  env_of_replies
    [Replies 0 (mkResponse 200 (Some (granted "new-access" "new-refresh" None)));
     Replies 0 (mkResponse 200 (Some (granted "newer-access" "newer-refresh" None)))]
    [Replies 0 (mkResponse 200 (Accepted sample_device_auth))]
    [rejected_401; unreachable; completion_200].

(** The time a request takes. *)
Definition latency {B} (reply : HttpReply B) : Q :=
  match reply with
  | Fails dt _ => dt
  | Replies dt _ => dt
  end.

(* ------------------------------------------------------------------ *)
(** ** What a computation records *)

(** Every event [m] adds to the trace satisfies [P]; the trace only
    grows. *)
Definition emits_only (P : Event -> Prop) {A} (m : M A) : Prop :=
  forall w, exists events,
    trace (snd (m w)) = (events ++ trace w)%list /\ Forall P events.

(* ------------------------------------------------------------------ *)
(** ** Clients and the credential file *)

(** A new [QwenClient] object: no attribute is set yet; the file, the
    clock and the network are those of the process. *)
Definition fresh_instance (w : World) : World :=
  mkWorld None None (creds_file w) (clock w) (trace w).

(** [QwenClient(model=...)]: a new object, then [__init__]. *)
Definition QwenClient : M unit := fun w => __init__ (fresh_instance w).

(** The cached credential is the one the file holds: both absent, or the
    file holds exactly the cached credential. *)
Definition in_sync (w : World) : Prop :=
  match oauth_creds w with
  | None => creds_file w = None
  | Some creds => creds_file w = Some (Accepted creds)
  end.

(** [m] keeps the property [I] of the world. *)
Definition preserves (I : World -> Prop) {A} (m : M A) : Prop :=
  forall w, I w -> I (snd (m w)).

(** A token endpoint that answers 200 with a body that is not JSON. *)
Definition env_token_not_json : Env :=
  env_of_token_replies [Replies 0 (mkResponse 200 None)].

(** Whether [_ensure_valid_token] can try a refresh: a credential is
    cached and its [refresh_token] is not empty. *)
Definition has_refresh_token (w : World) : bool :=
  match oauth_creds w with
  | Some creds => PyStr.truthy (refresh_token creds)
  | None => false
  end.

(** A credential that expired long before time 100. *)
Definition expired_creds : OAuthCreds :=
  mkOAuthCreds "old-access" "old-refresh" "Bearer" "portal.qwen.ai" 10.

(** The device endpoint refuses the client. *)
Definition env_device_refused : Env :=
  env_of_replies [] [Replies 0 (mkResponse 403 NotJson)] [].

(* ------------------------------------------------------------------ *)
(** ** What the poller records *)

(** The events of a run of the poller, newest first: requests for the
    device code, each one right after a sleep of 2 to 10 seconds. *)
Inductive poll_events (device_auth : DeviceAuth) (verifier : string)
    : list Event -> Prop :=
| poll_events_nil : poll_events device_auth verifier []
| poll_events_cons (d : Q) (earlier : list Event) :
    (2 <= d)%Q -> (d <= 10)%Q ->
    poll_events device_auth verifier earlier ->
    poll_events device_auth verifier
      (EvTokenPost (DeviceCodeGrant (device_code device_auth) verifier)
         :: EvSleep d :: earlier).

(** Two worlds in which a client is in the same state: same cache, PKCE
    pair, file and clock, and as many requests made to each endpoint. *)
Definition same_client (w1 w2 : World) : Prop :=
  oauth_creds w1 = oauth_creds w2
  /\ pkce w1 = pkce w2
  /\ creds_file w1 = creds_file w2
  /\ clock w1 = clock w2
  /\ token_posts w1 = token_posts w2
  /\ authorizations w1 = authorizations w2
  /\ chat_posts w1 = chat_posts w2.

(** [env] with another answer to whether the browser opens. *)
Definition with_browser (opens : string -> bool) (env : Env) : Env :=
  mkEnv (token_endpoint env) (device_endpoint env) (chat_endpoint env)
        (fresh_pkce env) opens.

(** The device endpoint accepts; the user approves before the first poll. *)
Definition env_device_flow : Env :=
  env_of_replies
    [Replies (1 # 4) (mkResponse 200 (Some (granted "access" "refresh" None)))]
    [Replies 0 (mkResponse 200 (Accepted sample_device_auth))]
    [completion_200].

(** The token endpoint answers 200 without [access_token]. *)
Definition env_grant_without_token : Env :=
  env_of_token_replies
    [Replies 0 (mkResponse 200
                  (Some (mkTokenData None (Some "refresh") (Some "Bearer") None
                                     (Some 3600%Z) None None)))].

(** The token endpoint answers 200 with every token key but
    [refresh_token]. *)
Definition env_grant_without_refresh_token : Env :=
  env_of_token_replies
    [Replies (1 # 4)
       (mkResponse 200
          (Some (mkTokenData (Some "access") None (Some "Bearer") None
                             (Some 3600%Z) None None)))].

(** The token endpoint answers 502 with a body that is not JSON. *)
Definition env_token_bad_gateway : Env :=
  env_of_token_replies [Replies (1 # 4) (mkResponse 502 None)].

(** Two computations that, started by clients in the same state, end with
    the same outcome and clients in the same state. *)
Definition agree {A} (m1 m2 : M A) : Prop :=
  forall wa wb,
    same_client wa wb ->
    fst (m1 wa) = fst (m2 wb) /\ same_client (snd (m1 wa)) (snd (m2 wb)).

(* ------------------------------------------------------------------ *)
(** ** What a dispatch sends *)

(** An event that is not a chat request, or a chat request to [api_url]
    with [payload], the flag [stream] and a bearer token. *)
Definition chat_request_to (api_url : string) (payload : Payload) (stream : bool)
    (e : Event) : Prop :=
  match e with
  | EvChatPost url authorization sent flag =>
      url = api_url /\ sent = payload /\ flag = stream
      /\ exists token, authorization = "Bearer " ++ token
  | _ => True
  end.

Definition not_chat (e : Event) : Prop := is_chat_post e = false.

(** The stored credential has expired; the refresh is granted with a new
    [resource_url]; the chat request succeeds. *)
Definition env_refresh_moves_resource : Env :=
  env_of_replies
    [Replies 0 (mkResponse 200
                  (Some (granted "new-access" "new-refresh" (Some "https://new.qwen.ai"))))]
    []
    [completion_200].

(* ------------------------------------------------------------------ *)
(** ** The chat endpoint of [server.py] *)

(** [config.supported_models] ([config.py], lines 30-32). *)
Definition supported_models : list string := ["qwen3-coder-plus"].

(** The fields of a [ChatCompletionRequest] the handler reads: [model],
    and what [model_dump(exclude={'model'})] keeps, with [stream] apart.
    A [stream] of [None] is the field left out of the request: every test
    [make_request] makes of it reads it as false. *)
Record ChatCompletionRequest : Type := mkChatCompletionRequest {
  cr_model : string;
  cr_stream : option bool;
  cr_rest : string
}.

(** [ErrorDetail(message=..., type=..., param=..., code=...)]; [None] is
    an argument the call leaves out. *)
Record ErrorDetail : Type := mkErrorDetail {
  ed_message : string;
  ed_type : string;
  ed_param : option string;
  ed_code : option string
}.

(** How a call of the handler ends: with its return value, or with the
    [HTTPException] it raises.  [Unfinished] is the poller out of fuel. *)
Inductive Served (R : Type) : Type :=
| Responds (response : R)
| HTTPException (status_code : Z) (detail : ErrorDetail)
| Unfinished.
Arguments Responds {R} response.
Arguments HTTPException {R} status_code detail.
Arguments Unfinished {R}.

(** Lines 131-140. *)
Definition unsupported_model (model : string) : ErrorDetail :=
  mkErrorDetail
    ("Unsupported model: " ++ model ++ ". Supported models: "
     ++ String.concat ", " supported_models)
    "invalid_request_error" (Some "model") None.

(** Lines 156-165. *)
Definition internal_server_error : ErrorDetail :=
  mkErrorDetail "Internal server error" "internal_error" None (Some "500").

(** [chat_request.model_dump(exclude={'model'})] *)
Definition model_dump_without_model (chat_request : ChatCompletionRequest) : RequestData :=
  mkRequestData None (cr_stream chat_request) (cr_rest chat_request).

Section Server.

Variable env : Env.
Variable fuel : nat.

(** [ChatCompletionResponse.model_validate]: the response model belongs
    to the module [models], which is not part of the sources at hand;
    [None] stands for its [ValidationError]. *)
Variable ChatCompletionResponse : Type.
Variable model_validate : Result -> option ChatCompletionResponse.

(** The body of [chat_completions] (lines 128-165); the rate limiter that
    decorates it is outside. *)
Definition chat_completions (chat_request : ChatCompletionRequest) (w : World)
    : Served ChatCompletionResponse * World :=
  if negb (existsb (String.eqb (cr_model chat_request)) supported_models) then
    (HTTPException 400 (unsupported_model (cr_model chat_request)), w)
  else
    match (QwenClient ;;
           make_request env (cr_model chat_request) fuel
                        (model_dump_without_model chat_request))%py w with
    | (Returns response_data, w') =>
        match model_validate response_data with
        | Some response => (Responds response, w')
        | None => (HTTPException 500 internal_server_error, w')
        end
    | (Raises e, w') => (HTTPException 500 internal_server_error, w')
    | (OutOfFuel, w') => (Unfinished, w')
    end.

End Server.

(** A chat request for the supported model. *)
Definition served_request : ChatCompletionRequest :=
  mkChatCompletionRequest "qwen3-coder-plus" (Some false) "messages".

(** A validator that accepts every parsed body. *)
Definition accept_parsed (r : Result) : option string :=
  match r with
  | ParsedBody json => Some json
  | StreamGenerator _ => None
  end.

(** A world whose credential file holds [creds]; no client exists yet. *)
Definition world_with_stored (creds : OAuthCreds) (now : Q) : World :=
  mkWorld None None (Some (Accepted creds)) now [].

(** The chat endpoint answers 429. *)
Definition env_rate_limited : Env :=
  env_of_replies [] [] [Replies 0 (mkResponse 429 (mkChatBody None []))].

(* ------------------------------------------------------------------ *)
(** ** PKCE pairs *)

(** [base64.urlsafe_b64encode] of the standard library, after RFC 4648,
    section 5: three bytes give four characters of the URL-safe alphabet,
    a last group of one or two bytes is padded with [=]. *)
Module Base64.

Definition urlsafe_alphabet : string :=
  "ABCDEFGHIJKLMNOPQRSTUVWXYZabcdefghijklmnopqrstuvwxyz0123456789-_".

Definition pad : ascii := "="%char.

(** The character for the low six bits of [n]. *)
Definition digit (n : N) : ascii :=
  match String.get (N.to_nat (n mod 64)) urlsafe_alphabet with
  | Some c => c
  | None => pad
  end.

Fixpoint urlsafe_b64encode (bs : list Byte.byte) : string :=
  match bs with
  | [] => ""
  | [a] =>
      let n := (Byte.to_N a * 16)%N in
      String (digit (n / 64)) (String (digit n) (String pad (String pad "")))
  | [a; b] =>
      let n := ((Byte.to_N a * 256 + Byte.to_N b) * 4)%N in
      String (digit (n / 4096))
        (String (digit (n / 64)) (String (digit n) (String pad "")))
  | a :: b :: c :: rest =>
      let n := (Byte.to_N a * 65536 + Byte.to_N b * 256 + Byte.to_N c)%N in
      String (digit (n / 262144))
        (String (digit (n / 4096))
           (String (digit (n / 64)) (String (digit n) (urlsafe_b64encode rest))))
  end.

(** The position of a character in the alphabet. *)
Fixpoint index_from (c : ascii) (alphabet : string) (i : N) : N :=
  match alphabet with
  | EmptyString => i
  | String a rest => if Ascii.eqb a c then i else index_from c rest (N.succ i)
  end.

Definition index (c : ascii) : N := index_from c urlsafe_alphabet 0.

(** The padding of an encoding of [n] bytes. *)
Definition padding (n : nat) : string :=
  match (n mod 3)%nat with
  | O => ""
  | S O => "=="
  | _ => "="
  end.

End Base64.

(** [s.rstrip(c)] for a single character [c]. *)
Fixpoint rstrip (c : ascii) (s : string) : string :=
  match s with
  | EmptyString => EmptyString
  | String a t =>
      match rstrip c t with
      | EmptyString => if Ascii.eqb a c then EmptyString else String a EmptyString
      | t' => String a t'
      end
  end.

(** The characters RFC 7636 allows in a code verifier that a base64url
    encoding can produce: letters, digits, [-] and [_]. *)
Definition is_unreserved (c : ascii) : bool :=
  let n := N_of_ascii c in
  ((65 <=? n) && (n <=? 90) || (97 <=? n) && (n <=? 122)
   || (48 <=? n) && (n <=? 57) || (n =? 45) || (n =? 95))%N.

Fixpoint all_chars (p : ascii -> bool) (s : string) : bool :=
  match s with
  | EmptyString => true
  | String a t => p a && all_chars p t
  end.

Section Pkce.

(** [hashlib.sha256(data).digest()] *)
Variable sha256 : list Byte.byte -> list Byte.byte.

(** Lines 48-55; [random] is what [os.urandom(32)] returns.  The text is
    ASCII, so [encode] and [decode] keep the bytes. *)
Definition generate_pkce_pair (random : list Byte.byte) : PKCE :=
  let code_verifier := rstrip "=" (Base64.urlsafe_b64encode random) in
  let code_challenge :=
    rstrip "=" (Base64.urlsafe_b64encode (sha256 (list_byte_of_string code_verifier))) in
  mkPKCE code_verifier code_challenge.

End Pkce.

(** Thirty-two zero bytes, and a digest function that returns thirty-two
    bytes [0xff] whatever it is given. *)
Definition zero_bytes : list Byte.byte := repeat Byte.x00 32.
Definition ones_digest (data : list Byte.byte) : list Byte.byte := repeat Byte.xff 32.

(* ------------------------------------------------------------------ *)
(** ** What a byte source delivers *)

(** The chunks a source delivers before it ends. *)
Fixpoint delivered (source : ByteSource) : list string :=
  match source with
  | Chunk text rest => text :: delivered rest
  | Exhausted | Broken _ => []
  end.

(** The exception that ends a source, if one does. *)
Fixpoint ending (source : ByteSource) : option Caught :=
  match source with
  | Chunk _ rest => ending rest
  | Exhausted => None
  | Broken e => Some e
  end.

(* ------------------------------------------------------------------ *)
(** ** The streaming endpoint of [openai_adapter.py], end to end *)

(** [type(value).__name__] of what [make_request] returns
    ([qwen_client.py], lines 233-239): a generator for a streaming
    request, the decoded body otherwise. *)
Definition type_name (result : Result) : string :=
  match result with
  | StreamGenerator _ => "generator"
  | ParsedBody _ => "dict"
  end.

(** [await value] for a value that is not awaitable: the [TypeError]
    CPython raises, as [except Exception as e] catches it.
    [make_request] is a plain [def] ([qwen_client.py], line 199), so what
    it returns is never awaitable. *)
Definition not_awaitable (result : Result) : Caught :=
  mkCaught ("object " ++ type_name result ++ " can't be used in 'await' expression").

(** [request_data] of lines 112-117: [stream] is [True]; [rest] stands for
    the messages, the temperature and the token limit. *)
Definition stream_request_data (rest : string) : RequestData :=
  mkRequestData None (Some true) rest.

(** The model of the module's client, [QwenClient()] on line 26. *)
Definition adapter_model : string := "qwen3-coder-plus".

Section StreamingEndpoint.

Variable env : Env.
Variable fuel : nat.
Variable model_dump_json : ChatCompletionStreamResponse -> string.
Variable completion_id : string.
Variable created_time : Z.
Variable request_model : string.

(** [str(e)] for an exception of the client; the texts of [requests] and
    [json] exceptions are theirs. *)
Variable str : PyExc -> string.

(** Lines 111-120, inside the [try]: what
    [stream_generator = await qwen_client.make_request(request_data)]
    comes to.  An exception of the call is raised as it is; a value
    returned is awaited, which raises.  No byte source is ever bound. *)
Definition await_make_request (rest : string) (w : World)
    : option (Caught + ByteSource) * World :=
  match make_request env adapter_model fuel (stream_request_data rest) w with
  | (Returns result, w') => (Some (inl (not_awaitable result)), w')
  | (Raises e, w') => (Some (inl (mkCaught (str e))), w')
  | (OutOfFuel, w') => (None, w')
  end.

(** The generator of [chat_completion_stream] (lines 105-161) over the
    client: every string it yields and the exception that leaves it, if
    any; [None] is the poller out of fuel. *)
Definition chat_completion_stream (rest : string) (w : World)
    : option (list string * option Caught) * World :=
  let (acquired, w') := await_make_request rest w in
  (option_map
     (generate_stream model_dump_json completion_id created_time request_model)
     acquired,
   w').

End StreamingEndpoint.

(** The chat endpoint streams [Hello] and [ world], then the stream ends. *)
Definition env_streams_hello_world : Env :=
  env_of_replies [] []
    [Replies 0 (mkResponse 200 (mkChatBody None ["Hello"; " world"]))].
(* ================================================================== *)
(** * Properties *)


(** ** Comparisons of times *)

Lemma Qltb_lt (x y : Q) : Qltb x y = true <-> (x < y)%Q.
Proof.
  unfold Qltb. rewrite negb_true_iff, <- not_true_iff_false, Qle_bool_iff.
  split; [apply Qnot_le_lt | apply Qlt_not_le].
Qed.

Lemma Qltb_ge (x y : Q) : Qltb x y = false <-> (y <= x)%Q.
Proof.
  unfold Qltb. rewrite negb_false_iff. apply Qle_bool_iff.
Qed.

(** [int(t)] of a time that is not negative is its whole seconds: the
    integer [n] with [n <= t < n + 1]. *)
Lemma int_of_time_floor (t : Q) :
  (0 <= t)%Q ->
  (inject_Z (int_of_time t) <= t)%Q /\ (t < inject_Z (int_of_time t) + 1)%Q.
Proof.
  destruct t as [n d]. unfold Qle, Qlt, int_of_time, inject_Z, Qplus.
  cbn [Qnum Qden]. intros H. rewrite Z.mul_1_r in H. cbn in H.
  rewrite Z.quot_div_nonneg by lia.
  pose proof (Z.div_mod n (Z.pos d) ltac:(discriminate)) as D.
  pose proof (Z.mod_pos_bound n (Z.pos d) ltac:(reflexivity)) as B.
  change (Z.pos (1 * 1)) with 1%Z. rewrite !Z.mul_1_r.
  split; nia.
Qed.

(** ** Statuses and truth values *)

(** The statuses [make_request] answers with a refresh are 400, 401 and
    403, and no other. *)
Lemma retry_status_iff (status : Z) :
  retry_status status = true <-> (status = 400 \/ status = 401 \/ status = 403)%Z.
Proof.
  unfold retry_status. rewrite !orb_true_iff, !Z.eqb_eq. tauto.
Qed.

(** [raise_for_status] raises for 4xx and 5xx, and for no other status. *)
Lemma is_error_status_iff (status : Z) :
  is_error_status status = true <-> (400 <= status < 600)%Z.
Proof.
  unfold is_error_status. rewrite andb_true_iff, Z.leb_le, Z.ltb_lt. tauto.
Qed.

(** A text is false exactly when it is empty. *)
Lemma truthy_iff (s : string) : PyStr.truthy s = false <-> s = "".
Proof.
  destruct s; cbn; split; intros H; try reflexivity; discriminate H.
Qed.

(** ** Strings *)

Lemma prefix_split (p s : string) :
  String.prefix p s = true -> exists t, s = p ++ t.
Proof.
  revert s. induction p as [| c p IH]; intros s H.
  - exists s. reflexivity.
  - destruct s as [| d s]; simpl in H; [discriminate |].
    destruct (Ascii.ascii_dec c d) as [-> | ]; [| discriminate].
    destruct (IH s H) as [t ->]. exists t. reflexivity.
Qed.

Lemma prefix_app (p t : string) : String.prefix p (p ++ t) = true.
Proof.
  induction p as [| c p IH]; simpl.
  - destruct t; reflexivity.
  - destruct (Ascii.ascii_dec c c); [assumption | congruence].
Qed.

Lemma https_carries_scheme (s : string) :
  PyStr.startswith s "https://" = true -> Scheme.carries_scheme s = true.
Proof.
  intros H. apply prefix_split in H. destruct H as [t ->].
  destruct t; reflexivity.
Qed.

Example default_resource_url_value :
  default_resource_url = "https://dashscope.aliyuncs.com/compatible-mode".
Proof. reflexivity. Qed.

Example replace_all_occurrences : PyStr.replace "a/v1b/v1" "/v1" "-" = "a-b-".
Proof. reflexivity. Qed.

Example replace_empty_old : PyStr.replace "abc" "" "-" = "-a-b-c-".
Proof. reflexivity. Qed.

Example repr_plain : PyStr.repr "boom" = "'boom'".
Proof. reflexivity. Qed.

Example url_bare_host :
  chat_completions_url "portal.qwen.ai" = "https://portal.qwen.ai/v1/chat/completions".
Proof. reflexivity. Qed.

(* ------------------------------------------------------------------ *)
(** ** The expiry check *)

Lemma is_token_expired_iff (c : OAuthCreds) (now : Q) :
  is_token_expired (Some c) now = true <-> (inject_Z (expiry_date c) < now - 30)%Q.
Proof. apply Qltb_lt. Qed.

(** C4.  The expiry check answers true exactly for an absent credential
    and for one whose [expiry_date] lies more than 30 seconds before now.
    So a credential with 10 seconds left, one expiring now, and one that
    expired 20 seconds ago are all reported as not expired: the skew
    delays expiry instead of advancing it. *)
Theorem is_token_expired_skew_is_late :
  (forall now, is_token_expired None now = true)
  /\ (forall c now,
        is_token_expired (Some c) now = true
        <-> (inject_Z (expiry_date c) < now - 30)%Q)
  /\ is_token_expired (Some (mkOAuthCreds "a" "r" "Bearer" "h" 1010)) 1000 = false
  /\ is_token_expired (Some (mkOAuthCreds "a" "r" "Bearer" "h" 1000)) 1000 = false
  /\ is_token_expired (Some (mkOAuthCreds "a" "r" "Bearer" "h" 980)) 1000 = false
  /\ is_token_expired (Some (mkOAuthCreds "a" "r" "Bearer" "h" 969)) 1000 = true.
Proof.
  repeat split; try reflexivity; apply is_token_expired_iff.
Qed.

(* ------------------------------------------------------------------ *)
(** ** The request URL *)

(** C8, as stated, fails: a stored value with the scheme [http] carries a
    scheme and is still prefixed. *)
Lemma chat_url_http_scheme_is_prefixed :
  ~ (Scheme.carries_scheme "http://example.com" = true ->
     chat_completions_url "http://example.com"
     = "http://example.com" ++ "/v1/chat/completions").
Proof.
  intros H. specialize (H eq_refl). discriminate H.
Qed.

(** C8, amended.  The origin is the stored value prefixed with [https://]
    exactly when the stored value does not start with [https://], which
    covers every value without a scheme; a value that starts with
    [https://] is used unchanged; the URL always starts with [https://]. *)
Theorem chat_completions_url_origin (stored : string) :
  (PyStr.startswith stored "https://" = true ->
   chat_completions_url stored = stored ++ "/v1/chat/completions")
  /\ (PyStr.startswith stored "https://" = false ->
      chat_completions_url stored = "https://" ++ stored ++ "/v1/chat/completions")
  /\ (Scheme.carries_scheme stored = false ->
      chat_completions_url stored = "https://" ++ stored ++ "/v1/chat/completions")
  /\ PyStr.startswith (chat_completions_url stored) "https://" = true.
Proof.
  unfold chat_completions_url.
  destruct (PyStr.startswith stored "https://") eqn:E; simpl.
  - split; [reflexivity |]. split; [discriminate |]. split.
    + intros H. rewrite (https_carries_scheme _ E) in H. discriminate.
    + apply prefix_split in E. destruct E as [t ->].
      unfold PyStr.startswith. simpl. destruct (t ++ _); reflexivity.
  - split; [discriminate |]. split; [reflexivity |]. split; [reflexivity |].
    unfold PyStr.startswith. destruct stored; reflexivity.
Qed.

Lemma chat_completions_url_origin_witness :
  chat_completions_url "https://portal.qwen.ai" = "https://portal.qwen.ai/v1/chat/completions"
  /\ chat_completions_url "portal.qwen.ai" = "https://portal.qwen.ai/v1/chat/completions".
Proof.
  split.
  - apply (proj1 (chat_completions_url_origin "https://portal.qwen.ai")). reflexivity.
  - apply (proj1 (proj2 (proj2 (chat_completions_url_origin "portal.qwen.ai")))). reflexivity.
Defined.

(* ------------------------------------------------------------------ *)
(** ** Loading the stored credential *)

(** C3, as stated, fails: on a credential file that is not JSON the load
    raises [JSONDecodeError] instead of returning absent. *)
Lemma load_unparsable_file_raises :
  ~ (fst (_load_oauth_creds (world_with_file (Some NotJson))) = Returns None)
  /\ fst (_load_oauth_creds (world_with_file (Some NotJson))) = Raises JSONDecodeError.
Proof.
  split; [discriminate | reflexivity].
Qed.

(** C3, amended.  The load returns absent exactly when no credential file
    exists.  When the file exists and is not JSON, or is JSON that does not
    hold the fields of a credential, the failure is raised past the load
    ([JSONDecodeError], [TypeError]) and past the constructor that calls
    it; a file that holds a credential is returned.  The world is left as
    it was. *)
Theorem load_oauth_creds_outcomes (w : World) :
  (creds_file w = None -> _load_oauth_creds w = (Returns None, w))
  /\ (creds_file w = Some NotJson -> _load_oauth_creds w = (Raises JSONDecodeError, w))
  /\ (creds_file w = Some Rejected ->
      _load_oauth_creds w = (Raises (TypeError "OAuthCreds.__init__()"), w))
  /\ (forall creds, creds_file w = Some (Accepted creds) ->
      _load_oauth_creds w = (Returns (Some creds), w))
  /\ (fst (_load_oauth_creds w) = Returns None <-> creds_file w = None)
  /\ (forall e, fst (_load_oauth_creds w) = Raises e -> fst (__init__ w) = Raises e).
Proof.
  unfold __init__, _load_oauth_creds, read_file, gets, bind.
  destruct (creds_file w) as [[| | creds] |]; cbn;
    (split; [| split; [| split; [| split; [| split]]]]);
    intros; try discriminate; try reflexivity;
    try (split; intros; (discriminate || reflexivity));
    match goal with H : _ = _ |- _ => injection H as <-; reflexivity end.
Qed.

Lemma load_oauth_creds_outcomes_witness :
  _load_oauth_creds (world_with_file None) = (Returns None, world_with_file None)
  /\ _load_oauth_creds (world_with_file (Some NotJson))
     = (Raises JSONDecodeError, world_with_file (Some NotJson)).
Proof.
  split.
  - apply (proj1 (load_oauth_creds_outcomes (world_with_file None))). reflexivity.
  - apply (proj1 (proj2 (load_oauth_creds_outcomes (world_with_file (Some NotJson))))).
    reflexivity.
Defined.

(* ------------------------------------------------------------------ *)
(** ** Refreshing *)

(** C6, as stated, fails: with a credential whose [refresh_token] is empty
    the refresh request is still sent, and when the endpoint grants a token
    the refresh succeeds. *)
Lemma refresh_without_refresh_token_is_sent :
  let env := env_of_token_replies
               [Replies 0 (mkResponse 200 (Some (granted "new-access" "new-refresh" None)))] in
  let w := world_with_creds creds_without_refresh_token 100 in
  ~ (refresh_token creds_without_refresh_token = "" ->
     fst (_refresh_token env w) = Raises NoCredentialError)
  /\ fst (_refresh_token env w) = Returns tt.
Proof.
  split.
  - intros H. specialize (H eq_refl). discriminate H.
  - reflexivity.
Qed.

(** C6, amended.  The refresh fails with [NoCredentialError], sending
    nothing, whenever the cached credential itself is absent.  With a
    credential, the refresh request is sent with its [refresh_token],
    whatever it is; on a response whose status is not 200 the cached
    credential is dropped, the credential file is deleted, and the refresh
    fails with [RefreshFailedError]. *)
Theorem refresh_token_failures (env : Env) (w : World) :
  (oauth_creds w = None -> _refresh_token env w = (Raises NoCredentialError, w))
  /\ (forall old dt r,
        oauth_creds w = Some old ->
        token_endpoint env (token_posts w) = Replies dt r ->
        status_code r <> 200%Z ->
        exists w',
          _refresh_token env w = (Raises RefreshFailedError, w')
          /\ oauth_creds w' = None
          /\ creds_file w' = None
          /\ trace w' = EvTokenPost (RefreshGrant (refresh_token old)) :: trace w).
Proof.
  split.
  - intros H. unfold _refresh_token, get_creds, gets, bind. rewrite H. reflexivity.
  - intros old dt r Hc Hr Hs.
    unfold _refresh_token, get_creds, gets, bind, post. rewrite Hc, Hr.
    apply Z.eqb_neq in Hs. rewrite Hs. cbn.
    eexists. split; [reflexivity |]. cbn. repeat split.
Qed.

Lemma refresh_token_failures_witness :
  _refresh_token (env_of_token_replies []) (world_with_file None)
  = (Raises NoCredentialError, world_with_file None)
  /\ exists w',
       _refresh_token
         (env_of_token_replies [Replies 0 (mkResponse 400 (Some (refused "invalid_grant")))])
         (world_with_creds creds_without_refresh_token 100)
       = (Raises RefreshFailedError, w')
       /\ oauth_creds w' = None
       /\ creds_file w' = None
       /\ trace w' = [EvTokenPost (RefreshGrant "")].
Proof.
  split.
  - apply (proj1 (refresh_token_failures (env_of_token_replies []) (world_with_file None))).
    reflexivity.
  - apply (proj2 (refresh_token_failures
                    (env_of_token_replies
                       [Replies 0 (mkResponse 400 (Some (refused "invalid_grant")))])
                    (world_with_creds creds_without_refresh_token 100))
             creds_without_refresh_token 0 (mkResponse 400 (Some (refused "invalid_grant")))).
    + reflexivity.
    + reflexivity.
    + discriminate.
Defined.

(* ------------------------------------------------------------------ *)
(** ** The stream generator *)

Section AdapterProperties.

Variable model_dump_json : ChatCompletionStreamResponse -> string.
Variable completion_id : string.
Variable created_time : Z.
Variable request_model : string.

Let delta_event (chunk : string) : string :=
  sse (model_dump_json (stream_response completion_id created_time request_model chunk)).

Lemma try_body_source_of_list (chunks : list string) :
  try_body model_dump_json completion_id created_time request_model
           (source_of_list chunks)
  = ((map delta_event chunks
        ++ [sse (model_dump_json (final_response completion_id created_time request_model));
            DONE])%list,
     None).
Proof.
  induction chunks as [| c rest IH]; simpl.
  - reflexivity.
  - rewrite IH. reflexivity.
Qed.

Lemma try_body_source_raising (chunks : list string) (e : Caught) :
  try_body model_dump_json completion_id created_time request_model
           (source_raising chunks e)
  = (map delta_event chunks, Some e).
Proof.
  induction chunks as [| c rest IH]; simpl.
  - reflexivity.
  - rewrite IH. reflexivity.
Qed.

Lemma generate_stream_never_raises (acquired : Caught + ByteSource) :
  snd (generate_stream model_dump_json completion_id created_time request_model acquired)
  = None.
Proof.
  unfold generate_stream.
  destruct acquired as [e | source]; [reflexivity |].
  destruct (try_body _ _ _ _ source) as [yielded [e |]]; reflexivity.
Qed.

End AdapterProperties.

(** The loop of lines 123-150 by itself.  Given a byte source that
    delivers [chunks] and ends normally, the body of the generator yields,
    in source order, one event per chunk with the chunk's text as delta
    content and no finish reason, then one event with an empty delta and
    finish reason [stop], then the sentinel; every event is [data: ]
    followed by the encoded event and a blank line, and nothing is raised.
    The encoder of the response model is a parameter.  Line 120 never
    binds such a source: see [chat_completion_stream]. *)
Theorem generate_stream_normal_end
    (model_dump_json : ChatCompletionStreamResponse -> string)
    (completion_id : string) (created_time : Z) (request_model : string)
    (chunks : list string) :
  let event (delta : list (string * string)) (finish_reason : option string) :=
    "data: "
    ++ model_dump_json
         (mkStreamResponse completion_id created_time request_model
            [mkChoice 0 delta finish_reason])
    ++ PyStr.nl ++ PyStr.nl in
  generate_stream model_dump_json completion_id created_time request_model
                  (inr (source_of_list chunks))
  = (List.app (map (fun chunk => event [("content", chunk)] None) chunks)
               [event [] (Some "stop"); "data: [DONE]" ++ PyStr.nl ++ PyStr.nl],
     None)
  /\ generate_stream model_dump_json completion_id created_time request_model
                     (inr (source_of_list ["Hello"; " world"]))
     = ([event [("content", "Hello")] None;
         event [("content", " world")] None;
         event [] (Some "stop");
         "data: [DONE]" ++ PyStr.nl ++ PyStr.nl],
        None).
Proof.
  intros event. unfold generate_stream.
  split.
  - rewrite try_body_source_of_list. reflexivity.
  - reflexivity.
Qed.

(** C2.  When the byte source raises after delivering [chunks], the
    generator yields the events of those chunks, one error event and the
    sentinel, and whatever it is given it raises nothing.  The error event
    is the Python [repr] of the error dictionary, in single quotes: for
    every message it differs from the JSON wire form [spec_error_event] of
    the design document. *)
Theorem generate_stream_error_event_is_repr
    (model_dump_json : ChatCompletionStreamResponse -> string)
    (completion_id : string) (created_time : Z) (request_model : string)
    (chunks : list string) (e : Caught) :
  generate_stream model_dump_json completion_id created_time request_model
                  (inr (source_raising chunks e))
  = (List.app
       (map (fun chunk =>
               sse (model_dump_json
                      (stream_response completion_id created_time request_model chunk)))
            chunks)
       [sse (py_repr (error_response e)); "data: [DONE]" ++ PyStr.nl ++ PyStr.nl],
     None)
  /\ (forall acquired,
        snd (generate_stream model_dump_json completion_id created_time request_model
               acquired) = None)
  /\ sse (py_repr (error_response e)) <> spec_error_event (str_of e)
  /\ sse (py_repr (error_response (mkCaught "boom")))
     = "data: {'error': {'message': 'boom', 'type': 'internal_error'}}"
       ++ PyStr.nl ++ PyStr.nl
  /\ spec_error_event "boom"
     = "data: {" ++ PyStr.dquote ++ "error" ++ PyStr.dquote ++ ": {"
       ++ PyStr.dquote ++ "message" ++ PyStr.dquote ++ ": "
       ++ PyStr.dquote ++ "boom" ++ PyStr.dquote ++ ", "
       ++ PyStr.dquote ++ "type" ++ PyStr.dquote ++ ": "
       ++ PyStr.dquote ++ "internal_error" ++ PyStr.dquote ++ "}}"
       ++ PyStr.nl ++ PyStr.nl.
Proof.
  split; [| split; [| split; [| split]]].
  - unfold generate_stream. rewrite try_body_source_raising. reflexivity.
  - apply generate_stream_never_raises.
  - intros H. cbn in H. discriminate H.
  - reflexivity.
  - reflexivity.
Qed.

(* ------------------------------------------------------------------ *)
(** ** The token poller *)

Lemma save_oauth_creds_run (creds : OAuthCreds) (w : World) :
  _save_oauth_creds creds w = (Returns tt, saved creds w).
Proof. reflexivity. Qed.

(** A token response with the keys it must carry yields a credential
    whose expiry is the time of reading plus [expires_in]. *)
Lemma creds_of_token_data_run (data : TokenData) (refresh_fallback : option string)
    (resource_fallback access type : string) (expires : Z) (w : World) :
  td_expires_in data = Some expires ->
  td_access_token data = Some access ->
  td_token_type data = Some type ->
  (refresh_fallback = None -> td_refresh_token data <> None) ->
  creds_of_token_data data refresh_fallback resource_fallback w
  = (Returns
       (mkOAuthCreds access
          (get_default (td_refresh_token data)
             (get_default refresh_fallback EmptyString))
          type
          (get_default (td_resource_url data) resource_fallback)
          (int_of_time (clock w) + expires)),
     w).
Proof.
  intros He Ha Ht Hr.
  unfold creds_of_token_data, bind, time_time, gets, getitem.
  rewrite He, Ha, Ht. cbn beta iota.
  destruct refresh_fallback as [old |]; cbn.
  - reflexivity.
  - destruct (td_refresh_token data); [reflexivity | now destruct Hr].
Qed.

Section PollProperties.

Variable env : Env.
Variable device_auth : DeviceAuth.
Variable verifier : string.

Lemma token_posts_after_poll_request (poll_interval dt : Q) (w : World) :
  token_posts (after_poll_request device_auth verifier poll_interval dt w)
  = S (token_posts w).
Proof. reflexivity. Qed.

Lemma poll_loop_timeout (fuel : nat) (start_time poll_interval : Q) (w : World) :
  Qltb (clock w - start_time) (inject_Z (expires_in device_auth)) = false ->
  poll_loop env (S fuel) device_auth verifier start_time poll_interval w
  = (Raises OAuthTimeoutError, w).
Proof.
  intros H. cbn [poll_loop]. unfold bind, time_time, gets. cbn beta iota.
  rewrite H. reflexivity.
Qed.

(** One iteration whose guard holds and whose request is answered with a
    JSON body. *)
Lemma poll_loop_request (fuel : nat) (start_time poll_interval dt : Q) (w : World)
    (status : Z) (data : TokenData) :
  Qltb (clock w - start_time) (inject_Z (expires_in device_auth)) = true ->
  token_endpoint env (token_posts w) = Replies dt (mkResponse status (Some data)) ->
  poll_loop env (S fuel) device_auth verifier start_time poll_interval w
  = let w' := after_poll_request device_auth verifier poll_interval dt w in
    if (status =? 200)%Z then
      (creds <- creds_of_token_data data None default_resource_url ;;
       _save_oauth_creds creds ;;
       ret creds)%py w'
    else if option_eqb (td_error data) "authorization_pending" then
      poll_loop env fuel device_auth verifier start_time poll_interval w'
    else if option_eqb (td_error data) "slow_down" then
      poll_loop env fuel device_auth verifier start_time
                (Qmin (poll_interval * (3 # 2)) 10) w'
    else (Raises (OAuthError (td_error_description data)), w').
Proof.
  intros Hguard Hreply. cbn [poll_loop].
  unfold bind at 1. unfold time_time, gets. cbn beta iota.
  rewrite Hguard.
  unfold bind at 1. unfold sleep. cbn beta iota.
  unfold bind at 1. cbn beta iota.
  change (token_posts (elapse poll_interval (emit (EvSleep poll_interval) w)))
    with (token_posts w).
  rewrite Hreply.
  unfold bind at 1. unfold post. cbn beta iota.
  unfold bind at 1. unfold response_json. cbn [body status_code].
  unfold ret at 1. cbn beta iota.
  destruct (status =? 200)%Z; [reflexivity |].
  destruct (option_eqb (td_error data) "authorization_pending"); [reflexivity |].
  destruct (option_eqb (td_error data) "slow_down"); reflexivity.
Qed.

Lemma poll_loop_success (fuel : nat) (start_time poll_interval dt : Q) (w : World)
    (data : TokenData) (access refresh type : string) (expires : Z) :
  Qltb (clock w - start_time) (inject_Z (expires_in device_auth)) = true ->
  token_endpoint env (token_posts w) = Replies dt (mkResponse 200 (Some data)) ->
  td_expires_in data = Some expires ->
  td_access_token data = Some access ->
  td_refresh_token data = Some refresh ->
  td_token_type data = Some type ->
  let w' := after_poll_request device_auth verifier poll_interval dt w in
  let creds := mkOAuthCreds access refresh type
                 (get_default (td_resource_url data) default_resource_url)
                 (int_of_time (clock w') + expires) in
  poll_loop env (S fuel) device_auth verifier start_time poll_interval w
  = (Returns creds, saved creds w').
Proof.
  intros Hguard Hreply He Ha Hr Ht w' creds.
  rewrite (poll_loop_request _ _ _ _ _ _ _ Hguard Hreply).
  cbn beta iota zeta. change (200 =? 200)%Z with true. cbn beta iota.
  unfold bind at 1.
  rewrite (creds_of_token_data_run data None default_resource_url access type expires
             _ He Ha Ht) by (intros _; rewrite Hr; discriminate).
  rewrite Hr. reflexivity.
Qed.

(** Whenever the loop returns a credential, its last request was answered
    with status 200, the credential is built from that answer, and it is
    the one cached and written to the file. *)
Lemma poll_loop_returns (fuel : nat) :
  forall (start_time poll_interval : Q) (w w' : World) (creds : OAuthCreds),
    poll_loop env fuel device_auth verifier start_time poll_interval w
    = (Returns creds, w') ->
    exists dt data,
      token_endpoint env (pred (token_posts w')) = Replies dt (mkResponse 200 (Some data))
      /\ td_access_token data = Some (access_token creds)
      /\ td_refresh_token data = Some (refresh_token creds)
      /\ td_token_type data = Some (token_type creds)
      /\ resource_url creds = get_default (td_resource_url data) default_resource_url
      /\ (exists expires, td_expires_in data = Some expires
                          /\ expiry_date creds = (int_of_time (clock w') + expires)%Z)
      /\ oauth_creds w' = Some creds
      /\ creds_file w' = Some (Accepted creds).
Proof.
  induction fuel as [| fuel IH]; intros start_time poll_interval w w' creds H.
  - discriminate H.
  - destruct (Qltb (clock w - start_time) (inject_Z (expires_in device_auth))) eqn:Hguard.
    2:{ rewrite (poll_loop_timeout _ _ _ _ Hguard) in H. discriminate H. }
    destruct (token_endpoint env (token_posts w)) as [dt e | dt [status [data |]]] eqn:Hreply.
    + cbn [poll_loop] in H. unfold bind, time_time, gets, sleep, post in H.
      cbn beta iota in H. rewrite Hguard in H. cbn beta iota in H.
      change (token_posts (elapse poll_interval (emit (EvSleep poll_interval) w)))
        with (token_posts w) in H.
      rewrite Hreply in H. discriminate H.
    + rewrite (poll_loop_request _ _ _ _ _ _ _ Hguard Hreply) in H.
      cbn beta zeta in H.
      destruct (status =? 200)%Z eqn:Hs.
      * apply Z.eqb_eq in Hs. subst status.
        unfold bind, creds_of_token_data, time_time, gets, getitem in H.
        cbn beta iota in H.
        destruct (td_expires_in data) as [expires |] eqn:He; [| discriminate H].
        destruct (td_access_token data) as [access |] eqn:Ha; [| discriminate H].
        destruct (td_refresh_token data) as [refresh |] eqn:Hr; [| discriminate H].
        destruct (td_token_type data) as [type |] eqn:Ht; [| discriminate H].
        cbn in H. injection H as <- <-.
        exists dt, data. split; [exact Hreply |].
        cbn [access_token refresh_token token_type resource_url expiry_date
             oauth_creds creds_file clock].
        rewrite Ha, Hr, Ht.
        repeat split. exists expires. split; [exact He | reflexivity].
      * destruct (option_eqb (td_error data) "authorization_pending").
        { apply IH in H. exact H. }
        destruct (option_eqb (td_error data) "slow_down").
        { apply IH in H. exact H. }
        discriminate H.
    + cbn [poll_loop] in H. unfold bind, time_time, gets, sleep, post in H.
      cbn beta iota in H. rewrite Hguard in H. cbn beta iota in H.
      change (token_posts (elapse poll_interval (emit (EvSleep poll_interval) w)))
        with (token_posts w) in H.
      rewrite Hreply in H. discriminate H.
Qed.

End PollProperties.

Section PollTermination.

Variable env : Env.
Variable device_auth : DeviceAuth.
Variable verifier : string.

Hypothesis latency_nonneg : forall n, (0 <= latency (token_endpoint env n))%Q.

Lemma inject_Z_succ (n : nat) :
  (inject_Z (Z.of_nat (S n)) == inject_Z (Z.of_nat n) + 1)%Q.
Proof.
  rewrite Nat2Z.inj_succ. unfold Z.succ. rewrite inject_Z_plus. reflexivity.
Qed.

(** Every iteration takes at least two seconds, so one unit of fuel for
    every two seconds of lifetime left, and one more, is enough. *)
Lemma poll_loop_terminates (fuel : nat) :
  forall (start_time poll_interval : Q) (w : World),
    (2 <= poll_interval)%Q ->
    (inject_Z (expires_in device_auth) - (clock w - start_time)
     <= 2 * inject_Z (Z.of_nat fuel))%Q ->
    fst (poll_loop env (S fuel) device_auth verifier start_time poll_interval w)
    <> OutOfFuel.
Proof.
  induction fuel as [| fuel IH]; intros start_time poll_interval w Hi Hleft.
  - rewrite poll_loop_timeout; [discriminate |].
    apply Qltb_ge. change (inject_Z (Z.of_nat 0)) with 0%Q in Hleft. lra.
  - destruct (Qltb (clock w - start_time) (inject_Z (expires_in device_auth))) eqn:Hguard.
    2:{ rewrite (poll_loop_timeout _ _ _ _ _ _ _ Hguard). discriminate. }
    pose proof (latency_nonneg (token_posts w)) as Hlat.
    rewrite inject_Z_succ in Hleft.
    destruct (token_endpoint env (token_posts w)) as [dt e | dt [status [data |]]] eqn:Hreply;
      cbn [latency] in Hlat.
    + cbn [poll_loop]. unfold bind, time_time, gets, sleep, post.
      cbn beta iota. rewrite Hguard. cbn beta iota.
      change (token_posts (elapse poll_interval (emit (EvSleep poll_interval) w)))
        with (token_posts w).
      rewrite Hreply. discriminate.
    + rewrite (poll_loop_request _ _ _ _ _ _ _ _ _ _ Hguard Hreply). cbn beta zeta.
      assert (Hnext : forall interval',
                 (2 <= interval')%Q ->
                 fst (poll_loop env (S fuel) device_auth verifier start_time interval'
                        (after_poll_request device_auth verifier poll_interval dt w))
                 <> OutOfFuel).
      { intros interval' Hi'. apply IH; [exact Hi' |].
        cbn [clock after_poll_request elapse emit]. lra. }
      destruct (status =? 200)%Z.
      * unfold bind, creds_of_token_data, time_time, gets, getitem.
        destruct (td_expires_in data); [| discriminate].
        destruct (td_access_token data); [| discriminate].
        destruct (td_refresh_token data); [| discriminate].
        destruct (td_token_type data); discriminate.
      * destruct (option_eqb (td_error data) "authorization_pending");
          [apply Hnext, Hi |].
        destruct (option_eqb (td_error data) "slow_down"); [| discriminate].
        apply Hnext. apply Q.min_glb; lra.
    + cbn [poll_loop]. unfold bind, time_time, gets, sleep, post.
      cbn beta iota. rewrite Hguard. cbn beta iota.
      change (token_posts (elapse poll_interval (emit (EvSleep poll_interval) w)))
        with (token_posts w).
      rewrite Hreply. discriminate.
Qed.

End PollTermination.
(** C5, amended.  The poller on answers that are JSON objects, a 200
    answer carrying [expires_in], [access_token], [refresh_token] and
    [token_type].  It starts at interval 2 with the start time read at
    entry.  An iteration runs only while the elapsed time is below the
    device authorization's [expires_in]; otherwise the poller fails with
    [OAuthTimeoutError] without a request.  Each iteration sleeps the
    current interval and then posts.  On status 200 it builds the
    credential with [expiry_date = int(now) + expires_in], where [now] is
    the time of the answer: [expiry_date - expires_in] is the integer [n]
    with [n <= now < n + 1].  It caches the credential, writes it to the
    file and returns it.  On [authorization_pending] it goes on at the
    same interval; on [slow_down] at [min(1.5 * interval, 10)]; on any
    other error code it fails with [OAuthError].  When no request takes
    negative time, one unit of fuel per two seconds of lifetime left, and
    one more, is enough for the loop to end.  Two [authorization_pending]
    answers followed by a grant make exactly three requests, each after a
    sleep of 2, and return the credential of the third answer. *)
Theorem poll_for_token_state_machine
    (env : Env) (device_auth : DeviceAuth) (verifier : string) (fuel : nat)
    (start_time poll_interval : Q) (w : World) :
  let lifetime := inject_Z (expires_in device_auth) in
  let next dt := after_poll_request device_auth verifier poll_interval dt w in
  let loop := poll_loop env in
  (forall p, pkce w = Some p ->
     _poll_for_token env fuel device_auth w
     = loop fuel device_auth (code_verifier p) (clock w) 2 w)
  /\ (forall dt,
        trace (next dt)
        = EvTokenPost (DeviceCodeGrant (device_code device_auth) verifier)
            :: EvSleep poll_interval :: trace w
        /\ clock (next dt) = (clock w + poll_interval + dt)%Q)
  /\ ((lifetime <= clock w - start_time)%Q ->
      loop (S fuel) device_auth verifier start_time poll_interval w
      = (Raises OAuthTimeoutError, w))
  /\ (forall dt data access refresh type expires,
        (clock w - start_time < lifetime)%Q ->
        token_endpoint env (token_posts w) = Replies dt (mkResponse 200 (Some data)) ->
        td_expires_in data = Some expires ->
        td_access_token data = Some access ->
        td_refresh_token data = Some refresh ->
        td_token_type data = Some type ->
        let creds := mkOAuthCreds access refresh type
                       (get_default (td_resource_url data) default_resource_url)
                       (int_of_time (clock w + poll_interval + dt) + expires) in
        loop (S fuel) device_auth verifier start_time poll_interval w
        = (Returns creds, saved creds (next dt))
        /\ ((0 <= clock w + poll_interval + dt)%Q ->
            (inject_Z (expiry_date creds - expires) <= clock w + poll_interval + dt)%Q
            /\ (clock w + poll_interval + dt
                < inject_Z (expiry_date creds - expires) + 1)%Q))
  /\ (forall dt status data,
        (clock w - start_time < lifetime)%Q ->
        token_endpoint env (token_posts w) = Replies dt (mkResponse status (Some data)) ->
        status <> 200%Z ->
        td_error data = Some "authorization_pending" ->
        loop (S fuel) device_auth verifier start_time poll_interval w
        = loop fuel device_auth verifier start_time poll_interval (next dt))
  /\ (forall dt status data,
        (clock w - start_time < lifetime)%Q ->
        token_endpoint env (token_posts w) = Replies dt (mkResponse status (Some data)) ->
        status <> 200%Z ->
        td_error data = Some "slow_down" ->
        loop (S fuel) device_auth verifier start_time poll_interval w
        = loop fuel device_auth verifier start_time
               (Qmin (poll_interval * (3 # 2)) 10) (next dt))
  /\ (forall dt status data,
        (clock w - start_time < lifetime)%Q ->
        token_endpoint env (token_posts w) = Replies dt (mkResponse status (Some data)) ->
        status <> 200%Z ->
        td_error data <> Some "authorization_pending" ->
        td_error data <> Some "slow_down" ->
        loop (S fuel) device_auth verifier start_time poll_interval w
        = (Raises (OAuthError (td_error_description data)), next dt))
  /\ ((forall n, (0 <= latency (token_endpoint env n))%Q) ->
      (2 <= poll_interval)%Q ->
      (lifetime - (clock w - start_time) <= 2 * inject_Z (Z.of_nat fuel))%Q ->
      fst (loop (S fuel) device_auth verifier start_time poll_interval w) <> OutOfFuel)
  /\ (forall p dt0 dt1 dt2 s0 s1 d0 d1 data access refresh type expires,
        pkce w = Some p ->
        token_endpoint env (token_posts w) = Replies dt0 (mkResponse s0 (Some d0)) ->
        s0 <> 200%Z -> td_error d0 = Some "authorization_pending" ->
        token_endpoint env (1 + token_posts w)%nat = Replies dt1 (mkResponse s1 (Some d1)) ->
        s1 <> 200%Z -> td_error d1 = Some "authorization_pending" ->
        token_endpoint env (2 + token_posts w)%nat = Replies dt2 (mkResponse 200 (Some data)) ->
        td_expires_in data = Some expires ->
        td_access_token data = Some access ->
        td_refresh_token data = Some refresh ->
        td_token_type data = Some type ->
        (0 < lifetime)%Q -> (2 + dt0 < lifetime)%Q -> (4 + dt0 + dt1 < lifetime)%Q ->
        exists creds w',
          _poll_for_token env (3 + fuel)%nat device_auth w = (Returns creds, w')
          /\ creds = mkOAuthCreds access refresh type
                       (get_default (td_resource_url data) default_resource_url)
                       (int_of_time (clock w') + expires)
          /\ (clock w' == clock w + 6 + dt0 + dt1 + dt2)%Q
          /\ token_posts w' = (3 + token_posts w)%nat
          /\ (let post := EvTokenPost
                            (DeviceCodeGrant (device_code device_auth) (code_verifier p)) in
              trace w' = post :: EvSleep 2 :: post :: EvSleep 2 :: post :: EvSleep 2
                           :: trace w)
          /\ oauth_creds w' = Some creds
          /\ creds_file w' = Some (Accepted creds)
          /\ ((0 <= clock w')%Q ->
              (inject_Z (expiry_date creds - expires) <= clock w')%Q
              /\ (clock w' < inject_Z (expiry_date creds - expires) + 1)%Q)).
Proof.
  intros lifetime next loop. subst lifetime next loop.
  split; [| split; [| split; [| split; [| split; [| split; [| split; [| split]]]]]]].
  - intros p Hp. unfold _poll_for_token, bind, get_pkce, time_time, gets.
    rewrite Hp. reflexivity.
  - intros dt. split; reflexivity.
  - intros H. apply poll_loop_timeout. now apply Qltb_ge.
  - intros dt data access refresh type expires Hg Hreply He Ha Hr Ht creds.
    apply Qltb_lt in Hg. split.
    + exact (poll_loop_success env device_auth verifier fuel start_time poll_interval dt w
               data access refresh type expires Hg Hreply He Ha Hr Ht).
    + intros Hpos. subst creds. cbn [expiry_date].
      replace (int_of_time (clock w + poll_interval + dt) + expires - expires)%Z
        with (int_of_time (clock w + poll_interval + dt)) by lia.
      exact (int_of_time_floor _ Hpos).
  - intros dt status data Hg Hreply Hs Herr. apply Qltb_lt in Hg.
    rewrite (poll_loop_request _ _ _ _ _ _ _ _ _ _ Hg Hreply).
    apply Z.eqb_neq in Hs. cbn beta zeta. rewrite Hs, Herr. reflexivity.
  - intros dt status data Hg Hreply Hs Herr. apply Qltb_lt in Hg.
    rewrite (poll_loop_request _ _ _ _ _ _ _ _ _ _ Hg Hreply).
    apply Z.eqb_neq in Hs. cbn beta zeta. rewrite Hs, Herr. reflexivity.
  - intros dt status data Hg Hreply Hs Hp Hsd. apply Qltb_lt in Hg.
    rewrite (poll_loop_request _ _ _ _ _ _ _ _ _ _ Hg Hreply).
    apply Z.eqb_neq in Hs. cbn beta zeta. rewrite Hs.
    destruct (td_error data) as [code |]; [| reflexivity].
    cbn [option_eqb].
    destruct (String.eqb_spec code "authorization_pending") as [-> | _];
      [now destruct Hp |].
    destruct (String.eqb_spec code "slow_down") as [-> | _];
      [now destruct Hsd | reflexivity].
  - intros Hlat Hi Hleft. now apply poll_loop_terminates.
  - intros p dt0 dt1 dt2 s0 s1 d0 d1 data access refresh type expires
           Hp H0 Hs0 He0 H1 Hs1 He1 H2 He Ha Hr Ht Hl0 Hl1 Hl2.
    apply Z.eqb_neq in Hs0, Hs1.
    set (v := code_verifier p).
    set (w1 := after_poll_request device_auth v 2 dt0 w).
    set (w2 := after_poll_request device_auth v 2 dt1 w1).
    assert (G0 : Qltb (clock w - clock w) (inject_Z (expires_in device_auth)) = true)
      by (apply Qltb_lt; lra).
    assert (G1 : Qltb (clock w1 - clock w) (inject_Z (expires_in device_auth)) = true)
      by (apply Qltb_lt; subst w1; cbn [clock after_poll_request elapse emit]; lra).
    assert (G2 : Qltb (clock w2 - clock w) (inject_Z (expires_in device_auth)) = true)
      by (apply Qltb_lt; subst w2 w1; cbn [clock after_poll_request elapse emit]; lra).
    assert (R1 : token_endpoint env (token_posts w1)
                 = Replies dt1 (mkResponse s1 (Some d1))) by exact H1.
    assert (R2 : token_endpoint env (token_posts w2)
                 = Replies dt2 (mkResponse 200 (Some data))) by exact H2.
    eexists. eexists. split.
    + unfold _poll_for_token, bind, get_pkce, time_time, gets. rewrite Hp.
      cbn beta iota. fold v.
      change (3 + fuel)%nat with (S (S (S fuel))).
      rewrite (poll_loop_request _ _ _ _ _ _ _ _ _ _ G0 H0).
      cbn beta zeta. rewrite Hs0, He0. cbn [option_eqb String.eqb Ascii.eqb Bool.eqb].
      fold w1.
      rewrite (poll_loop_request _ _ _ _ _ _ _ _ _ _ G1 R1).
      cbn beta zeta. rewrite Hs1, He1. cbn [option_eqb String.eqb Ascii.eqb Bool.eqb].
      fold w2.
      exact (poll_loop_success env device_auth v fuel (clock w) 2 dt2 w2
               data access refresh type expires G2 R2 He Ha Hr Ht).
    + split; [reflexivity |].
      split; [subst w2 w1; cbn [clock saved after_poll_request elapse emit]; lra |].
      split; [reflexivity |]. split; [reflexivity |].
      split; [reflexivity |]. split; [reflexivity |].
      intros Hpos. cbn [expiry_date].
      match goal with
      | |- context [(int_of_time ?t + expires - expires)%Z] =>
          replace (int_of_time t + expires - expires)%Z with (int_of_time t) by lia;
          exact (int_of_time_floor t Hpos)
      end.
Qed.

Lemma poll_for_token_state_machine_witness :
  exists creds w',
    _poll_for_token env_approved_on_third 3 sample_device_auth world_polling
    = (Returns creds, w')
    /\ creds = mkOAuthCreds "access" "refresh" "Bearer"
                 "https://dashscope.aliyuncs.com/compatible-mode" 3707
    /\ (clock w' == (429 # 4))%Q
    /\ token_posts w' = 3%nat
    /\ (let post := EvTokenPost (DeviceCodeGrant "device-code" "verifier") in
        trace w' = [post; EvSleep 2; post; EvSleep 2; post; EvSleep 2])
    /\ oauth_creds w' = Some creds
    /\ creds_file w' = Some (Accepted creds).
Proof.
  pose proof (poll_for_token_state_machine env_approved_on_third sample_device_auth
                "verifier" 0 100 2 world_polling) as H.
  cbv zeta in H.
  destruct H as (_ & _ & _ & _ & _ & _ & _ & _ & H).
  destruct (H (mkPKCE "verifier" "challenge") (1 # 2) (1 # 2) (1 # 4) 400%Z 400%Z
              (refused "authorization_pending") (refused "authorization_pending")
              (granted "access" "refresh" None) "access" "refresh" "Bearer" 3600%Z
              eq_refl eq_refl ltac:(discriminate) eq_refl eq_refl ltac:(discriminate)
              eq_refl eq_refl eq_refl eq_refl eq_refl eq_refl eq_refl eq_refl eq_refl)
    as (creds & w' & Hrun & Hcreds & Hclock & Hposts & Htrace & Hcache & Hfile & Hpin).
  assert (Hnow : (clock w' == 429 # 4)%Q) by (rewrite Hclock; reflexivity).
  assert (Hw : w' = snd (_poll_for_token env_approved_on_third 3 sample_device_auth
                           world_polling)) by exact (eq_sym (f_equal snd Hrun)).
  assert (Hwhole : int_of_time (clock w') = 107%Z) by (rewrite Hw; reflexivity).
  rewrite Hwhole in Hcreds.
  exists creds, w'. repeat split; assumption.
Defined.

(** C5, as stated, fails: a first answer with status 200 that carries no
    [refresh_token] does not give a credential.  The poller raises
    [KeyError] and nothing is cached or written.  A first answer that is
    not JSON, here with status 502, raises [JSONDecodeError], which is
    none of the three outcomes of the state machine. *)
Lemma poll_for_token_unusable_answer :
  _poll_for_token env_grant_without_refresh_token 1 sample_device_auth world_polling
  = (Raises (KeyError "refresh_token"),
     after_poll_request sample_device_auth "verifier" 2 (1 # 4) world_polling)
  /\ oauth_creds
       (snd (_poll_for_token env_grant_without_refresh_token 1 sample_device_auth
               world_polling)) = None
  /\ creds_file
       (snd (_poll_for_token env_grant_without_refresh_token 1 sample_device_auth
               world_polling)) = None
  /\ _poll_for_token env_token_bad_gateway 1 sample_device_auth world_polling
     = (Raises JSONDecodeError,
        after_poll_request sample_device_auth "verifier" 2 (1 # 4) world_polling).
Proof.
  repeat split; reflexivity.
Qed.

(** C10.  When a poll request is answered with status 200 and the answer
    omits [resource_url], the credential returned, cached and written to
    the file has [resource_url] equal to
    [https://dashscope.aliyuncs.com/compatible-mode]: the built-in API
    base without its [/v1].  This holds for an immediate grant, and for
    whichever request the poller returns from. *)
Theorem poll_for_token_default_resource_url
    (env : Env) (device_auth : DeviceAuth) (w : World) :
  (forall p fuel dt data access refresh type expires,
     pkce w = Some p ->
     (0 < inject_Z (expires_in device_auth))%Q ->
     token_endpoint env (token_posts w) = Replies dt (mkResponse 200 (Some data)) ->
     td_expires_in data = Some expires ->
     td_access_token data = Some access ->
     td_refresh_token data = Some refresh ->
     td_token_type data = Some type ->
     td_resource_url data = None ->
     exists creds w',
       _poll_for_token env (S fuel) device_auth w = (Returns creds, w')
       /\ resource_url creds = "https://dashscope.aliyuncs.com/compatible-mode"
       /\ oauth_creds w' = Some creds
       /\ creds_file w' = Some (Accepted creds))
  /\ (forall fuel creds w',
        _poll_for_token env fuel device_auth w = (Returns creds, w') ->
        exists dt data,
          token_endpoint env (pred (token_posts w'))
          = Replies dt (mkResponse 200 (Some data))
          /\ (td_resource_url data = None ->
              resource_url creds = "https://dashscope.aliyuncs.com/compatible-mode")
          /\ (forall url, td_resource_url data = Some url -> resource_url creds = url)
          /\ oauth_creds w' = Some creds
          /\ creds_file w' = Some (Accepted creds)).
Proof.
  split.
  - intros p fuel dt data access refresh type expires Hp Hl Hreply He Ha Hr Ht Hu.
    assert (G : Qltb (clock w - clock w) (inject_Z (expires_in device_auth)) = true)
      by (apply Qltb_lt; lra).
    eexists. eexists. split.
    + unfold _poll_for_token, bind, get_pkce, time_time, gets. rewrite Hp.
      cbn beta iota.
      exact (poll_loop_success env device_auth (code_verifier p) fuel (clock w) 2 dt w
               data access refresh type expires G Hreply He Ha Hr Ht).
    + cbn [resource_url]. rewrite Hu. repeat split.
  - intros fuel creds w' H.
    unfold _poll_for_token, bind, get_pkce, time_time, gets in H.
    destruct (pkce w) as [p |]; [| discriminate H].
    cbn beta iota in H.
    apply poll_loop_returns in H.
    destruct H as (dt & data & Hreply & _ & _ & _ & Hu & _ & Hc & Hf).
    exists dt, data. split; [exact Hreply |].
    split; [| split; [| split; assumption]].
    + intros Hn. rewrite Hu, Hn. reflexivity.
    + intros url Hs. rewrite Hu, Hs. reflexivity.
Qed.

Lemma poll_for_token_default_resource_url_witness :
  exists creds w',
    _poll_for_token env_approved_at_once 1 sample_device_auth world_polling
    = (Returns creds, w')
    /\ resource_url creds = "https://dashscope.aliyuncs.com/compatible-mode"
    /\ oauth_creds w' = Some creds
    /\ creds_file w' = Some (Accepted creds).
Proof.
  apply (proj1 (poll_for_token_default_resource_url env_approved_at_once
                  sample_device_auth world_polling)
           (mkPKCE "verifier" "challenge") 0%nat (1 # 4)
           (granted "access" "refresh" None) "access" "refresh" "Bearer" 3600%Z);
    reflexivity.
Defined.

(* ------------------------------------------------------------------ *)
(** ** Counting requests *)

Section Counting.

Variable p : Event -> bool.

Lemma keeps_ret {A} (a : A) : keeps p (ret a).
Proof. intros w. reflexivity. Qed.

Lemma keeps_raise {A} (e : PyExc) : keeps p (@raise A e).
Proof. intros w. reflexivity. Qed.

Lemma keeps_out_of_fuel {A} : keeps p (@out_of_fuel A).
Proof. intros w. reflexivity. Qed.

Lemma keeps_gets {A} (f : World -> A) : keeps p (gets f).
Proof. intros w. reflexivity. Qed.

Lemma keeps_set_creds (c : option OAuthCreds) : keeps p (set_creds c).
Proof. intros w. reflexivity. Qed.

Lemma keeps_set_pkce (k : PKCE) : keeps p (set_pkce k).
Proof. intros w. reflexivity. Qed.

Lemma keeps_write_file (f : option (Decoded OAuthCreds)) : keeps p (write_file f).
Proof. intros w. reflexivity. Qed.

Lemma count_emit (e : Event) (w : World) :
  count p (emit e w) = ((if p e then 1 else 0) + count p w)%nat.
Proof.
  unfold count. cbn [trace emit filter]. destruct (p e); reflexivity.
Qed.

Lemma count_elapse (d : Q) (w : World) : count p (elapse d w) = count p w.
Proof. reflexivity. Qed.

Lemma keeps_log (e : Event) : p e = false -> keeps p (log e).
Proof.
  intros H w. unfold log. cbn [snd]. rewrite count_emit, H. reflexivity.
Qed.

Lemma keeps_sleep (d : Q) : p (EvSleep d) = false -> keeps p (sleep d).
Proof.
  intros H w. unfold sleep. cbn [snd]. rewrite count_elapse, count_emit, H. reflexivity.
Qed.

Lemma keeps_post {B} (e : Event) (reply : HttpReply B) :
  p e = false -> keeps p (post e reply).
Proof.
  intros H w. unfold post.
  destruct reply; cbn [snd]; rewrite count_elapse, count_emit, H; reflexivity.
Qed.

Lemma keeps_bind {A B} (m : M A) (k : A -> M B) :
  keeps p m -> (forall a, keeps p (k a)) -> keeps p (bind m k).
Proof.
  intros Hm Hk w. unfold bind. specialize (Hm w).
  destruct (m w) as [[a | e |] w1]; cbn [snd] in *.
  - rewrite Hk. exact Hm.
  - exact Hm.
  - exact Hm.
Qed.

Lemma keeps_try_except {A} (m : M A) (handler : PyExc -> M A) :
  keeps p m -> (forall e, keeps p (handler e)) -> keeps p (try_except m handler).
Proof.
  intros Hm Hh w. unfold try_except. specialize (Hm w).
  destruct (m w) as [[a | e |] w1]; cbn [snd] in *.
  - exact Hm.
  - rewrite Hh. exact Hm.
  - exact Hm.
Qed.

Lemma keeps_adds {A} (m : M A) : keeps p m -> adds_at_most p 0 m.
Proof. intros H w. rewrite H. lia. Qed.

Lemma adds_weaken {A} (m : M A) (n n' : nat) :
  (n <= n')%nat -> adds_at_most p n m -> adds_at_most p n' m.
Proof. intros Hle H w. specialize (H w). lia. Qed.

Lemma adds_post {B} (e : Event) (reply : HttpReply B) : adds_at_most p 1 (post e reply).
Proof.
  intros w. unfold post.
  destruct reply; cbn [snd]; rewrite count_elapse, count_emit; destruct (p e); lia.
Qed.

Lemma adds_bind {A B} (m : M A) (k : A -> M B) (n1 n2 : nat) :
  adds_at_most p n1 m -> (forall a, adds_at_most p n2 (k a)) ->
  adds_at_most p (n1 + n2) (bind m k).
Proof.
  intros Hm Hk w. unfold bind. specialize (Hm w).
  destruct (m w) as [[a | e |] w1]; cbn [snd] in *.
  - specialize (Hk a w1). lia.
  - lia.
  - lia.
Qed.

Lemma adds_try_except {A} (m : M A) (handler : PyExc -> M A) (n1 n2 : nat) :
  adds_at_most p n1 m -> (forall e, adds_at_most p n2 (handler e)) ->
  adds_at_most p (n1 + n2) (try_except m handler).
Proof.
  intros Hm Hh w. unfold try_except. specialize (Hm w).
  destruct (m w) as [[a | e |] w1]; cbn [snd] in *.
  - lia.
  - specialize (Hh e w1). lia.
  - lia.
Qed.

End Counting.

Lemma adds_bind_keeps (p : Event -> bool) {A B} (m : M A) (k : A -> M B) (n : nat) :
  keeps p m -> (forall a, adds_at_most p n (k a)) -> adds_at_most p n (bind m k).
Proof.
  intros Hm Hk. apply (adds_weaken p _ (0 + n)); [lia |].
  apply adds_bind; [apply keeps_adds, Hm | exact Hk].
Qed.

Lemma adds_bind_then_keeps (p : Event -> bool) {A B} (m : M A) (k : A -> M B) (n : nat) :
  adds_at_most p n m -> (forall a, keeps p (k a)) -> adds_at_most p n (bind m k).
Proof.
  intros Hm Hk. apply (adds_weaken p _ (n + 0)); [lia |].
  apply adds_bind; [exact Hm | intros a; apply keeps_adds, Hk].
Qed.

Ltac unfold_primitives :=
  unfold creds_of_token_data, _save_oauth_creds, creds_attr, post_chat,
    getitem, response_json, raise_for_status, get_creds, get_pkce, read_file, time_time.

(** Decomposes a goal [keeps p m] along the structure of [m]. *)
Ltac keeps_step :=
  first
    [ apply keeps_ret | apply keeps_raise | apply keeps_out_of_fuel | apply keeps_gets
    | apply keeps_set_creds | apply keeps_set_pkce | apply keeps_write_file
    | apply keeps_log; reflexivity
    | apply keeps_sleep; reflexivity
    | apply keeps_post; reflexivity
    | apply keeps_bind; [| intros ?]
    | apply keeps_try_except; [| intros ?]
    | match goal with
      | |- keeps _ (match ?x with _ => _ end) => destruct x
      end ].

Ltac keeps_tac := unfold_primitives; repeat keeps_step.

Section MethodCounts.

Variable env : Env.

Lemma keeps_poll_loop (p : Event -> bool) :
  (forall d, p (EvSleep d) = false) ->
  (forall code verifier, p (EvTokenPost (DeviceCodeGrant code verifier)) = false) ->
  forall fuel device_auth verifier start_time poll_interval,
    keeps p (poll_loop env fuel device_auth verifier start_time poll_interval).
Proof.
  intros Hs Ht fuel device_auth verifier start_time.
  induction fuel as [| fuel IH]; intros poll_interval; cbn [poll_loop].
  - apply keeps_out_of_fuel.
  - unfold_primitives.
    apply keeps_bind; [apply keeps_gets | intros now].
    destruct (Qltb _ _); [| apply keeps_raise].
    apply keeps_bind; [apply keeps_sleep, Hs | intros _].
    apply keeps_bind; [apply keeps_gets | intros n].
    apply keeps_bind; [apply keeps_post, Ht | intros response].
    apply keeps_bind; [destruct (body response); keeps_tac | intros data].
    destruct (status_code response =? 200)%Z; [keeps_tac |].
    destruct (option_eqb _ _); [apply IH |].
    destruct (option_eqb _ _); [apply IH | apply keeps_raise].
Qed.

Lemma keeps_poll_for_token (p : Event -> bool) (fuel : nat) (device_auth : DeviceAuth) :
  (forall d, p (EvSleep d) = false) ->
  (forall code verifier, p (EvTokenPost (DeviceCodeGrant code verifier)) = false) ->
  keeps p (_poll_for_token env fuel device_auth).
Proof.
  intros Hs Ht. unfold _poll_for_token.
  apply keeps_bind; [apply keeps_gets | intros [k |]]; [| apply keeps_raise].
  apply keeps_bind; [apply keeps_gets | intros start_time].
  apply keeps_poll_loop; assumption.
Qed.

Lemma keeps_perform_device_auth (p : Event -> bool) :
  (forall challenge, p (EvDevicePost challenge) = false) ->
  keeps p (_perform_device_auth env).
Proof.
  intros Hd. unfold _perform_device_auth.
  apply keeps_bind; [apply keeps_gets | intros n].
  apply keeps_bind; [apply keeps_set_pkce | intros _].
  apply keeps_bind; [apply keeps_post, Hd | intros response].
  keeps_tac.
Qed.

Lemma adds_perform_device_auth (p : Event -> bool) :
  adds_at_most p 1 (_perform_device_auth env).
Proof.
  unfold _perform_device_auth.
  apply adds_bind_keeps; [apply keeps_gets | intros n].
  apply adds_bind_keeps; [apply keeps_set_pkce | intros _].
  apply adds_bind_then_keeps; [apply adds_post | intros response].
  keeps_tac.
Qed.

Lemma keeps_after_device_auth (p : Event -> bool) (fuel : nat) (device_auth : DeviceAuth) :
  silent_on_authentication p ->
  keeps p
    (log (EvPrint ("Please visit the following URL to authorize the application:"
                   ++ PyStr.nl ++ verification_uri_complete device_auth)) ;;
     (if browser_opens env (verification_uri_complete device_auth)
      then log (EvBrowser (verification_uri_complete device_auth))
      else log (EvPrint "Could not open browser automatically.")) ;;
     _poll_for_token env fuel device_auth ;;
     ret tt)%py.
Proof.
  intros (Hs & Ht & Hp & Hb).
  apply keeps_bind; [apply keeps_log, Hp | intros _].
  apply keeps_bind; [destruct (browser_opens _ _); apply keeps_log; auto | intros _].
  apply keeps_bind; [apply keeps_poll_for_token; assumption | intros _].
  apply keeps_ret.
Qed.

Lemma keeps_authenticate (p : Event -> bool) (fuel : nat) :
  silent_on_authentication p ->
  (forall challenge, p (EvDevicePost challenge) = false) ->
  keeps p (_authenticate env fuel).
Proof.
  intros Hp Hd. unfold _authenticate.
  apply keeps_bind; [apply keeps_perform_device_auth, Hd | intros device_auth].
  apply keeps_after_device_auth, Hp.
Qed.

Lemma adds_authenticate (p : Event -> bool) (fuel : nat) :
  silent_on_authentication p ->
  adds_at_most p 1 (_authenticate env fuel).
Proof.
  intros Hp. unfold _authenticate.
  apply adds_bind_then_keeps; [apply adds_perform_device_auth | intros device_auth].
  apply keeps_after_device_auth, Hp.
Qed.

Lemma keeps_refresh_token (p : Event -> bool) :
  (forall token, p (EvTokenPost (RefreshGrant token)) = false) ->
  keeps p (_refresh_token env).
Proof.
  intros Hr. unfold _refresh_token.
  apply keeps_bind; [apply keeps_gets | intros [old |]]; [| apply keeps_raise].
  apply keeps_bind; [apply keeps_gets | intros n].
  apply keeps_bind; [apply keeps_post, Hr | intros response].
  keeps_tac.
Qed.

Lemma adds_refresh_token (p : Event -> bool) : adds_at_most p 1 (_refresh_token env).
Proof.
  unfold _refresh_token.
  apply adds_bind_keeps; [apply keeps_gets | intros [old |]];
    [| apply (adds_weaken p _ 0); [lia | apply keeps_adds, keeps_raise]].
  apply adds_bind_keeps; [apply keeps_gets | intros n].
  apply adds_bind_then_keeps; [apply adds_post | intros response].
  keeps_tac.
Qed.

End MethodCounts.

(* ------------------------------------------------------------------ *)
(** ** The dispatcher *)

Lemma silent_chat : silent_on_authentication is_chat_post.
Proof. repeat split. Qed.

Lemma silent_refresh : silent_on_authentication is_refresh_post.
Proof. repeat split. Qed.

Lemma silent_device : silent_on_authentication is_device_post.
Proof. repeat split. Qed.

Lemma return_response_world (stream : bool) (r : Response ChatBody) (w : World) :
  snd (return_response stream r w) = w.
Proof.
  unfold return_response, raise_for_status, bind.
  destruct (is_error_status (status_code r)); [reflexivity |].
  cbn. destruct stream; [reflexivity |].
  destruct (cb_json (body r)); reflexivity.
Qed.

Lemma return_response_error (stream : bool) (r : Response ChatBody) (w : World) :
  is_error_status (status_code r) = true ->
  return_response stream r w = (Raises (UpstreamHTTPError (status_code r)), w).
Proof.
  intros H. unfold return_response, raise_for_status, bind. rewrite H. reflexivity.
Qed.

Lemma return_response_json (r : Response ChatBody) (json : string) (w : World) :
  is_error_status (status_code r) = false ->
  cb_json (body r) = Some json ->
  return_response false r w = (Returns (ParsedBody json), w).
Proof.
  intros H Hj. unfold return_response, raise_for_status, bind. rewrite H. cbn.
  rewrite Hj. reflexivity.
Qed.

(** A refresh that returns has posted once, was answered with status 200,
    and has cached and written the credential built from the answer. *)
Lemma refresh_token_returns (env : Env) (w w2 : World) :
  _refresh_token env w = (Returns tt, w2) ->
  exists old dt data creds,
    oauth_creds w = Some old
    /\ token_endpoint env (token_posts w) = Replies dt (mkResponse 200 (Some data))
    /\ td_access_token data = Some (access_token creds)
    /\ refresh_token creds = get_default (td_refresh_token data) (refresh_token old)
    /\ resource_url creds = get_default (td_resource_url data) (resource_url old)
    /\ w2 = saved creds (elapse dt (emit (EvTokenPost (RefreshGrant (refresh_token old))) w)).
Proof.
  intros H. unfold _refresh_token, get_creds, gets, bind, post in H.
  destruct (oauth_creds w) as [old |] eqn:Hc; [| discriminate H].
  destruct (token_endpoint env (token_posts w)) as [dt e | dt [status payload]] eqn:Hr;
    [discriminate H |].
  cbn [status_code] in H.
  destruct (status =? 200)%Z eqn:Hs; [| discriminate H].
  apply Z.eqb_eq in Hs. subst status.
  cbn [negb] in H. unfold response_json in H. cbn [body] in H.
  destruct payload as [data |]; [| discriminate H].
  unfold ret at 1 in H.
  unfold creds_of_token_data, bind, time_time, gets, getitem in H.
  destruct (td_expires_in data) as [expires |]; [| discriminate H].
  destruct (td_access_token data) as [access |] eqn:Ha; [| discriminate H].
  destruct (td_token_type data) as [type |]; [| discriminate H].
  cbn in H. injection H as <-.
  exists old, dt, data,
    (mkOAuthCreds access (get_default (td_refresh_token data) (refresh_token old)) type
       (get_default (td_resource_url data) (resource_url old))
       (int_of_time (clock w + dt) + expires)).
  rewrite Ha. repeat split.
Qed.

Lemma bind_returns_inv {A B} (m : M A) (k : A -> M B) (w w' : World) (b : B) :
  bind m k w = (Returns b, w') ->
  exists a w1, m w = (Returns a, w1) /\ k a w1 = (Returns b, w').
Proof.
  unfold bind. intros H.
  destruct (m w) as [[a | e |] w1]; try discriminate H.
  exists a, w1. split; [reflexivity | exact H].
Qed.

(** An authorization that returns leaves a credential cached. *)
Lemma authenticate_caches (env : Env) (fuel : nat) (w w' : World) :
  _authenticate env fuel w = (Returns tt, w') ->
  exists creds, oauth_creds w' = Some creds.
Proof.
  unfold _authenticate. intros H.
  apply bind_returns_inv in H. destruct H as (device_auth & w1 & _ & H).
  apply bind_returns_inv in H. destruct H as (_ & w2 & _ & H).
  apply bind_returns_inv in H. destruct H as (_ & w3 & _ & H).
  apply bind_returns_inv in H. destruct H as (creds & w4 & H & Hret).
  injection Hret as <-.
  unfold _poll_for_token, bind, get_pkce, time_time, gets in H.
  destruct (pkce w3); [| discriminate H].
  apply poll_loop_returns in H.
  destruct H as (_ & _ & _ & _ & _ & _ & _ & _ & Hc & _).
  exists creds. exact Hc.
Qed.

(** Once [_ensure_valid_token] has returned, a credential is cached, and
    no chat request has been made. *)
Lemma ensure_valid_token_caches (env : Env) (fuel : nat) (w w0 : World) :
  _ensure_valid_token env fuel w = (Returns tt, w0) ->
  (exists creds, oauth_creds w0 = Some creds) /\ chat_posts w0 = chat_posts w.
Proof.
  intros H. split.
  - unfold _ensure_valid_token, _is_token_expired, get_creds, time_time, gets in H.
    unfold bind at 1 2 3 in H. unfold ret at 1 in H. cbn beta iota in H.
    destruct (is_token_expired (oauth_creds w) (clock w)) eqn:Hexp.
    + unfold bind at 1 in H. cbn beta iota in H.
      destruct (oauth_creds w) as [old |] eqn:Hold;
        [destruct (PyStr.truthy (refresh_token old)) |].
      * unfold try_except in H.
        destruct (_refresh_token env w) as [[[] | e |] w1] eqn:Hr.
        -- injection H as <-.
           destruct (refresh_token_returns env _ _ Hr)
             as (old' & dt & data & creds & _ & _ & _ & _ & _ & ->).
           exists creds. reflexivity.
        -- apply authenticate_caches in H. exact H.
        -- discriminate H.
      * apply authenticate_caches in H. exact H.
      * apply authenticate_caches in H. exact H.
    + injection H as <-.
      destruct (oauth_creds w) as [creds |]; [exists creds; reflexivity | discriminate Hexp].
  - assert (K : keeps is_chat_post (_ensure_valid_token env fuel)).
    { unfold _ensure_valid_token, _is_token_expired.
      apply keeps_bind; [keeps_tac | intros expired].
      destruct expired; [| apply keeps_ret].
      apply keeps_bind; [keeps_tac | intros current].
      destruct (match current with
                | Some creds => PyStr.truthy (refresh_token creds)
                | None => false
                end).
      - apply keeps_try_except; [apply keeps_refresh_token; reflexivity | intros _].
        apply keeps_authenticate; [apply silent_chat | reflexivity].
      - apply keeps_authenticate; [apply silent_chat | reflexivity]. }
    specialize (K w). rewrite H in K. exact K.
Qed.

Section Dispatch.

Variable env : Env.
Variable _model : string.
Variable fuel : nat.
Variable api_url : string.
Variable payload : Payload.
Variable stream : bool.

Lemma keeps_chat_refresh : keeps is_chat_post (_refresh_token env).
Proof. apply keeps_refresh_token. reflexivity. Qed.

Lemma keeps_device_refresh : keeps is_device_post (_refresh_token env).
Proof. apply keeps_refresh_token. reflexivity. Qed.

Lemma adds_post_chat (p : Event -> bool) (authorization : string) :
  adds_at_most p 1 (post_chat env api_url authorization payload stream).
Proof.
  unfold post_chat. apply adds_bind_keeps; [apply keeps_gets | intros n].
  apply adds_post.
Qed.

Lemma keeps_post_chat (p : Event -> bool) (authorization : string) :
  (forall url auth body flag, p (EvChatPost url auth body flag) = false) ->
  keeps p (post_chat env api_url authorization payload stream).
Proof.
  intros H. unfold post_chat. apply keeps_bind; [apply keeps_gets | intros n].
  apply keeps_post, H.
Qed.

Lemma keeps_creds_attr (p : Event -> bool) {A} (field : OAuthCreds -> A) (name : string) :
  keeps p (creds_attr field name).
Proof. keeps_tac. Qed.

Lemma adds_resend_chat (r : Response ChatBody) :
  adds_at_most is_chat_post 2 (resend_after_rejection env fuel api_url payload stream r).
Proof.
  unfold resend_after_rejection.
  destruct (retry_status (status_code r));
    [| apply (adds_weaken _ _ 0); [lia | apply keeps_adds, keeps_ret]].
  apply (adds_try_except _ _ _ 1 1).
  - apply adds_bind_keeps; [apply keeps_chat_refresh | intros _].
    apply adds_bind_keeps; [apply keeps_creds_attr | intros token].
    apply adds_post_chat.
  - intros _.
    apply adds_bind_keeps;
      [apply keeps_authenticate; [apply silent_chat | reflexivity] | intros _].
    apply adds_bind_keeps; [apply keeps_creds_attr | intros token].
    apply adds_post_chat.
Qed.

Lemma adds_resend_refresh (r : Response ChatBody) :
  adds_at_most is_refresh_post 1 (resend_after_rejection env fuel api_url payload stream r).
Proof.
  unfold resend_after_rejection.
  destruct (retry_status (status_code r));
    [| apply (adds_weaken _ _ 0); [lia | apply keeps_adds, keeps_ret]].
  apply (adds_try_except _ _ _ 1 0).
  - apply adds_bind_then_keeps; [apply adds_refresh_token | intros _].
    apply keeps_bind; [apply keeps_creds_attr | intros token].
    apply keeps_post_chat. reflexivity.
  - intros _. apply keeps_adds.
    apply keeps_bind;
      [apply keeps_authenticate; [apply silent_refresh | reflexivity] | intros _].
    apply keeps_bind; [apply keeps_creds_attr | intros token].
    apply keeps_post_chat. reflexivity.
Qed.

Lemma adds_resend_device (r : Response ChatBody) :
  adds_at_most is_device_post 1 (resend_after_rejection env fuel api_url payload stream r).
Proof.
  unfold resend_after_rejection.
  destruct (retry_status (status_code r));
    [| apply (adds_weaken _ _ 0); [lia | apply keeps_adds, keeps_ret]].
  apply (adds_try_except _ _ _ 0 1).
  - apply keeps_adds.
    apply keeps_bind; [apply keeps_device_refresh | intros _].
    apply keeps_bind; [apply keeps_creds_attr | intros token].
    apply keeps_post_chat. reflexivity.
  - intros _.
    apply adds_bind_then_keeps; [apply adds_authenticate, silent_device | intros _].
    apply keeps_bind; [apply keeps_creds_attr | intros token].
    apply keeps_post_chat. reflexivity.
Qed.

(** The retry when the refresh returns and the resend is answered. *)
Lemma resend_refreshed (r r2 : Response ChatBody) (w1 w2 : World) (c2 : OAuthCreds)
    (dt2 : Q) :
  retry_status (status_code r) = true ->
  _refresh_token env w1 = (Returns tt, w2) ->
  oauth_creds w2 = Some c2 ->
  chat_endpoint env (chat_posts w2) = Replies dt2 r2 ->
  resend_after_rejection env fuel api_url payload stream r w1
  = (Returns r2,
     elapse dt2 (emit (EvChatPost api_url ("Bearer " ++ access_token c2) payload stream) w2)).
Proof.
  intros Hretry Hrefresh Hc Hreply.
  unfold resend_after_rejection. rewrite Hretry.
  unfold try_except, bind. rewrite Hrefresh.
  unfold creds_attr, get_creds, gets, bind. rewrite Hc.
  unfold ret at 1. unfold post_chat, bind, gets. rewrite Hreply.
  reflexivity.
Qed.

(** The retry when the [try] raises in [wh], the authorization that
    follows returns, and its resend is answered. *)
Lemma resend_reauthorized (r r3 : Response ChatBody) (w1 wh w4 : World) (e : PyExc)
    (c4 : OAuthCreds) (dt3 : Q) :
  retry_status (status_code r) = true ->
  (_refresh_token env ;;
   token <- creds_attr access_token "access_token" ;;
   post_chat env api_url ("Bearer " ++ token) payload stream)%py w1 = (Raises e, wh) ->
  _authenticate env fuel wh = (Returns tt, w4) ->
  oauth_creds w4 = Some c4 ->
  chat_endpoint env (chat_posts w4) = Replies dt3 r3 ->
  resend_after_rejection env fuel api_url payload stream r w1
  = (Returns r3,
     elapse dt3 (emit (EvChatPost api_url ("Bearer " ++ access_token c4) payload stream) w4)).
Proof.
  intros Hretry Htry Hauth Hc Hreply.
  unfold resend_after_rejection. rewrite Hretry.
  unfold try_except. rewrite Htry.
  unfold bind at 1. rewrite Hauth.
  unfold creds_attr, get_creds, gets, bind. rewrite Hc.
  unfold ret at 1. unfold post_chat, bind, gets. rewrite Hreply.
  reflexivity.
Qed.

End Dispatch.

Lemma bind_returns {A B} (m : M A) (k : A -> M B) (w w' : World) (a : A) :
  m w = (Returns a, w') -> bind m k w = k a w'.
Proof. intros H. unfold bind. rewrite H. reflexivity. Qed.

Lemma bind_raises {A B} (m : M A) (k : A -> M B) (w w' : World) (e : PyExc) :
  m w = (Raises e, w') -> bind m k w = (Raises e, w').
Proof. intros H. unfold bind. rewrite H. reflexivity. Qed.

Lemma bind_out_of_fuel {A B} (m : M A) (k : A -> M B) (w w' : World) :
  m w = (OutOfFuel, w') -> bind m k w = (OutOfFuel, w').
Proof. intros H. unfold bind. rewrite H. reflexivity. Qed.

Lemma creds_attr_run {A} (field : OAuthCreds -> A) (name : string) (w : World)
    (creds : OAuthCreds) :
  oauth_creds w = Some creds -> creds_attr field name w = (Returns (field creds), w).
Proof. intros H. unfold creds_attr, get_creds, gets, bind. rewrite H. reflexivity. Qed.

Lemma post_chat_answered (env : Env) (api_url authorization : string) (payload : Payload)
    (stream : bool) (w : World) (dt : Q) (r : Response ChatBody) :
  chat_endpoint env (chat_posts w) = Replies dt r ->
  post_chat env api_url authorization payload stream w
  = (Returns r, elapse dt (emit (EvChatPost api_url authorization payload stream) w)).
Proof. intros H. unfold post_chat, bind, gets, post. rewrite H. reflexivity. Qed.

Lemma post_chat_failed (env : Env) (api_url authorization : string) (payload : Payload)
    (stream : bool) (w : World) (dt : Q) (e : PyExc) :
  chat_endpoint env (chat_posts w) = Fails dt e ->
  post_chat env api_url authorization payload stream w
  = (Raises e, elapse dt (emit (EvChatPost api_url authorization payload stream) w)).
Proof. intros H. unfold post_chat, bind, gets, post. rewrite H. reflexivity. Qed.

Section MakeRequest.

Variable env : Env.
Variable _model : string.
Variable fuel : nat.
Variable request_data : RequestData.
Variables w w0 : World.
Variable creds : OAuthCreds.

Hypothesis ensured : _ensure_valid_token env fuel w = (Returns tt, w0).
Hypothesis cached : oauth_creds w0 = Some creds.

Let api_url := chat_completions_url (resource_url creds).
Let payload := mkPayload (get_default (rd_model request_data) _model)
                         (rd_stream request_data) (rd_rest request_data).
Let stream := get_default (rd_stream request_data) false.
Let chat_post (c : OAuthCreds) :=
  EvChatPost api_url ("Bearer " ++ access_token c) payload stream.
Let rejected (dt : Q) := elapse dt (emit (chat_post creds) w0).

(** [make_request] up to its first post. *)
Lemma make_request_first_post :
  make_request env _model fuel request_data w
  = match chat_endpoint env (chat_posts w0) with
    | Fails dt e => (Raises e, rejected dt)
    | Replies dt r =>
        (response <- resend_after_rejection env fuel api_url payload stream r ;;
         return_response stream response)%py (rejected dt)
    end.
Proof.
  unfold make_request.
  rewrite (bind_returns _ _ _ _ _ ensured).
  rewrite (bind_returns _ _ _ _ _ (creds_attr_run resource_url _ _ _ cached)).
  cbv zeta.
  rewrite (bind_returns _ _ _ _ _ (creds_attr_run access_token _ _ _ cached)).
  destruct (chat_endpoint env (chat_posts w0)) as [dt e | dt r] eqn:Hfirst.
  - rewrite (bind_raises _ _ _ _ _ (post_chat_failed _ _ _ _ _ _ _ _ Hfirst)).
    reflexivity.
  - rewrite (bind_returns _ _ _ _ _ (post_chat_answered _ _ _ _ _ _ _ _ Hfirst)).
    reflexivity.
Qed.

Lemma make_request_budget (p : Event -> bool) (n : nat) :
  (forall r, adds_at_most p n (resend_after_rejection env fuel api_url payload stream r)) ->
  (count p (snd (make_request env _model fuel request_data w))
   <= count p w0 + (if p (chat_post creds) then 1 else 0) + n)%nat.
Proof.
  intros Hresend. rewrite make_request_first_post.
  destruct (chat_endpoint env (chat_posts w0)) as [dt e | dt r].
  - cbn [snd]. unfold rejected. rewrite count_elapse, count_emit. lia.
  - unfold bind. specialize (Hresend r (rejected dt)).
    destruct (resend_after_rejection env fuel api_url payload stream r (rejected dt))
      as [[r' | e |] w'] eqn:Hr; cbn [snd] in *;
      try rewrite return_response_world;
      unfold rejected in Hresend; rewrite count_elapse, count_emit in Hresend; lia.
Qed.

End MakeRequest.

(** C1, amended.  Let [w0] be the world once the credential has been
    ensured, [creds] the credential cached there.  The first post uses the
    URL and bearer token of [creds].
    - Budget: whatever the endpoints answer, the dispatch makes at most
      three chat posts (the first and two resends), one refresh and one
      re-authorization.
    - A first post that fails, or is answered with a status outside 400,
      401 and 403, is not retried.
    - On 400, 401 or 403 the token is refreshed once; when the refresh
      returns and the resend is answered, that answer is final and no
      re-authorization happens.
    - A re-authorization happens only if the refresh raised or the resend
      after it raised; in both cases, when it returns, one more resend is
      made with the new token and its answer is final.
    - A final answer with a 4xx or 5xx status fails with
      [UpstreamHTTPError].
    - 401, then a granted refresh, then 200 on the resend of a
      non-streaming request: the parsed body of the second answer is
      returned after exactly one refresh and one resend. *)
Theorem make_request_retry_policy
    (env : Env) (_model : string) (fuel : nat) (request_data : RequestData)
    (w w0 : World) (creds : OAuthCreds) :
  _ensure_valid_token env fuel w = (Returns tt, w0) ->
  oauth_creds w0 = Some creds ->
  let api_url := chat_completions_url (resource_url creds) in
  let payload := mkPayload (get_default (rd_model request_data) _model)
                           (rd_stream request_data) (rd_rest request_data) in
  let stream := get_default (rd_stream request_data) false in
  let chat_post token := EvChatPost api_url ("Bearer " ++ token) payload stream in
  let run := make_request env _model fuel request_data w in
  let first := chat_endpoint env (chat_posts w0) in
  let second := chat_endpoint env (1 + chat_posts w0)%nat in
  let third := chat_endpoint env (2 + chat_posts w0)%nat in
  let rejected dt := elapse dt (emit (chat_post (access_token creds)) w0) in
  ((chat_posts (snd run) <= chat_posts w + 3)%nat
   /\ (refreshes (snd run) <= refreshes w0 + 1)%nat
   /\ (authorizations (snd run) <= authorizations w0 + 1)%nat)
  /\ (forall dt e, first = Fails dt e -> run = (Raises e, rejected dt))
  /\ (forall dt r,
        first = Replies dt r -> retry_status (status_code r) = false ->
        run = return_response stream r (rejected dt))
  /\ (forall dt r w2 dt2 r2,
        first = Replies dt r -> retry_status (status_code r) = true ->
        _refresh_token env (rejected dt) = (Returns tt, w2) ->
        second = Replies dt2 r2 ->
        exists c2,
          oauth_creds w2 = Some c2
          /\ run = return_response stream r2
                     (elapse dt2 (emit (chat_post (access_token c2)) w2))
          /\ refreshes (snd run) = (1 + refreshes w0)%nat
          /\ chat_posts (snd run) = (2 + chat_posts w0)%nat
          /\ authorizations (snd run) = authorizations w0)
  /\ (authorizations (snd run) <> authorizations w0 ->
      exists dt r,
        first = Replies dt r /\ retry_status (status_code r) = true
        /\ ((exists e w2, _refresh_token env (rejected dt) = (Raises e, w2))
            \/ (exists w2 dt2 e, _refresh_token env (rejected dt) = (Returns tt, w2)
                                 /\ second = Fails dt2 e)))
  /\ (forall dt r e w2 w4 c4 dt3 r3,
        first = Replies dt r -> retry_status (status_code r) = true ->
        _refresh_token env (rejected dt) = (Raises e, w2) ->
        _authenticate env fuel w2 = (Returns tt, w4) ->
        oauth_creds w4 = Some c4 ->
        second = Replies dt3 r3 ->
        run = return_response stream r3
                (elapse dt3 (emit (chat_post (access_token c4)) w4)))
  /\ (forall dt r w2 c2 dt2 e w4 c4 dt3 r3,
        first = Replies dt r -> retry_status (status_code r) = true ->
        _refresh_token env (rejected dt) = (Returns tt, w2) ->
        oauth_creds w2 = Some c2 ->
        second = Fails dt2 e ->
        _authenticate env fuel (elapse dt2 (emit (chat_post (access_token c2)) w2))
        = (Returns tt, w4) ->
        oauth_creds w4 = Some c4 ->
        third = Replies dt3 r3 ->
        run = return_response stream r3
                (elapse dt3 (emit (chat_post (access_token c4)) w4)))
  /\ (forall r w', is_error_status (status_code r) = true ->
        return_response stream r w' = (Raises (UpstreamHTTPError (status_code r)), w'))
  /\ (forall dt r dtk data expires access type dt2 r2 json,
        first = Replies dt r -> status_code r = 401%Z ->
        token_endpoint env (token_posts w0) = Replies dtk (mkResponse 200 (Some data)) ->
        td_expires_in data = Some expires ->
        td_access_token data = Some access ->
        td_token_type data = Some type ->
        second = Replies dt2 r2 -> status_code r2 = 200%Z ->
        cb_json (body r2) = Some json ->
        stream = false ->
        exists w',
          run = (Returns (ParsedBody json), w')
          /\ trace w' = chat_post access
                          :: EvTokenPost (RefreshGrant (refresh_token creds))
                          :: chat_post (access_token creds) :: trace w0
          /\ refreshes w' = (1 + refreshes w0)%nat
          /\ chat_posts w' = (2 + chat_posts w0)%nat
          /\ authorizations w' = authorizations w0).
Proof.
  intros ensured cached api_url payload stream chat_post run first second third rejected.
  pose proof (make_request_first_post env _model fuel request_data w w0 creds
                ensured cached) as Hrun.
  fold api_url payload stream in Hrun.
  change (make_request env _model fuel request_data w) with run in Hrun.
  change (chat_endpoint env (chat_posts w0)) with first in Hrun.
  assert (Hrej : forall dt, count is_chat_post (rejected dt) = S (chat_posts w0))
    by reflexivity.
  assert (Hsecond : forall dt w2, _refresh_token env (rejected dt) = (Returns tt, w2) ->
                                  chat_endpoint env (chat_posts w2) = second).
  { intros dt w2 H. unfold chat_posts at 1.
    pose proof (keeps_chat_refresh env (rejected dt)) as K. rewrite H in K.
    cbn [snd] in K. rewrite K, Hrej. reflexivity. }
  split; [| split; [| split; [| split; [| split; [| split; [| split; [| split]]]]]]].
  - (* budget *)
    split; [| split].
    + pose proof (make_request_budget env _model fuel request_data w w0 creds
                    ensured cached is_chat_post 2
                    (fun r => adds_resend_chat env fuel _ _ _ r)) as B.
      cbn [is_chat_post] in B.
      rewrite <- (proj2 (ensure_valid_token_caches env fuel w w0 ensured)).
      unfold chat_posts, run. lia.
    + pose proof (make_request_budget env _model fuel request_data w w0 creds
                    ensured cached is_refresh_post 1
                    (fun r => adds_resend_refresh env fuel _ _ _ r)) as B.
      cbn [is_refresh_post] in B. unfold refreshes, run. lia.
    + pose proof (make_request_budget env _model fuel request_data w w0 creds
                    ensured cached is_device_post 1
                    (fun r => adds_resend_device env fuel _ _ _ r)) as B.
      cbn [is_device_post] in B. unfold authorizations, run. lia.
  - (* the first post fails *)
    intros dt e Hfirst. rewrite Hrun, Hfirst. reflexivity.
  - (* no retry *)
    intros dt r Hfirst Hretry. rewrite Hrun, Hfirst.
    unfold bind, resend_after_rejection. rewrite Hretry. reflexivity.
  - (* refreshed *)
    intros dt r w2 dt2 r2 Hfirst Hretry Hrefresh Hsec.
    destruct (refresh_token_returns env _ _ Hrefresh)
      as (old & dtk & data & c2 & _ & _ & _ & _ & _ & Hw2).
    assert (Hc2 : oauth_creds w2 = Some c2) by (rewrite Hw2; reflexivity).
    exists c2. split; [exact Hc2 |].
    assert (E : run = return_response stream r2
                        (elapse dt2 (emit (chat_post (access_token c2)) w2))).
    { rewrite Hrun, Hfirst.
      apply bind_returns.
      apply (resend_refreshed env fuel api_url payload stream r r2 _ w2 c2 dt2
               Hretry Hrefresh Hc2).
      rewrite (Hsecond dt w2 Hrefresh). exact Hsec. }
    split; [exact E |].
    rewrite E, return_response_world, Hw2. repeat split.
  - (* re-authorization only after a raise *)
    intros Hne.
    destruct first as [dt e | dt r] eqn:Hfirst.
    { exfalso. apply Hne. rewrite Hrun. reflexivity. }
    exists dt, r. split; [reflexivity |].
    destruct (retry_status (status_code r)) eqn:Hretry.
    2:{ exfalso. apply Hne. rewrite Hrun.
        unfold bind, resend_after_rejection. rewrite Hretry.
        unfold ret. rewrite return_response_world. reflexivity. }
    split; [reflexivity |].
    destruct (_refresh_token env (rejected dt)) as [[[] | e |] w2] eqn:Hrefresh.
    + destruct second as [dt2 e | dt2 r2] eqn:Hsec.
      * right. exists w2, dt2, e. split; reflexivity.
      * exfalso. apply Hne.
        destruct (refresh_token_returns env _ _ Hrefresh)
          as (old & dtk & data & c2 & _ & _ & _ & _ & _ & Hw2).
        assert (Hc2 : oauth_creds w2 = Some c2) by (rewrite Hw2; reflexivity).
        rewrite Hrun.
        erewrite bind_returns.
        2:{ apply (resend_refreshed env fuel api_url payload stream r r2 _ w2 c2 dt2
                     Hretry Hrefresh Hc2).
            rewrite (Hsecond dt w2 Hrefresh). reflexivity. }
        rewrite return_response_world, Hw2. reflexivity.
    + left. exists e, w2. reflexivity.
    + exfalso. apply Hne. rewrite Hrun.
      unfold bind at 1. unfold resend_after_rejection. rewrite Hretry.
      unfold try_except. rewrite (bind_out_of_fuel _ _ _ _ Hrefresh). cbn [snd].
      pose proof (keeps_device_refresh env (rejected dt)) as K.
      rewrite Hrefresh in K. cbn [snd] in K. unfold authorizations. rewrite K.
      reflexivity.
  - (* re-authorized *)
    intros dt r e w2 w4 c4 dt3 r3 Hfirst Hretry Hrefresh Hauth Hc4 Hsec.
    rewrite Hrun, Hfirst.
    apply bind_returns.
    apply (resend_reauthorized env fuel api_url payload stream r r3 _ w2 w4 e c4 dt3
             Hretry).
    + apply bind_raises. exact Hrefresh.
    + exact Hauth.
    + exact Hc4.
    + pose proof (keeps_authenticate env is_chat_post fuel silent_chat
                    (fun _ => eq_refl) w2) as K1.
      pose proof (keeps_chat_refresh env (rejected dt)) as K2.
      rewrite Hauth in K1. rewrite Hrefresh in K2. cbn [snd] in K1, K2.
      unfold chat_posts at 1. rewrite K1, K2, Hrej. exact Hsec.
  - (* re-authorized after a failed resend *)
    intros dt r w2 c2 dt2 e w4 c4 dt3 r3 Hfirst Hretry Hrefresh Hc2 Hsec Hauth Hc4 Hthird.
    rewrite Hrun, Hfirst.
    apply bind_returns.
    apply (resend_reauthorized env fuel api_url payload stream r r3 _
             (elapse dt2 (emit (chat_post (access_token c2)) w2)) w4 e c4 dt3 Hretry).
    + rewrite (bind_returns _ _ _ _ _ Hrefresh).
      rewrite (bind_returns _ _ _ _ _ (creds_attr_run access_token _ _ _ Hc2)).
      apply post_chat_failed. rewrite (Hsecond dt w2 Hrefresh). exact Hsec.
    + exact Hauth.
    + exact Hc4.
    + pose proof (keeps_authenticate env is_chat_post fuel silent_chat
                    (fun _ => eq_refl)
                    (elapse dt2 (emit (chat_post (access_token c2)) w2))) as K1.
      pose proof (keeps_chat_refresh env (rejected dt)) as K2.
      rewrite Hauth in K1. rewrite Hrefresh in K2. cbn [snd] in K1, K2.
      unfold chat_posts at 1. rewrite K1, count_elapse, count_emit, K2, Hrej.
      exact Hthird.
  - (* the final status *)
    intros r w' H. apply return_response_error, H.
  - (* 401, refresh, 200 *)
    intros dt r dtk data expires access type dt2 r2 json
           Hfirst Hs Htok He Ha Ht Hsec Hs2 Hj Hstream.
    assert (Hretry : retry_status (status_code r) = true) by (rewrite Hs; reflexivity).
    set (c2 := mkOAuthCreds access
                 (get_default (td_refresh_token data) (refresh_token creds)) type
                 (get_default (td_resource_url data) (resource_url creds))
                 (int_of_time (clock (rejected dt) + dtk) + expires)).
    set (w2 := saved c2 (elapse dtk (emit (EvTokenPost (RefreshGrant (refresh_token creds)))
                                         (rejected dt)))).
    assert (Hrefresh : _refresh_token env (rejected dt) = (Returns tt, w2)).
    { unfold _refresh_token.
      unfold get_creds, gets, bind, post.
      change (oauth_creds (rejected dt)) with (oauth_creds w0). rewrite cached.
      change (token_posts (rejected dt)) with (token_posts w0). rewrite Htok.
      cbn [status_code negb Z.eqb Pos.eqb]. unfold response_json. cbn [body].
      unfold ret at 1.
      rewrite (creds_of_token_data_run data (Some (refresh_token creds))
                 (resource_url creds) access type expires _ He Ha Ht)
        by discriminate.
      reflexivity. }
    exists (elapse dt2 (emit (chat_post access) w2)).
    assert (E : run = return_response stream r2 (elapse dt2 (emit (chat_post access) w2))).
    { rewrite Hrun, Hfirst. apply bind_returns.
      apply (resend_refreshed env fuel api_url payload stream r r2 _ w2 c2 dt2
               Hretry Hrefresh eq_refl).
      rewrite (Hsecond dt w2 Hrefresh). exact Hsec. }
    split.
    + rewrite E, Hstream. apply return_response_json; [| exact Hj].
      rewrite Hs2. reflexivity.
    + repeat split.
Qed.

Lemma make_request_retry_policy_witness :
  exists w',
    make_request env_refresh_then_ok "qwen3-coder-plus" 0 chat_request
                 (world_with_creds valid_creds 100)
    = (Returns (ParsedBody "completion"), w')
    /\ trace w'
       = [EvChatPost "https://portal.qwen.ai/v1/chat/completions" "Bearer new-access"
                     (mkPayload "qwen3-coder-plus" (Some false) "messages") false;
          EvTokenPost (RefreshGrant "old-refresh");
          EvChatPost "https://portal.qwen.ai/v1/chat/completions" "Bearer old-access"
                     (mkPayload "qwen3-coder-plus" (Some false) "messages") false]
    /\ refreshes w' = 1%nat
    /\ chat_posts w' = 2%nat
    /\ authorizations w' = 0%nat.
Proof.
  pose proof (make_request_retry_policy env_refresh_then_ok "qwen3-coder-plus" 0
                chat_request (world_with_creds valid_creds 100)
                (world_with_creds valid_creds 100) valid_creds eq_refl eq_refl) as H.
  cbv zeta in H.
  destruct H as (_ & _ & _ & _ & _ & _ & _ & _ & H).
  apply (H 0 (mkResponse 401 (mkChatBody None [])) 0
           (granted "new-access" "new-refresh" None) 3600%Z "new-access" "Bearer"
           0 (mkResponse 200 (mkChatBody (Some "completion") [])) "completion");
    reflexivity.
Defined.

(** C1, as stated, fails: the token is rejected with 401, the refresh is
    granted and returns, and the resend cannot reach the server.  The
    handler of the [try] then runs the device flow although the refresh
    did not raise. *)
Lemma reauthorization_without_refresh_failure :
  let w := world_with_creds valid_creds 100 in
  let run := make_request env_resend_unreachable "qwen3-coder-plus" 1 chat_request w in
  let rejected :=
    emit (EvChatPost "https://portal.qwen.ai/v1/chat/completions" "Bearer old-access"
                     (mkPayload "qwen3-coder-plus" (Some false) "messages") false) w in
  ~ (authorizations (snd run) <> authorizations w ->
     exists e, fst (_refresh_token env_resend_unreachable (elapse 0 rejected)) = Raises e)
  /\ fst (_refresh_token env_resend_unreachable (elapse 0 rejected)) = Returns tt
  /\ authorizations (snd run) = 1%nat
  /\ chat_posts (snd run) = 3%nat
  /\ fst run = Returns (ParsedBody "completion").
Proof.
  cbv zeta.
  assert (R : fst (_refresh_token env_resend_unreachable
                     (elapse 0
                        (emit (EvChatPost "https://portal.qwen.ai/v1/chat/completions"
                                          "Bearer old-access"
                                          (mkPayload "qwen3-coder-plus" (Some false) "messages")
                                          false)
                              (world_with_creds valid_creds 100))))
              = Returns tt) by reflexivity.
  assert (A : authorizations
                (snd (make_request env_resend_unreachable "qwen3-coder-plus" 1 chat_request
                        (world_with_creds valid_creds 100))) = 1%nat) by reflexivity.
  split; [| split; [exact R | split; [exact A | split; reflexivity]]].
  intros H. destruct H as [e He].
  - rewrite A. discriminate.
  - rewrite R in He. discriminate He.
Qed.

(* ================================================================== *)
(** * Further properties of the client *)

(** ** Events recorded *)

Section Emits.

Variable P : Event -> Prop.

Lemma emits_nothing {A} (m : M A) :
  (forall w, trace (snd (m w)) = trace w) -> emits_only P m.
Proof.
  intros H w. exists []. split; [rewrite H; reflexivity | constructor].
Qed.

Lemma emits_ret {A} (a : A) : emits_only P (ret a).
Proof. apply emits_nothing. reflexivity. Qed.

Lemma emits_raise {A} (e : PyExc) : emits_only P (@raise A e).
Proof. apply emits_nothing. reflexivity. Qed.

Lemma emits_out_of_fuel {A} : emits_only P (@out_of_fuel A).
Proof. apply emits_nothing. reflexivity. Qed.

Lemma emits_gets {A} (f : World -> A) : emits_only P (gets f).
Proof. apply emits_nothing. reflexivity. Qed.

Lemma emits_set_creds (c : option OAuthCreds) : emits_only P (set_creds c).
Proof. apply emits_nothing. reflexivity. Qed.

Lemma emits_set_pkce (k : PKCE) : emits_only P (set_pkce k).
Proof. apply emits_nothing. reflexivity. Qed.

Lemma emits_write_file (f : option (Decoded OAuthCreds)) : emits_only P (write_file f).
Proof. apply emits_nothing. reflexivity. Qed.

Lemma emits_log (e : Event) : P e -> emits_only P (log e).
Proof.
  intros H w. exists [e]. split; [reflexivity | repeat constructor; exact H].
Qed.

Lemma emits_sleep (d : Q) : P (EvSleep d) -> emits_only P (sleep d).
Proof.
  intros H w. exists [EvSleep d]. split; [reflexivity | repeat constructor; exact H].
Qed.

Lemma emits_post {B} (e : Event) (reply : HttpReply B) :
  P e -> emits_only P (post e reply).
Proof.
  intros H w. exists [e].
  split; [destruct reply; reflexivity | repeat constructor; exact H].
Qed.

Lemma emits_bind {A B} (m : M A) (k : A -> M B) :
  emits_only P m -> (forall a, emits_only P (k a)) -> emits_only P (bind m k).
Proof.
  intros Hm Hk w. unfold bind. destruct (Hm w) as (ev1 & E1 & F1).
  destruct (m w) as [[a | e |] w1]; cbn [snd] in *.
  - destruct (Hk a w1) as (ev2 & E2 & F2).
    exists (ev2 ++ ev1)%list. split.
    + rewrite E2, E1, app_assoc. reflexivity.
    + apply Forall_app. split; assumption.
  - exists ev1. split; assumption.
  - exists ev1. split; assumption.
Qed.

Lemma emits_try_except {A} (m : M A) (handler : PyExc -> M A) :
  emits_only P m -> (forall e, emits_only P (handler e)) ->
  emits_only P (try_except m handler).
Proof.
  intros Hm Hh w. unfold try_except. destruct (Hm w) as (ev1 & E1 & F1).
  destruct (m w) as [[a | e |] w1]; cbn [snd] in *.
  - exists ev1. split; assumption.
  - destruct (Hh e w1) as (ev2 & E2 & F2).
    exists (ev2 ++ ev1)%list. split.
    + rewrite E2, E1, app_assoc. reflexivity.
    + apply Forall_app. split; assumption.
  - exists ev1. split; assumption.
Qed.

End Emits.

Lemma emits_weaken (P Q : Event -> Prop) {A} (m : M A) :
  (forall e, P e -> Q e) -> emits_only P m -> emits_only Q m.
Proof.
  intros H Hm w. destruct (Hm w) as (events & E & F).
  exists events. split; [exact E |].
  eapply Forall_impl; [exact H | exact F].
Qed.

(** Decomposes a goal [emits_only P m] along the structure of [m]; the
    events themselves are left as goals. *)
Ltac emits_step :=
  first
    [ apply emits_ret | apply emits_raise | apply emits_out_of_fuel | apply emits_gets
    | apply emits_set_creds | apply emits_set_pkce | apply emits_write_file
    | apply emits_log
    | apply emits_sleep
    | apply emits_post
    | apply emits_bind; [| intros ?]
    | apply emits_try_except; [| intros ?]
    | match goal with
      | |- emits_only _ (match ?x with _ => _ end) => destruct x
      end ].

Ltac emits_tac := unfold_primitives; repeat emits_step.

(* ------------------------------------------------------------------ *)
(** ** The credential file and the cache *)

(** A client constructed while the cache and the file agree starts with
    the credential of the file, and the two still agree. *)
Lemma QwenClient_in_sync (w : World) :
  in_sync w ->
  exists w2,
    QwenClient w = (Returns tt, w2)
    /\ oauth_creds w2 = oauth_creds w
    /\ creds_file w2 = creds_file w
    /\ in_sync w2
    /\ trace w2 = trace w.
Proof.
  unfold in_sync, QwenClient, __init__, _load_oauth_creds, read_file, gets, bind, fresh_instance.
  intros H. cbn [creds_file].
  destruct (oauth_creds w) as [creds |]; rewrite H; cbn.
  - eexists. split; [reflexivity |]. cbn. repeat split.
  - eexists. split; [reflexivity |]. cbn. repeat split.
Qed.

(* ------------------------------------------------------------------ *)
(** ** Refreshing, the other outcomes *)

(** X2.  A refresh answered with status 200 and the keys [expires_in],
    [access_token] and [token_type] returns after one request made with
    the old refresh token.  The new credential takes [refresh_token] and
    [resource_url] from the answer when it carries them and from the old
    credential otherwise; its expiry is the whole seconds of the time of
    the answer plus [expires_in], so that [expiry_date - expires_in] is
    the integer [n] with [n <= time of the answer < n + 1]; it is cached
    and written to the file. *)
Theorem refresh_token_granted (env : Env) (w : World) (old : OAuthCreds)
    (dt : Q) (data : TokenData) (expires : Z) (access type : string) :
  oauth_creds w = Some old ->
  token_endpoint env (token_posts w) = Replies dt (mkResponse 200 (Some data)) ->
  td_expires_in data = Some expires ->
  td_access_token data = Some access ->
  td_token_type data = Some type ->
  exists creds w',
    _refresh_token env w = (Returns tt, w')
    /\ access_token creds = access
    /\ token_type creds = type
    /\ expiry_date creds = (int_of_time (clock w + dt) + expires)%Z
    /\ ((0 <= clock w + dt)%Q ->
        (inject_Z (expiry_date creds - expires) <= clock w + dt)%Q
        /\ (clock w + dt < inject_Z (expiry_date creds - expires) + 1)%Q)
    /\ (forall rotated, td_refresh_token data = Some rotated ->
                        refresh_token creds = rotated)
    /\ (td_refresh_token data = None -> refresh_token creds = refresh_token old)
    /\ (forall url, td_resource_url data = Some url -> resource_url creds = url)
    /\ (td_resource_url data = None -> resource_url creds = resource_url old)
    /\ oauth_creds w' = Some creds
    /\ creds_file w' = Some (Accepted creds)
    /\ trace w' = EvTokenPost (RefreshGrant (refresh_token old)) :: trace w
    /\ (clock w' == clock w + dt)%Q.
Proof.
  intros Hc Hreply He Ha Ht.
  exists (mkOAuthCreds access
            (get_default (td_refresh_token data) (refresh_token old)) type
            (get_default (td_resource_url data) (resource_url old))
            (int_of_time (clock w + dt) + expires)).
  eexists. split.
  - unfold _refresh_token, get_creds, gets, bind, post. rewrite Hc, Hreply.
    cbn [status_code negb Z.eqb Pos.eqb]. unfold response_json. cbn [body].
    unfold ret at 1.
    rewrite (creds_of_token_data_run data (Some (refresh_token old)) (resource_url old)
               access type expires _ He Ha Ht) by discriminate.
    reflexivity.
  - cbn [access_token token_type expiry_date refresh_token resource_url
         oauth_creds creds_file trace clock saved elapse emit].
    split; [reflexivity |]. split; [reflexivity |]. split; [reflexivity |].
    split.
    { intros Hpos.
      replace (int_of_time (clock w + dt) + expires - expires)%Z
        with (int_of_time (clock w + dt)) by lia.
      exact (int_of_time_floor _ Hpos). }
    split; [intros r Hr; rewrite Hr; reflexivity |].
    split; [intros Hr; rewrite Hr; reflexivity |].
    split; [intros u Hu; rewrite Hu; reflexivity |].
    split; [intros Hu; rewrite Hu; reflexivity |].
    repeat split; reflexivity.
Qed.

Lemma refresh_token_granted_witness :
  exists creds w',
    _refresh_token env_refresh_then_ok (world_with_creds valid_creds (201 # 2))
    = (Returns tt, w')
    /\ access_token creds = "new-access"
    /\ token_type creds = "Bearer"
    /\ expiry_date creds = 3700%Z
    /\ ((0 <= (201 # 2) + 0)%Q ->
        (inject_Z (expiry_date creds - 3600) <= (201 # 2) + 0)%Q
        /\ ((201 # 2) + 0 < inject_Z (expiry_date creds - 3600) + 1)%Q)
    /\ (forall rotated, Some "new-refresh" = Some rotated -> refresh_token creds = rotated)
    /\ (Some "new-refresh" = None -> refresh_token creds = "old-refresh")
    /\ (forall url, @None string = Some url -> resource_url creds = url)
    /\ (@None string = None -> resource_url creds = "portal.qwen.ai")
    /\ oauth_creds w' = Some creds
    /\ creds_file w' = Some (Accepted creds)
    /\ trace w' = [EvTokenPost (RefreshGrant "old-refresh")]
    /\ (clock w' == (201 # 2) + 0)%Q.
Proof.
  apply (refresh_token_granted env_refresh_then_ok
           (world_with_creds valid_creds (201 # 2))
           valid_creds 0 (granted "new-access" "new-refresh" None) 3600%Z
           "new-access" "Bearer"); reflexivity.
Defined.

(** X3.  Only an answer whose status is not 200 makes the refresh drop
    the stored credential.  When the request itself fails, its exception
    is raised; when a 200 answer is not JSON or lacks [expires_in],
    [access_token] or [token_type], the refresh raises [JSONDecodeError]
    or the [KeyError] of the first missing key.  In all these cases the
    cached credential and the file are left as they were. *)
Theorem refresh_token_keeps_credential (env : Env) (w : World) (old : OAuthCreds) :
  oauth_creds w = Some old ->
  let run := _refresh_token env w in
  let reply := token_endpoint env (token_posts w) in
  (forall dt e, reply = Fails dt e ->
     fst run = Raises e
     /\ oauth_creds (snd run) = Some old /\ creds_file (snd run) = creds_file w)
  /\ (forall dt, reply = Replies dt (mkResponse 200 None) ->
        fst run = Raises JSONDecodeError)
  /\ (forall dt data, reply = Replies dt (mkResponse 200 (Some data)) ->
        td_expires_in data = None -> fst run = Raises (KeyError "expires_in"))
  /\ (forall dt data, reply = Replies dt (mkResponse 200 (Some data)) ->
        td_expires_in data <> None -> td_access_token data = None ->
        fst run = Raises (KeyError "access_token"))
  /\ (forall dt data, reply = Replies dt (mkResponse 200 (Some data)) ->
        td_expires_in data <> None -> td_access_token data <> None ->
        td_token_type data = None ->
        fst run = Raises (KeyError "token_type"))
  /\ (forall dt payload e, reply = Replies dt (mkResponse 200 payload) ->
        fst run = Raises e ->
        oauth_creds (snd run) = Some old /\ creds_file (snd run) = creds_file w).
Proof.
  intros Hc run reply. subst run reply.
  unfold _refresh_token, get_creds, gets, bind, post. rewrite Hc.
  split; [| split; [| split; [| split; [| split]]]].
  - intros dt e ->. repeat split; try exact Hc; reflexivity.
  - intros dt ->. reflexivity.
  - intros dt data -> He. cbn [status_code negb Z.eqb Pos.eqb]. unfold response_json.
    cbn [body]. unfold ret at 1, creds_of_token_data, bind, time_time, gets, getitem.
    rewrite He. reflexivity.
  - intros dt data -> He Ha. cbn [status_code negb Z.eqb Pos.eqb]. unfold response_json.
    cbn [body]. unfold ret at 1, creds_of_token_data, bind, time_time, gets, getitem.
    destruct (td_expires_in data); [| now destruct He]. rewrite Ha. reflexivity.
  - intros dt data -> He Ha Ht. cbn [status_code negb Z.eqb Pos.eqb].
    unfold response_json.
    cbn [body]. unfold ret at 1, creds_of_token_data, bind, time_time, gets, getitem.
    destruct (td_expires_in data); [| now destruct He].
    destruct (td_access_token data); [| now destruct Ha]. rewrite Ht. reflexivity.
  - intros dt payload e ->. cbn [status_code negb Z.eqb Pos.eqb].
    unfold response_json, creds_of_token_data, bind, time_time, gets, getitem.
    cbn [body].
    destruct payload as [data |]; cbn [ret raise snd fst];
      [| intros _; repeat split; exact Hc].
    destruct (td_expires_in data); cbn [ret raise snd fst];
      [| intros _; repeat split; exact Hc].
    destruct (td_access_token data); cbn [ret raise snd fst];
      [| intros _; repeat split; exact Hc].
    destruct (td_token_type data); cbn [ret raise snd fst];
      [| intros _; repeat split; exact Hc].
    cbn. discriminate.
Qed.

Lemma refresh_token_keeps_credential_witness :
  fst (_refresh_token env_token_not_json (world_with_creds valid_creds 100))
  = Raises JSONDecodeError
  /\ oauth_creds (snd (_refresh_token env_token_not_json (world_with_creds valid_creds 100)))
     = Some valid_creds
  /\ creds_file (snd (_refresh_token env_token_not_json (world_with_creds valid_creds 100)))
     = Some (Accepted valid_creds).
Proof.
  pose proof (refresh_token_keeps_credential env_token_not_json
                (world_with_creds valid_creds 100) valid_creds eq_refl) as H.
  cbv zeta in H. destruct H as (_ & H1 & _ & _ & _ & H2).
  split; [apply (H1 0); reflexivity |].
  apply (H2 0 None JSONDecodeError); [reflexivity |].
  apply (H1 0). reflexivity.
Defined.

(* ------------------------------------------------------------------ *)
(** ** The cache and the file stay in step *)

Section Preserves.

Variable I : World -> Prop.

Lemma preserves_unchanged {A} (m : M A) :
  (forall w, snd (m w) = w) -> preserves I m.
Proof. intros H w Hw. rewrite H. exact Hw. Qed.

Lemma preserves_bind {A B} (m : M A) (k : A -> M B) :
  preserves I m -> (forall a, preserves I (k a)) -> preserves I (bind m k).
Proof.
  intros Hm Hk w Hw. unfold bind. specialize (Hm w Hw).
  destruct (m w) as [[a | e |] w1]; cbn [snd] in *.
  - apply Hk, Hm.
  - exact Hm.
  - exact Hm.
Qed.

Lemma preserves_try_except {A} (m : M A) (handler : PyExc -> M A) :
  preserves I m -> (forall e, preserves I (handler e)) ->
  preserves I (try_except m handler).
Proof.
  intros Hm Hh w Hw. unfold try_except. specialize (Hm w Hw).
  destruct (m w) as [[a | e |] w1]; cbn [snd] in *.
  - exact Hm.
  - apply Hh, Hm.
  - exact Hm.
Qed.

End Preserves.

Lemma in_sync_emit (e : Event) (w : World) : in_sync w -> in_sync (emit e w).
Proof. intros H. exact H. Qed.

Lemma in_sync_elapse (d : Q) (w : World) : in_sync w -> in_sync (elapse d w).
Proof. intros H. exact H. Qed.

Lemma in_sync_post {B} (e : Event) (reply : HttpReply B) : preserves in_sync (post e reply).
Proof. intros w H. destruct reply; exact H. Qed.

Lemma in_sync_save (creds : OAuthCreds) (w : World) :
  in_sync (snd (_save_oauth_creds creds w)).
Proof. reflexivity. Qed.

Lemma in_sync_creds_of_token_data (data : TokenData) (fallback : option string)
    (resource : string) :
  preserves in_sync (creds_of_token_data data fallback resource).
Proof.
  intros w H.
  assert (E : snd (creds_of_token_data data fallback resource w) = w).
  { unfold creds_of_token_data, bind, time_time, gets, getitem.
    destruct (td_expires_in data); [| reflexivity].
    destruct (td_access_token data); [| reflexivity].
    destruct fallback; cbn.
    - destruct (td_token_type data); reflexivity.
    - destruct (td_refresh_token data); [| reflexivity].
      destruct (td_token_type data); reflexivity. }
  rewrite E. exact H.
Qed.

Ltac unchanged := apply preserves_unchanged; intros ?; reflexivity.

Section InSync.

Variable env : Env.

Lemma in_sync_poll_loop (fuel : nat) (device_auth : DeviceAuth) (verifier : string)
    (start_time : Q) :
  forall poll_interval,
    preserves in_sync (poll_loop env fuel device_auth verifier start_time poll_interval).
Proof.
  induction fuel as [| fuel IH]; intros poll_interval; cbn [poll_loop].
  - unchanged.
  - apply preserves_bind; [unchanged | intros now].
    destruct (Qltb _ _); [| unchanged].
    apply preserves_bind; [intros w H; exact H | intros _].
    apply preserves_bind; [unchanged | intros n].
    apply preserves_bind; [apply in_sync_post | intros response].
    apply preserves_bind;
      [unfold response_json; destruct (body response); unchanged | intros data].
    destruct (status_code response =? 200)%Z.
    + apply preserves_bind; [apply in_sync_creds_of_token_data | intros creds].
      apply preserves_bind; [intros w _; apply in_sync_save | intros _]. unchanged.
    + destruct (option_eqb _ _); [apply IH |].
      destruct (option_eqb _ _); [apply IH | unchanged].
Qed.

Lemma in_sync_authenticate (fuel : nat) : preserves in_sync (_authenticate env fuel).
Proof.
  unfold _authenticate.
  apply preserves_bind.
  - unfold _perform_device_auth.
    apply preserves_bind; [unchanged | intros n].
    apply preserves_bind; [intros w H; exact H | intros _].
    apply preserves_bind; [apply in_sync_post | intros response].
    apply preserves_bind;
      [unfold raise_for_status; destruct (is_error_status _); unchanged | intros _].
    destruct (body response); unchanged.
  - intros device_auth.
    apply preserves_bind; [intros w H; exact H | intros _].
    apply preserves_bind;
      [destruct (browser_opens _ _); intros w H; exact H | intros _].
    apply preserves_bind; [| intros _; unchanged].
    unfold _poll_for_token.
    apply preserves_bind; [unchanged | intros [k |]]; [| unchanged].
    apply preserves_bind; [unchanged | intros start_time].
    apply in_sync_poll_loop.
Qed.

Lemma in_sync_refresh_token : preserves in_sync (_refresh_token env).
Proof.
  unfold _refresh_token.
  apply preserves_bind; [unchanged | intros [old |]]; [| unchanged].
  apply preserves_bind; [unchanged | intros n].
  apply preserves_bind; [apply in_sync_post | intros response].
  destruct (negb _).
  - intros w _. reflexivity.
  - apply preserves_bind;
      [unfold response_json; destruct (body response); unchanged | intros data].
    apply preserves_bind; [apply in_sync_creds_of_token_data | intros creds].
    intros w _. apply in_sync_save.
Qed.

Lemma in_sync_ensure_valid_token (fuel : nat) :
  preserves in_sync (_ensure_valid_token env fuel).
Proof.
  unfold _ensure_valid_token.
  apply preserves_bind; [unchanged | intros expired].
  destruct expired; [| unchanged].
  apply preserves_bind; [unchanged | intros current].
  destruct (match current with
            | Some creds => PyStr.truthy (refresh_token creds)
            | None => false
            end).
  - apply preserves_try_except; [apply in_sync_refresh_token | intros _].
    apply in_sync_authenticate.
  - apply in_sync_authenticate.
Qed.

Lemma in_sync_creds_attr {A} (field : OAuthCreds -> A) (name : string) :
  preserves in_sync (creds_attr field name).
Proof.
  unfold creds_attr. apply preserves_bind; [unchanged | intros [c |]]; unchanged.
Qed.

Lemma in_sync_post_chat (api_url authorization : string) (payload : Payload)
    (stream : bool) :
  preserves in_sync (post_chat env api_url authorization payload stream).
Proof.
  unfold post_chat. apply preserves_bind; [unchanged | intros n]. apply in_sync_post.
Qed.

Lemma in_sync_make_request (_model : string) (fuel : nat) (request_data : RequestData) :
  preserves in_sync (make_request env _model fuel request_data).
Proof.
  unfold make_request.
  apply preserves_bind; [apply in_sync_ensure_valid_token | intros _].
  apply preserves_bind; [apply in_sync_creds_attr | intros stored].
  apply preserves_bind; [apply in_sync_creds_attr | intros token].
  apply preserves_bind; [apply in_sync_post_chat | intros response].
  apply preserves_bind.
  - unfold resend_after_rejection. destruct (retry_status _); [| unchanged].
    apply preserves_try_except.
    + apply preserves_bind; [apply in_sync_refresh_token | intros _].
      apply preserves_bind; [apply in_sync_creds_attr | intros t].
      apply in_sync_post_chat.
    + intros _.
      apply preserves_bind; [apply in_sync_authenticate | intros _].
      apply preserves_bind; [apply in_sync_creds_attr | intros t].
      apply in_sync_post_chat.
  - intros r w H. rewrite return_response_world. exact H.
Qed.

End InSync.

(** X4.  The cached credential and the credential file stay in step:
    if they agree before a dispatch, a refresh, an authorization or a
    poll, they agree after it, whatever the endpoints answer and however
    the call ends.  So a client constructed after a dispatch starts with
    the credential the dispatching client ended with. *)
Theorem client_keeps_file_in_sync (env : Env) (_model : string) (fuel : nat)
    (request_data : RequestData) (device_auth : DeviceAuth) (w : World) :
  in_sync w ->
  in_sync (snd (_refresh_token env w))
  /\ in_sync (snd (_poll_for_token env fuel device_auth w))
  /\ in_sync (snd (_authenticate env fuel w))
  /\ in_sync (snd (_ensure_valid_token env fuel w))
  /\ in_sync (snd (make_request env _model fuel request_data w))
  /\ exists w2,
       QwenClient (snd (make_request env _model fuel request_data w)) = (Returns tt, w2)
       /\ oauth_creds w2
          = oauth_creds (snd (make_request env _model fuel request_data w)).
Proof.
  intros H.
  pose proof (in_sync_make_request env _model fuel request_data w H) as Hm.
  split; [apply in_sync_refresh_token, H |].
  split.
  { unfold _poll_for_token.
    apply preserves_bind; [unchanged | intros [k |] | exact H]; [| unchanged].
    apply preserves_bind; [unchanged | intros start_time].
    apply in_sync_poll_loop. }
  split; [apply in_sync_authenticate, H |].
  split; [apply in_sync_ensure_valid_token, H |].
  split; [exact Hm |].
  destruct (QwenClient_in_sync _ Hm) as (w2 & E & Hc & _).
  exists w2. split; assumption.
Qed.

Lemma client_keeps_file_in_sync_witness :
  in_sync (snd (make_request env_resend_unreachable "qwen3-coder-plus" 1 chat_request
                  (world_with_creds valid_creds 100))).
Proof.
  apply (client_keeps_file_in_sync env_resend_unreachable "qwen3-coder-plus" 1
           chat_request sample_device_auth (world_with_creds valid_creds 100)).
  reflexivity.
Defined.

(* ------------------------------------------------------------------ *)
(** ** Ensuring a valid token *)

Lemma ensure_valid_token_unfold (env : Env) (fuel : nat) (w : World) :
  _ensure_valid_token env fuel w
  = if is_token_expired (oauth_creds w) (clock w) then
      if has_refresh_token w
      then try_except (_refresh_token env) (fun _ => _authenticate env fuel) w
      else _authenticate env fuel w
    else (Returns tt, w).
Proof.
  unfold _ensure_valid_token, _is_token_expired, get_creds, time_time, gets, has_refresh_token.
  unfold bind at 1 2 3. unfold ret at 1. cbn beta iota.
  destruct (is_token_expired (oauth_creds w) (clock w)); [| reflexivity].
  unfold bind at 1. cbn beta iota.
  destruct (match oauth_creds w with
            | Some creds => PyStr.truthy (refresh_token creds)
            | None => false
            end); reflexivity.
Qed.

(** X5.  [_ensure_valid_token] makes no request at all while the cached
    credential is not expired.  It never makes a chat request, and at
    most one refresh request and one device authorization.  Without a
    cached credential, or with one whose [refresh_token] is empty, it
    makes no refresh request.  When the refresh returns, that is the
    result and no device authorization is started.  Whenever it returns,
    a credential is cached. *)
Theorem ensure_valid_token_requests (env : Env) (fuel : nat) (w : World) :
  let run := _ensure_valid_token env fuel w in
  (is_token_expired (oauth_creds w) (clock w) = false -> run = (Returns tt, w))
  /\ chat_posts (snd run) = chat_posts w
  /\ (refreshes (snd run) <= refreshes w + 1)%nat
  /\ (authorizations (snd run) <= authorizations w + 1)%nat
  /\ (has_refresh_token w = false -> refreshes (snd run) = refreshes w)
  /\ (forall w1,
        is_token_expired (oauth_creds w) (clock w) = true ->
        has_refresh_token w = true ->
        _refresh_token env w = (Returns tt, w1) ->
        run = (Returns tt, w1) /\ authorizations w1 = authorizations w)
  /\ (fst run = Returns tt -> exists creds, oauth_creds (snd run) = Some creds).
Proof.
  intros run. subst run. rewrite ensure_valid_token_unfold.
  split; [intros ->; reflexivity |].
  split.
  { destruct (is_token_expired _ _); [| reflexivity].
    destruct (has_refresh_token w).
    - apply (keeps_try_except is_chat_post);
        [apply keeps_refresh_token; reflexivity | intros _].
      apply keeps_authenticate; [apply silent_chat | reflexivity].
    - apply keeps_authenticate; [apply silent_chat | reflexivity]. }
  split.
  { destruct (is_token_expired _ _); [| cbn [snd]; lia].
    destruct (has_refresh_token w).
    - apply (adds_try_except is_refresh_post _ _ 1 0);
        [apply adds_refresh_token | intros _].
      apply keeps_adds, keeps_authenticate; [apply silent_refresh | reflexivity].
    - pose proof (keeps_authenticate env is_refresh_post fuel silent_refresh
                    (fun _ => eq_refl) w) as K.
      unfold refreshes. rewrite K. lia. }
  split.
  { destruct (is_token_expired _ _); [| cbn [snd]; lia].
    destruct (has_refresh_token w).
    - apply (adds_try_except is_device_post _ _ 0 1).
      + apply keeps_adds, keeps_refresh_token. reflexivity.
      + intros _. apply adds_authenticate, silent_device.
    - apply adds_authenticate, silent_device. }
  split.
  { intros ->. destruct (is_token_expired _ _); [| reflexivity].
    apply (keeps_authenticate env is_refresh_post fuel silent_refresh (fun _ => eq_refl)). }
  split.
  { intros w1 -> -> Hr. unfold try_except. rewrite Hr.
    split; [reflexivity |].
    pose proof (keeps_refresh_token env is_device_post (fun _ => eq_refl) w) as K.
    rewrite Hr in K. exact K. }
  intros H.
  destruct (_ensure_valid_token env fuel w) as [o w0] eqn:E.
  rewrite ensure_valid_token_unfold in E. rewrite E in H. cbn [fst] in H. subst o.
  rewrite E. cbn [snd].
  rewrite <- ensure_valid_token_unfold in E.
  exact (proj1 (ensure_valid_token_caches env fuel w w0 E)).
Qed.

Lemma ensure_valid_token_requests_witness :
  _ensure_valid_token env_refresh_then_ok 0 (world_with_creds valid_creds 100)
  = (Returns tt, world_with_creds valid_creds 100)
  /\ exists w1,
       _ensure_valid_token env_refresh_then_ok 0 (world_with_creds expired_creds 100)
       = (Returns tt, w1)
       /\ authorizations w1 = 0%nat.
Proof.
  split.
  - apply (proj1 (ensure_valid_token_requests env_refresh_then_ok 0
                    (world_with_creds valid_creds 100))). reflexivity.
  - pose proof (ensure_valid_token_requests env_refresh_then_ok 0
                  (world_with_creds expired_creds 100)) as H.
    cbv zeta in H. destruct H as (_ & _ & _ & _ & _ & H & _).
    eexists. apply H; reflexivity.
Defined.

(* ------------------------------------------------------------------ *)
(** ** Starting the device flow *)

Lemma perform_device_auth_run (env : Env) (w : World) :
  _perform_device_auth env w
  = let drawn := fresh_pkce env (authorizations w) in
    let sent dt :=
      elapse dt
        (emit (EvDevicePost (code_challenge drawn))
           (mkWorld (oauth_creds w) (Some drawn) (creds_file w) (clock w) (trace w))) in
    match device_endpoint env (authorizations w) with
    | Fails dt e => (Raises e, sent dt)
    | Replies dt r =>
        if is_error_status (status_code r)
        then (Raises (HTTPError (status_code r)), sent dt)
        else match body r with
             | NotJson => (Raises JSONDecodeError, sent dt)
             | Rejected => (Raises (TypeError "DeviceAuth.__init__()"), sent dt)
             | Accepted device_auth => (Returns device_auth, sent dt)
             end
    end.
Proof.
  unfold _perform_device_auth, bind, gets, set_pkce, post, raise_for_status.
  cbv zeta.
  destruct (device_endpoint env (authorizations w)) as [dt e | dt r]; [reflexivity |].
  destruct (is_error_status (status_code r)); [reflexivity |].
  destruct (body r); reflexivity.
Qed.

(** X6.  When the device-code request fails or is answered with a 4xx or
    5xx status, the authorization stops there with that failure: nothing
    is printed, no browser is opened, no token request is made and the
    stored credential is untouched.  The PKCE pair drawn for the attempt
    stays on the client. *)
Theorem authenticate_stops_at_device_request (env : Env) (fuel : nat) (w : World) :
  let run := _authenticate env fuel w in
  let pkce_drawn := fresh_pkce env (authorizations w) in
  let reply := device_endpoint env (authorizations w) in
  (forall dt e, reply = Fails dt e -> fst run = Raises e)
  /\ (forall dt r, reply = Replies dt r -> is_error_status (status_code r) = true ->
        fst run = Raises (HTTPError (status_code r)))
  /\ (forall dt r, reply = Replies dt r -> is_error_status (status_code r) = false ->
        body r = NotJson -> fst run = Raises JSONDecodeError)
  /\ ((exists dt e, reply = Fails dt e)
      \/ (exists dt r, reply = Replies dt r
                       /\ (is_error_status (status_code r) = true
                           \/ body r = NotJson \/ body r = Rejected)) ->
      trace (snd run) = EvDevicePost (code_challenge pkce_drawn) :: trace w
      /\ pkce (snd run) = Some pkce_drawn
      /\ oauth_creds (snd run) = oauth_creds w
      /\ creds_file (snd run) = creds_file w).
Proof.
  intros run pkce_drawn reply. subst run pkce_drawn reply.
  pose proof (perform_device_auth_run env w) as Hrun. cbv zeta in Hrun.
  unfold _authenticate.
  destruct (device_endpoint env (authorizations w)) as [dt e | dt r].
  - rewrite (bind_raises _ _ _ _ _ Hrun).
    split; [intros ? ? H; injection H as _ <-; reflexivity |].
    split; [discriminate |]. split; [discriminate |].
    intros _. repeat split.
  - destruct (is_error_status (status_code r)) eqn:Hs.
    + rewrite (bind_raises _ _ _ _ _ Hrun).
      split; [discriminate |].
      split; [intros ? ? H _; injection H as _ <-; reflexivity |].
      split; [intros ? ? H; injection H as _ <-; rewrite Hs; discriminate |].
      intros _. repeat split.
    + destruct (body r) eqn:Hb.
      * rewrite (bind_raises _ _ _ _ _ Hrun).
        split; [discriminate |].
        split; [intros ? ? H; injection H as _ <-; rewrite Hs; discriminate |].
        split; [reflexivity |].
        intros _. repeat split.
      * rewrite (bind_raises _ _ _ _ _ Hrun).
        split; [discriminate |].
        split; [intros ? ? H; injection H as _ <-; rewrite Hs; discriminate |].
        split; [intros ? ? H _; injection H as _ <-; rewrite Hb; discriminate |].
        intros _. repeat split.
      * split; [discriminate |].
        split; [intros ? ? H; injection H as _ <-; rewrite Hs; discriminate |].
        split; [intros ? ? H _; injection H as _ <-; rewrite Hb; discriminate |].
        intros [(? & ? & H) | (? & ? & H & H')]; [discriminate H |].
        injection H as _ <-. rewrite Hs, Hb in H'.
        destruct H' as [H' | [H' | H']]; discriminate H'.
Qed.

Lemma authenticate_stops_at_device_request_witness :
  fst (_authenticate env_device_refused 5 (world_with_creds expired_creds 100))
  = Raises (HTTPError 403)
  /\ trace (snd (_authenticate env_device_refused 5 (world_with_creds expired_creds 100)))
     = [EvDevicePost "challenge"].
Proof.
  pose proof (authenticate_stops_at_device_request env_device_refused 5
                (world_with_creds expired_creds 100)) as H.
  cbv zeta in H. destruct H as (_ & H1 & _ & H2).
  split.
  - apply (H1 0 (mkResponse 403 NotJson)); reflexivity.
  - apply H2. right. exists 0, (mkResponse 403 NotJson).
    split; [reflexivity | left; reflexivity].
Defined.

(* ------------------------------------------------------------------ *)
(** ** The poller, its pace and its failures *)

Lemma poll_events_app (device_auth : DeviceAuth) (verifier : string)
    (later earlier : list Event) :
  poll_events device_auth verifier later ->
  poll_events device_auth verifier earlier ->
  poll_events device_auth verifier (later ++ earlier).
Proof.
  intros Hl He. induction Hl as [| d l H2 H10 Hl IH]; cbn.
  - exact He.
  - constructor; assumption.
Qed.

Section PollPace.

Variable env : Env.
Variable device_auth : DeviceAuth.
Variable verifier : string.

(** The world a poll iteration ends in when it ends the loop. *)
Lemma poll_loop_step (fuel : nat) (start_time poll_interval : Q) (w : World) :
  let w1 dt := after_poll_request device_auth verifier poll_interval dt w in
  let run := poll_loop env (S fuel) device_auth verifier start_time poll_interval w in
  (Qltb (clock w - start_time) (inject_Z (expires_in device_auth)) = false
   /\ run = (Raises OAuthTimeoutError, w))
  \/ (Qltb (clock w - start_time) (inject_Z (expires_in device_auth)) = true
      /\ ((exists o, run = (o, w1 (latency (token_endpoint env (token_posts w))))
                     /\ forall c, o <> Returns c)
          \/ (exists c, run = (Returns c, saved c (w1 (latency (token_endpoint env (token_posts w))))))
          \/ (exists interval',
                (2 <= poll_interval -> 2 <= interval')%Q
                /\ (poll_interval <= 10 -> interval' <= 10)%Q
                /\ run = poll_loop env fuel device_auth verifier start_time interval'
                           (w1 (latency (token_endpoint env (token_posts w))))))).
Proof.
  cbv zeta.
  destruct (Qltb (clock w - start_time) (inject_Z (expires_in device_auth))) eqn:Hguard.
  2:{ left. split; [reflexivity |]. apply poll_loop_timeout, Hguard. }
  right. split; [reflexivity |].
  destruct (token_endpoint env (token_posts w)) as [dt e | dt [status [data |]]] eqn:Hreply;
    cbn [latency].
  - left. exists (Raises e). split; [| discriminate].
    cbn [poll_loop]. unfold bind, time_time, gets, sleep, post.
    cbn beta iota. rewrite Hguard. cbn beta iota.
    change (token_posts (elapse poll_interval (emit (EvSleep poll_interval) w)))
      with (token_posts w).
    rewrite Hreply. reflexivity.
  - rewrite (poll_loop_request _ _ _ _ _ _ _ _ _ _ Hguard Hreply). cbn beta zeta.
    destruct (status =? 200)%Z.
    + unfold bind, creds_of_token_data, time_time, gets, getitem.
      destruct (td_expires_in data);
        [| left; eexists; split; [reflexivity | discriminate]].
      destruct (td_access_token data);
        [| left; eexists; split; [reflexivity | discriminate]].
      destruct (td_refresh_token data);
        [| left; eexists; split; [reflexivity | discriminate]].
      destruct (td_token_type data);
        [| left; eexists; split; [reflexivity | discriminate]].
      right. left. eexists. reflexivity.
    + destruct (option_eqb (td_error data) "authorization_pending").
      { right. right. exists poll_interval. repeat split; auto. }
      destruct (option_eqb (td_error data) "slow_down").
      { right. right. exists (Qmin (poll_interval * (3 # 2)) 10).
        split; [| split; [| reflexivity]].
        - intros H. apply Q.min_glb; lra.
        - intros _. apply Q.le_min_r. }
      left. eexists. split; [reflexivity | discriminate].
  - left. exists (Raises JSONDecodeError). split; [| discriminate].
    cbn [poll_loop]. unfold bind, time_time, gets, sleep, post.
    cbn beta iota. rewrite Hguard. cbn beta iota.
    change (token_posts (elapse poll_interval (emit (EvSleep poll_interval) w)))
      with (token_posts w).
    rewrite Hreply. reflexivity.
Qed.

End PollPace.

Section PollInductions.

Variable env : Env.
Variable device_auth : DeviceAuth.
Variable verifier : string.

Lemma poll_loop_events (fuel : nat) :
  forall (start_time poll_interval : Q) (w : World),
    (2 <= poll_interval)%Q -> (poll_interval <= 10)%Q ->
    exists events,
      trace (snd (poll_loop env fuel device_auth verifier start_time poll_interval w))
      = (events ++ trace w)%list
      /\ poll_events device_auth verifier events.
Proof.
  induction fuel as [| fuel IH]; intros start_time poll_interval w H2 H10.
  - exists []. split; [reflexivity | constructor].
  - assert (One : poll_events device_auth verifier
                    [EvTokenPost (DeviceCodeGrant (device_code device_auth) verifier);
                     EvSleep poll_interval])
      by (constructor; [assumption | assumption | constructor]).
    destruct (poll_loop_step env device_auth verifier fuel start_time poll_interval w)
      as [[_ E] | [_ [(o & E & _) | [(c & E) | (i' & Hi2 & Hi10 & E)]]]]; rewrite E.
    + exists []. split; [reflexivity | constructor].
    + exists [EvTokenPost (DeviceCodeGrant (device_code device_auth) verifier);
              EvSleep poll_interval].
      split; [reflexivity | exact One].
    + exists [EvTokenPost (DeviceCodeGrant (device_code device_auth) verifier);
              EvSleep poll_interval].
      split; [reflexivity | exact One].
    + destruct (IH start_time i'
                  (after_poll_request device_auth verifier poll_interval
                     (latency (token_endpoint env (token_posts w))) w)
                  (Hi2 H2) (Hi10 H10)) as (events & Et & He).
      exists (events ++ [EvTokenPost (DeviceCodeGrant (device_code device_auth) verifier);
                         EvSleep poll_interval])%list.
      split; [rewrite Et, <- app_assoc; reflexivity |].
      apply poll_events_app; assumption.
Qed.

Lemma poll_loop_untouched (fuel : nat) :
  forall (start_time poll_interval : Q) (w : World),
    (forall c, fst (poll_loop env fuel device_auth verifier start_time poll_interval w)
               <> Returns c) ->
    oauth_creds (snd (poll_loop env fuel device_auth verifier start_time poll_interval w))
    = oauth_creds w
    /\ creds_file (snd (poll_loop env fuel device_auth verifier start_time poll_interval w))
       = creds_file w.
Proof.
  induction fuel as [| fuel IH]; intros start_time poll_interval w H.
  - split; reflexivity.
  - destruct (poll_loop_step env device_auth verifier fuel start_time poll_interval w)
      as [[_ E] | [_ [(o & E & _) | [(c & E) | (i' & _ & _ & E)]]]]; rewrite E in *.
    + split; reflexivity.
    + split; reflexivity.
    + exfalso. apply (H c). reflexivity.
    + apply (IH start_time i' _ H).
Qed.

Hypothesis latency_nonneg : forall n, (0 <= latency (token_endpoint env n))%Q.

Lemma poll_loop_request_bound (fuel : nat) :
  forall (start_time poll_interval : Q) (w : World),
    (2 <= poll_interval)%Q ->
    exists k,
      token_posts (snd (poll_loop env fuel device_auth verifier start_time poll_interval w))
      = (token_posts w + k)%nat
      /\ (k = 0%nat
          \/ (clock w - start_time + 2 * (inject_Z (Z.of_nat k) - 1)
              < inject_Z (expires_in device_auth))%Q).
Proof.
  induction fuel as [| fuel IH]; intros start_time poll_interval w H2.
  - exists 0%nat. split; [cbn; lia | left; reflexivity].
  - pose proof (latency_nonneg (token_posts w)) as Hlat.
    destruct (poll_loop_step env device_auth verifier fuel start_time poll_interval w)
      as [[_ E] | [Hg [(o & E & _) | [(c & E) | (i' & Hi2 & _ & E)]]]]; rewrite E.
    + exists 0%nat. split; [cbn; lia | left; reflexivity].
    + exists 1%nat. split; [cbn [snd]; rewrite token_posts_after_poll_request; lia |].
      right. apply Qltb_lt in Hg. change (inject_Z (Z.of_nat 1)) with 1%Q. lra.
    + exists 1%nat. split.
      * cbn [snd].
        change (token_posts (saved c ?x)) with (token_posts x).
        rewrite token_posts_after_poll_request. lia.
      * right. apply Qltb_lt in Hg. change (inject_Z (Z.of_nat 1)) with 1%Q. lra.
    + destruct (IH start_time i'
                  (after_poll_request device_auth verifier poll_interval
                     (latency (token_endpoint env (token_posts w))) w) (Hi2 H2))
        as (k & Ek & Hk).
      exists (S k). split.
      * rewrite Ek, token_posts_after_poll_request. lia.
      * right. apply Qltb_lt in Hg. rewrite inject_Z_succ.
        destruct Hk as [-> | Hk].
        -- change (inject_Z (Z.of_nat 0)) with 0%Q. lra.
        -- cbn [clock after_poll_request elapse emit] in Hk. lra.
Qed.

End PollInductions.

Lemma poll_for_token_unfold (env : Env) (fuel : nat) (device_auth : DeviceAuth)
    (w : World) (p : PKCE) :
  pkce w = Some p ->
  _poll_for_token env fuel device_auth w
  = poll_loop env fuel device_auth (code_verifier p) (clock w) 2 w.
Proof.
  intros Hp. unfold _poll_for_token, bind, get_pkce, time_time, gets.
  rewrite Hp. reflexivity.
Qed.

(** X7.  The pace of the poller.  What a poll adds to the trace is only
    token requests for the device code, with the verifier of the client's
    PKCE pair, each one right after a sleep of at least 2 and at most 10
    seconds: it never makes two requests without sleeping in between, and
    never a chat, a device or a refresh request. *)
Theorem poll_for_token_pace (env : Env) (fuel : nat) (device_auth : DeviceAuth)
    (w : World) (p : PKCE) :
  pkce w = Some p ->
  exists events,
    trace (snd (_poll_for_token env fuel device_auth w)) = (events ++ trace w)%list
    /\ poll_events device_auth (code_verifier p) events.
Proof.
  intros Hp. rewrite (poll_for_token_unfold _ _ _ _ _ Hp).
  apply poll_loop_events; lra.
Qed.

Lemma poll_for_token_pace_witness :
  exists events,
    trace (snd (_poll_for_token env_approved_on_third 3 sample_device_auth world_polling))
    = (events ++ [])%list
    /\ poll_events sample_device_auth "verifier" events.
Proof.
  apply (poll_for_token_pace env_approved_on_third 3 sample_device_auth world_polling
           (mkPKCE "verifier" "challenge")).
  reflexivity.
Defined.

Lemma inject_Z_of_nat_pos (k : nat) : k <> 0%nat -> (1 <= inject_Z (Z.of_nat k))%Q.
Proof.
  intros H. change 1%Q with (inject_Z 1). rewrite <- Zle_Qle. lia.
Qed.

(** X8.  A bound on the requests of one poll.  When no request takes
    negative time, a poll that makes [k] requests has [2 * (k - 1)] below
    the device authorization's [expires_in]: at most one request per two
    seconds of lifetime, and one more.  With a lifetime of zero or less it
    makes no request. *)
Theorem poll_for_token_request_bound (env : Env) (fuel : nat) (device_auth : DeviceAuth)
    (w : World) :
  (forall n, (0 <= latency (token_endpoint env n))%Q) ->
  exists k,
    token_posts (snd (_poll_for_token env fuel device_auth w)) = (token_posts w + k)%nat
    /\ (k = 0%nat
        \/ (2 * (inject_Z (Z.of_nat k) - 1) < inject_Z (expires_in device_auth))%Q)
    /\ ((inject_Z (expires_in device_auth) <= 0)%Q -> k = 0%nat).
Proof.
  intros Hlat.
  assert (B : exists k,
             token_posts (snd (_poll_for_token env fuel device_auth w))
             = (token_posts w + k)%nat
             /\ (k = 0%nat
                 \/ (2 * (inject_Z (Z.of_nat k) - 1)
                     < inject_Z (expires_in device_auth))%Q)).
  { destruct (pkce w) as [p |] eqn:Hp.
    - rewrite (poll_for_token_unfold _ _ _ _ _ Hp).
      destruct (poll_loop_request_bound env device_auth (code_verifier p) Hlat fuel
                  (clock w) 2 w) as (k & Ek & Hk); [lra |].
      exists k. split; [exact Ek |].
      destruct Hk as [-> | Hk]; [left; reflexivity | right; lra].
    - exists 0%nat. split; [| left; reflexivity].
      unfold _poll_for_token, bind, get_pkce, gets. rewrite Hp. cbn. lia. }
  destruct B as (k & Ek & Hk). exists k. split; [exact Ek |]. split; [exact Hk |].
  intros Hle. destruct Hk as [-> | Hk]; [reflexivity |].
  destruct k as [| k]; [reflexivity |].
  pose proof (inject_Z_of_nat_pos (S k) (Nat.neq_succ_0 k)). lra.
Qed.

Lemma poll_for_token_request_bound_witness :
  exists k,
    token_posts (snd (_poll_for_token env_approved_on_third 3 sample_device_auth
                        world_polling)) = (0 + k)%nat
    /\ (k = 0%nat \/ (2 * (inject_Z (Z.of_nat k) - 1) < inject_Z 600)%Q)
    /\ ((inject_Z 600 <= 0)%Q -> k = 0%nat).
Proof.
  apply (poll_for_token_request_bound env_approved_on_third 3 sample_device_auth
           world_polling).
  intros n. do 4 (destruct n as [| n]; [discriminate |]). destruct n; discriminate.
Defined.

(** X9.  How a poll fails on an answer it cannot use.  A request that
    fails raises its exception.  An answer that is not JSON raises
    [JSONDecodeError] whatever its status, because the body is decoded
    before the status is read.  An answer with status 200 that lacks
    [expires_in], [access_token], [refresh_token] or [token_type] raises
    the [KeyError] of the first missing key, even if it carries an error
    code.  A poll that does not return a credential leaves the cached
    credential and the file as they were. *)
Theorem poll_for_token_failures (env : Env) (fuel : nat) (device_auth : DeviceAuth)
    (w : World) (p : PKCE) :
  pkce w = Some p ->
  (0 < inject_Z (expires_in device_auth))%Q ->
  let run := _poll_for_token env (S fuel) device_auth w in
  let reply := token_endpoint env (token_posts w) in
  (forall dt e, reply = Fails dt e -> fst run = Raises e)
  /\ (forall dt status, reply = Replies dt (mkResponse status None) ->
        fst run = Raises JSONDecodeError)
  /\ (forall dt data, reply = Replies dt (mkResponse 200 (Some data)) ->
        td_expires_in data = None -> fst run = Raises (KeyError "expires_in"))
  /\ (forall dt data, reply = Replies dt (mkResponse 200 (Some data)) ->
        td_expires_in data <> None -> td_access_token data = None ->
        fst run = Raises (KeyError "access_token"))
  /\ (forall dt data, reply = Replies dt (mkResponse 200 (Some data)) ->
        td_expires_in data <> None -> td_access_token data <> None ->
        td_refresh_token data = None ->
        fst run = Raises (KeyError "refresh_token"))
  /\ (forall dt data, reply = Replies dt (mkResponse 200 (Some data)) ->
        td_expires_in data <> None -> td_access_token data <> None ->
        td_refresh_token data <> None -> td_token_type data = None ->
        fst run = Raises (KeyError "token_type"))
  /\ (forall fuel',
        (forall c, fst (_poll_for_token env fuel' device_auth w) <> Returns c) ->
        oauth_creds (snd (_poll_for_token env fuel' device_auth w)) = oauth_creds w
        /\ creds_file (snd (_poll_for_token env fuel' device_auth w)) = creds_file w).
Proof.
  intros Hp Hl run reply. subst run reply.
  rewrite (poll_for_token_unfold _ _ _ _ _ Hp).
  assert (G : Qltb (clock w - clock w) (inject_Z (expires_in device_auth)) = true)
    by (apply Qltb_lt; lra).
  split.
  { intros dt e H. cbn [poll_loop]. unfold bind, time_time, gets, sleep, post.
    cbn beta iota. rewrite G. cbn beta iota.
    change (token_posts (elapse 2 (emit (EvSleep 2) w))) with (token_posts w).
    rewrite H. reflexivity. }
  split.
  { intros dt status H. cbn [poll_loop]. unfold bind, time_time, gets, sleep, post.
    cbn beta iota. rewrite G. cbn beta iota.
    change (token_posts (elapse 2 (emit (EvSleep 2) w))) with (token_posts w).
    rewrite H. reflexivity. }
  assert (Ok : forall dt data,
             token_endpoint env (token_posts w) = Replies dt (mkResponse 200 (Some data)) ->
             fst (poll_loop env (S fuel) device_auth (code_verifier p) (clock w) 2 w)
             = fst ((creds <- creds_of_token_data data None default_resource_url ;;
                     _save_oauth_creds creds ;; ret creds)%py
                      (after_poll_request device_auth (code_verifier p) 2 dt w))).
  { intros dt data H. rewrite (poll_loop_request _ _ _ _ _ _ _ _ _ _ G H). reflexivity. }
  split.
  { intros dt data H He. rewrite (Ok dt data H).
    unfold bind, creds_of_token_data, time_time, gets, getitem. rewrite He. reflexivity. }
  split.
  { intros dt data H He Ha. rewrite (Ok dt data H).
    unfold bind, creds_of_token_data, time_time, gets, getitem.
    destruct (td_expires_in data); [| now destruct He]. rewrite Ha. reflexivity. }
  split.
  { intros dt data H He Ha Hr. rewrite (Ok dt data H).
    unfold bind, creds_of_token_data, time_time, gets, getitem.
    destruct (td_expires_in data); [| now destruct He].
    destruct (td_access_token data); [| now destruct Ha]. rewrite Hr. reflexivity. }
  split.
  { intros dt data H He Ha Hr Ht. rewrite (Ok dt data H).
    unfold bind, creds_of_token_data, time_time, gets, getitem.
    destruct (td_expires_in data); [| now destruct He].
    destruct (td_access_token data); [| now destruct Ha].
    destruct (td_refresh_token data); [| now destruct Hr]. rewrite Ht. reflexivity. }
  intros fuel'. rewrite (poll_for_token_unfold _ _ _ _ _ Hp).
  apply poll_loop_untouched.
Qed.

Lemma poll_for_token_failures_witness :
  fst (_poll_for_token env_grant_without_token 1 sample_device_auth world_polling)
  = Raises (KeyError "access_token")
  /\ oauth_creds (snd (_poll_for_token env_grant_without_token 1 sample_device_auth
                         world_polling)) = None.
Proof.
  pose proof (poll_for_token_failures env_grant_without_token 0 sample_device_auth
                world_polling (mkPKCE "verifier" "challenge") eq_refl eq_refl) as H.
  cbv zeta in H. destruct H as (_ & _ & _ & H1 & _ & _ & H2).
  assert (E : fst (_poll_for_token env_grant_without_token 1 sample_device_auth
                     world_polling) = Raises (KeyError "access_token")).
  { apply (H1 0 (mkTokenData None (Some "refresh") (Some "Bearer") None
                             (Some 3600%Z) None None));
      [reflexivity | discriminate | reflexivity]. }
  split; [exact E |].
  apply (H2 1%nat). intros c. rewrite E. discriminate.
Defined.

(* ------------------------------------------------------------------ *)
(** ** The browser *)

(** One iteration of the poll loop, by what the world holds. *)
Lemma poll_loop_eq (env : Env) (fuel : nat) (device_auth : DeviceAuth) (verifier : string)
    (start_time poll_interval : Q) (w : World) :
  poll_loop env (S fuel) device_auth verifier start_time poll_interval w
  = if Qltb (clock w - start_time) (inject_Z (expires_in device_auth)) then
      match token_endpoint env (token_posts w) with
      | Fails dt e =>
          (Raises e, after_poll_request device_auth verifier poll_interval dt w)
      | Replies dt r =>
          let w1 := after_poll_request device_auth verifier poll_interval dt w in
          match body r with
          | None => (Raises JSONDecodeError, w1)
          | Some data =>
              if (status_code r =? 200)%Z then
                (creds <- creds_of_token_data data None default_resource_url ;;
                 _save_oauth_creds creds ;;
                 ret creds)%py w1
              else if option_eqb (td_error data) "authorization_pending" then
                poll_loop env fuel device_auth verifier start_time poll_interval w1
              else if option_eqb (td_error data) "slow_down" then
                poll_loop env fuel device_auth verifier start_time
                          (Qmin (poll_interval * (3 # 2)) 10) w1
              else (Raises (OAuthError (td_error_description data)), w1)
          end
      end
    else (Raises OAuthTimeoutError, w).
Proof.
  destruct (Qltb (clock w - start_time) (inject_Z (expires_in device_auth))) eqn:Hguard;
    [| apply poll_loop_timeout, Hguard].
  destruct (token_endpoint env (token_posts w)) as [dt e | dt [status [data |]]] eqn:Hreply.
  - cbn [poll_loop]. unfold bind, time_time, gets, sleep, post.
    cbn beta iota. rewrite Hguard. cbn beta iota.
    change (token_posts (elapse poll_interval (emit (EvSleep poll_interval) w)))
      with (token_posts w).
    rewrite Hreply. reflexivity.
  - apply (poll_loop_request _ _ _ _ _ _ _ _ _ _ Hguard Hreply).
  - cbn [poll_loop]. unfold bind, time_time, gets, sleep, post.
    cbn beta iota. rewrite Hguard. cbn beta iota.
    change (token_posts (elapse poll_interval (emit (EvSleep poll_interval) w)))
      with (token_posts w).
    rewrite Hreply. reflexivity.
Qed.

Lemma same_client_refl (w : World) : same_client w w.
Proof. repeat split. Qed.

Lemma same_client_after_poll_request (device_auth : DeviceAuth) (verifier : string)
    (poll_interval dt : Q) (wa wb : World) :
  same_client wa wb ->
  same_client (after_poll_request device_auth verifier poll_interval dt wa)
              (after_poll_request device_auth verifier poll_interval dt wb).
Proof.
  intros (Hc & Hp & Hf & Ht & Hn & Ha & Hk).
  unfold same_client. cbn [oauth_creds pkce creds_file clock after_poll_request elapse emit].
  rewrite Ht. repeat split; try assumption.
  rewrite !token_posts_after_poll_request. congruence.
Qed.

Lemma same_client_grant (data : TokenData) (wa wb : World) :
  same_client wa wb ->
  let grant := (creds <- creds_of_token_data data None default_resource_url ;;
                _save_oauth_creds creds ;;
                ret creds)%py in
  fst (grant wa) = fst (grant wb) /\ same_client (snd (grant wa)) (snd (grant wb)).
Proof.
  intros H. pose proof H as (Hc & Hp & Hf & Ht & Hn & Ha & Hk). cbv zeta.
  unfold bind, creds_of_token_data, time_time, gets, getitem.
  destruct (td_expires_in data); [| split; [reflexivity | exact H]].
  destruct (td_access_token data); [| split; [reflexivity | exact H]].
  destruct (td_refresh_token data); [| split; [reflexivity | exact H]].
  destruct (td_token_type data); [| split; [reflexivity | exact H]].
  cbn [ret _save_oauth_creds bind write_file set_creds fst snd].
  rewrite Ht. split; [reflexivity |].
  unfold same_client. cbn [oauth_creds pkce creds_file clock].
  repeat split; assumption.
Qed.

Lemma poll_loop_same_client (env1 env2 : Env) (device_auth : DeviceAuth)
    (verifier : string) (start_time : Q) :
  (forall n, token_endpoint env1 n = token_endpoint env2 n) ->
  forall fuel poll_interval wa wb,
    same_client wa wb ->
    fst (poll_loop env1 fuel device_auth verifier start_time poll_interval wa)
    = fst (poll_loop env2 fuel device_auth verifier start_time poll_interval wb)
    /\ same_client
         (snd (poll_loop env1 fuel device_auth verifier start_time poll_interval wa))
         (snd (poll_loop env2 fuel device_auth verifier start_time poll_interval wb)).
Proof.
  intros Henv. induction fuel as [| fuel IH]; intros poll_interval wa wb H.
  - split; [reflexivity | exact H].
  - pose proof H as (Hc & Hp & Hf & Ht & Hn & Ha & Hk).
    rewrite !poll_loop_eq. rewrite Ht, Hn, Henv.
    destruct (Qltb _ _); [| split; [reflexivity | exact H]].
    destruct (token_endpoint env2 (token_posts wb)) as [dt e | dt r].
    + split; [reflexivity | apply same_client_after_poll_request, H].
    + cbv zeta.
      pose proof (same_client_after_poll_request device_auth verifier poll_interval dt
                    wa wb H) as H1.
      destruct (body r) as [data |]; [| split; [reflexivity | exact H1]].
      destruct (status_code r =? 200)%Z; [apply same_client_grant, H1 |].
      destruct (option_eqb _ _); [apply IH, H1 |].
      destruct (option_eqb _ _); [apply IH, H1 |].
      split; [reflexivity | exact H1].
Qed.

Lemma agree_bind {A B} (m1 m2 : M A) (k1 k2 : A -> M B) :
  agree m1 m2 -> (forall a, agree (k1 a) (k2 a)) -> agree (bind m1 k1) (bind m2 k2).
Proof.
  intros Hm Hk wa wb H. unfold bind. destruct (Hm wa wb H) as [Ho Hw].
  destruct (m1 wa) as [o1 w1], (m2 wb) as [o2 w2]. cbn [fst snd] in Ho, Hw. subst o2.
  destruct o1 as [a | e |].
  - apply Hk, Hw.
  - split; [reflexivity | exact Hw].
  - split; [reflexivity | exact Hw].
Qed.

Lemma agree_unchanged {A} (f : World -> Outcome A) :
  (forall wa wb, same_client wa wb -> f wa = f wb) ->
  agree (fun w => (f w, w)) (fun w => (f w, w)).
Proof. intros Hf wa wb H. split; [apply Hf, H | exact H]. Qed.

Lemma agree_ret {A} (a : A) : agree (ret a) (ret a).
Proof. intros wa wb H. split; [reflexivity | exact H]. Qed.

Lemma agree_raise {A} (e : PyExc) : agree (@raise A e) (@raise A e).
Proof. intros wa wb H. split; [reflexivity | exact H]. Qed.

Lemma agree_log (e1 e2 : Event) :
  is_token_post e1 = false -> is_device_post e1 = false -> is_chat_post e1 = false ->
  is_token_post e2 = false -> is_device_post e2 = false -> is_chat_post e2 = false ->
  agree (log e1) (log e2).
Proof.
  intros T1 D1 C1 T2 D2 C2 wa wb (Hc & Hp & Hf & Ht & Hn & Ha & Hk).
  split; [reflexivity |].
  unfold same_client, token_posts, authorizations, chat_posts, log. cbn [snd].
  rewrite !count_emit, T1, D1, C1, T2, D2, C2.
  repeat split; assumption.
Qed.

Lemma agree_post {B} (e : Event) (reply : HttpReply B) : agree (post e reply) (post e reply).
Proof.
  intros wa wb (Hc & Hp & Hf & Ht & Hn & Ha & Hk).
  assert (S : forall dt, same_client (elapse dt (emit e wa)) (elapse dt (emit e wb))).
  { intros dt.
    unfold same_client, token_posts, authorizations, chat_posts in *.
    rewrite !count_elapse, !count_emit.
    cbn [oauth_creds pkce creds_file clock elapse emit].
    repeat split; congruence. }
  unfold post. destruct reply as [dt x | dt r]; (split; [reflexivity | apply S]).
Qed.

Lemma agree_set_pkce (k : PKCE) : agree (set_pkce k) (set_pkce k).
Proof.
  intros wa wb (Hc & Hp & Hf & Ht & Hn & Ha & Hk).
  split; [reflexivity |]. repeat split; assumption.
Qed.

Lemma agree_poll_for_token (env1 env2 : Env) (fuel : nat) (device_auth : DeviceAuth) :
  (forall n, token_endpoint env1 n = token_endpoint env2 n) ->
  agree (_poll_for_token env1 fuel device_auth) (_poll_for_token env2 fuel device_auth).
Proof.
  intros Henv wa wb H. pose proof H as (_ & Hp & _ & Ht & _).
  unfold _poll_for_token, bind, get_pkce, time_time, gets. cbn beta iota.
  rewrite Hp.
  destruct (pkce wb) as [p |]; [| split; [reflexivity | exact H]].
  cbn beta iota. rewrite Ht.
  apply poll_loop_same_client; assumption.
Qed.

Lemma agree_bind_gets {A B} (f : World -> A) (k1 k2 : A -> M B) :
  (forall wa wb, same_client wa wb -> f wa = f wb) ->
  (forall a, agree (k1 a) (k2 a)) ->
  agree (bind (gets f) k1) (bind (gets f) k2).
Proof.
  intros Hf Hk wa wb H. unfold bind, gets. cbn beta iota.
  rewrite (Hf wa wb H). apply Hk, H.
Qed.

Lemma agree_perform_device_auth (env : Env) (opens : string -> bool) :
  agree (_perform_device_auth (with_browser opens env)) (_perform_device_auth env).
Proof.
  unfold _perform_device_auth.
  change (fresh_pkce (with_browser opens env)) with (fresh_pkce env).
  change (device_endpoint (with_browser opens env)) with (device_endpoint env).
  apply agree_bind_gets; [intros wa wb H; apply H | intros n].
  apply agree_bind; [apply agree_set_pkce | intros _].
  apply agree_bind; [apply agree_post | intros response].
  apply agree_bind.
  - unfold raise_for_status.
    destruct (is_error_status _); [apply agree_raise | apply agree_ret].
  - intros _. destruct (body response);
      [apply agree_raise | apply agree_raise | apply agree_ret].
Qed.

(** X10.  Whether the browser opens makes no difference to an
    authorization: with any other answer from the browser, the outcome is
    the same and the client ends in the same state, having made the same
    number of requests. *)
Theorem authenticate_whatever_the_browser (env : Env) (fuel : nat) (w : World)
    (opens : string -> bool) :
  fst (_authenticate (with_browser opens env) fuel w) = fst (_authenticate env fuel w)
  /\ same_client (snd (_authenticate (with_browser opens env) fuel w))
                 (snd (_authenticate env fuel w)).
Proof.
  revert w.
  assert (A : agree (_authenticate (with_browser opens env) fuel) (_authenticate env fuel)).
  { unfold _authenticate.
    apply agree_bind; [apply agree_perform_device_auth | intros device_auth].
    apply agree_bind; [apply agree_log; reflexivity | intros _].
    apply agree_bind.
    - destruct (browser_opens _ _), (browser_opens _ _); apply agree_log; reflexivity.
    - intros _. apply agree_bind; [| intros _; apply agree_ret].
      apply agree_poll_for_token. reflexivity. }
  intros w. apply A, same_client_refl.
Qed.

(* ------------------------------------------------------------------ *)
(** ** What a dispatch sends *)

Section NotChat.

Variable env : Env.

Lemma not_chat_poll_loop (fuel : nat) (device_auth : DeviceAuth) (verifier : string)
    (start_time : Q) :
  forall poll_interval,
    emits_only not_chat (poll_loop env fuel device_auth verifier start_time poll_interval).
Proof.
  induction fuel as [| fuel IH]; intros poll_interval; cbn [poll_loop].
  - apply emits_out_of_fuel.
  - apply emits_bind; [apply emits_gets | intros now].
    destruct (Qltb _ _); [| apply emits_raise].
    apply emits_bind; [apply emits_sleep; reflexivity | intros _].
    apply emits_bind; [apply emits_gets | intros n].
    apply emits_bind; [apply emits_post; reflexivity | intros response].
    apply emits_bind; [unfold response_json; destruct (body response); emits_tac | intros data].
    destruct (status_code response =? 200)%Z; [emits_tac |].
    destruct (option_eqb _ _); [apply IH |].
    destruct (option_eqb _ _); [apply IH | apply emits_raise].
Qed.

Lemma not_chat_authenticate (fuel : nat) : emits_only not_chat (_authenticate env fuel).
Proof.
  unfold _authenticate.
  apply emits_bind.
  - unfold _perform_device_auth.
    apply emits_bind; [apply emits_gets | intros n].
    apply emits_bind; [apply emits_set_pkce | intros _].
    apply emits_bind; [apply emits_post; reflexivity | intros response].
    apply emits_bind; [emits_tac | intros _].
    destruct (body response); emits_tac.
  - intros device_auth.
    apply emits_bind; [apply emits_log; reflexivity | intros _].
    apply emits_bind;
      [destruct (browser_opens _ _); apply emits_log; reflexivity | intros _].
    apply emits_bind; [| intros _; apply emits_ret].
    unfold _poll_for_token.
    apply emits_bind; [apply emits_gets | intros [k |]]; [| apply emits_raise].
    apply emits_bind; [apply emits_gets | intros start_time].
    apply not_chat_poll_loop.
Qed.

Lemma not_chat_refresh_token : emits_only not_chat (_refresh_token env).
Proof.
  unfold _refresh_token.
  apply emits_bind; [apply emits_gets | intros [old |]]; [| apply emits_raise].
  apply emits_bind; [apply emits_gets | intros n].
  apply emits_bind; [apply emits_post; reflexivity | intros response].
  emits_tac.
Qed.

Variable fuel : nat.
Variable api_url : string.
Variable payload : Payload.
Variable stream : bool.

Lemma not_chat_is_request_to (e : Event) :
  not_chat e -> chat_request_to api_url payload stream e.
Proof. destruct e; cbn; try exact (fun _ => Logic.I). discriminate. Qed.

Lemma chat_request_post_chat (token : string) :
  emits_only (chat_request_to api_url payload stream)
             (post_chat env api_url ("Bearer " ++ token) payload stream).
Proof.
  unfold post_chat. apply emits_bind; [apply emits_gets | intros n].
  apply emits_post. cbn. repeat split. exists token. reflexivity.
Qed.

Lemma chat_request_resend (r : Response ChatBody) :
  emits_only (chat_request_to api_url payload stream)
             (resend_after_rejection env fuel api_url payload stream r).
Proof.
  unfold resend_after_rejection.
  destruct (retry_status _); [| apply emits_ret].
  apply emits_try_except.
  - apply emits_bind;
      [apply (emits_weaken not_chat), not_chat_refresh_token;
       apply not_chat_is_request_to | intros _].
    apply emits_bind; [emits_tac | intros token].
    apply chat_request_post_chat.
  - intros _.
    apply emits_bind;
      [apply (emits_weaken not_chat), not_chat_authenticate;
       apply not_chat_is_request_to | intros _].
    apply emits_bind; [emits_tac | intros token].
    apply chat_request_post_chat.
Qed.

End NotChat.

(** X11.  One dispatch, one destination.  Let [creds] be the credential
    cached once the token has been ensured.  Everything [make_request]
    records after that starts with a chat request to the URL built from
    [creds], with the bearer token of [creds]; every later chat request
    of the dispatch, after a refresh or a re-authorization, goes to that
    same URL with the same payload and stream flag, under a bearer token.
    The URL is not rebuilt when the credential changes. *)
Theorem make_request_one_destination
    (env : Env) (_model : string) (fuel : nat) (request_data : RequestData)
    (w w0 : World) (creds : OAuthCreds) :
  _ensure_valid_token env fuel w = (Returns tt, w0) ->
  oauth_creds w0 = Some creds ->
  let api_url := chat_completions_url (resource_url creds) in
  let payload := mkPayload (get_default (rd_model request_data) _model)
                           (rd_stream request_data) (rd_rest request_data) in
  let stream := get_default (rd_stream request_data) false in
  exists later,
    trace (snd (make_request env _model fuel request_data w))
    = (later ++ EvChatPost api_url ("Bearer " ++ access_token creds) payload stream
         :: trace w0)%list
    /\ Forall (chat_request_to api_url payload stream) later.
Proof.
  intros ensured cached api_url payload stream.
  rewrite (make_request_first_post env _model fuel request_data w w0 creds ensured cached).
  fold api_url payload stream.
  destruct (chat_endpoint env (chat_posts w0)) as [dt e | dt r].
  - exists []. split; [reflexivity | constructor].
  - unfold bind.
    destruct (chat_request_resend env fuel api_url payload stream r
                (elapse dt (emit (EvChatPost api_url ("Bearer " ++ access_token creds)
                                             payload stream) w0)))
      as (later & E & F).
    destruct (resend_after_rejection env fuel api_url payload stream r _)
      as [[r' | e |] w'] eqn:Hr; cbn [snd] in E |- *;
      try rewrite return_response_world;
      exists later; (split; [exact E | exact F]).
Qed.

Lemma make_request_one_destination_witness :
  exists later,
    trace (snd (make_request env_resend_unreachable "qwen3-coder-plus" 1 chat_request
                  (world_with_creds valid_creds 100)))
    = (later ++ [EvChatPost "https://portal.qwen.ai/v1/chat/completions"
                            "Bearer old-access"
                            (mkPayload "qwen3-coder-plus" (Some false) "messages") false])%list
    /\ Forall (chat_request_to "https://portal.qwen.ai/v1/chat/completions"
                 (mkPayload "qwen3-coder-plus" (Some false) "messages") false) later.
Proof.
  apply (make_request_one_destination env_resend_unreachable "qwen3-coder-plus" 1
           chat_request (world_with_creds valid_creds 100)
           (world_with_creds valid_creds 100) valid_creds); reflexivity.
Defined.

Lemma refresh_token_run (env : Env) (w : World) (old : OAuthCreds)
    (dt : Q) (data : TokenData) (expires : Z) (access type : string) :
  oauth_creds w = Some old ->
  token_endpoint env (token_posts w) = Replies dt (mkResponse 200 (Some data)) ->
  td_expires_in data = Some expires ->
  td_access_token data = Some access ->
  td_token_type data = Some type ->
  _refresh_token env w
  = (Returns tt,
     saved (mkOAuthCreds access
              (get_default (td_refresh_token data) (refresh_token old)) type
              (get_default (td_resource_url data) (resource_url old))
              (int_of_time (clock w + dt) + expires))
           (elapse dt (emit (EvTokenPost (RefreshGrant (refresh_token old))) w))).
Proof.
  intros Hc Hreply He Ha Ht.
  unfold _refresh_token, get_creds, gets, bind, post. rewrite Hc, Hreply.
  cbn [status_code negb Z.eqb Pos.eqb]. unfold response_json. cbn [body].
  unfold ret at 1.
  rewrite (creds_of_token_data_run data (Some (refresh_token old)) (resource_url old)
             access type expires _ He Ha Ht) by discriminate.
  reflexivity.
Qed.

(** X12.  A dispatch that starts with an expired credential and a refresh
    token refreshes before it sends anything.  When the refresh is
    granted, the one chat request that follows carries the new access
    token and goes to the URL built from the new credential, so to the
    [resource_url] of the answer when it carries one; if that request is
    answered with a status other than 400, 401 and 403 there is no second
    request, and no device authorization. *)
Theorem make_request_refreshes_first
    (env : Env) (_model : string) (fuel : nat) (request_data : RequestData)
    (w : World) (old : OAuthCreds) (dtk dt : Q) (data : TokenData) (expires : Z)
    (access type : string) (r : Response ChatBody) :
  oauth_creds w = Some old ->
  is_token_expired (Some old) (clock w) = true ->
  refresh_token old <> "" ->
  token_endpoint env (token_posts w) = Replies dtk (mkResponse 200 (Some data)) ->
  td_expires_in data = Some expires ->
  td_access_token data = Some access ->
  td_token_type data = Some type ->
  chat_endpoint env (chat_posts w) = Replies dt r ->
  retry_status (status_code r) = false ->
  let payload := mkPayload (get_default (rd_model request_data) _model)
                           (rd_stream request_data) (rd_rest request_data) in
  let stream := get_default (rd_stream request_data) false in
  let origin := get_default (td_resource_url data) (resource_url old) in
  exists w',
    make_request env _model fuel request_data w = return_response stream r w'
    /\ trace w' = EvChatPost (chat_completions_url origin) ("Bearer " ++ access)
                             payload stream
                    :: EvTokenPost (RefreshGrant (refresh_token old)) :: trace w
    /\ (exists creds, oauth_creds w' = Some creds
                      /\ access_token creds = access
                      /\ resource_url creds = origin
                      /\ creds_file w' = Some (Accepted creds)).
Proof.
  intros Hc Hexp Hrt Htok He Ha Ht Hchat Hretry payload stream origin.
  set (creds := mkOAuthCreds access
                  (get_default (td_refresh_token data) (refresh_token old)) type
                  (get_default (td_resource_url data) (resource_url old))
                  (int_of_time (clock w + dtk) + expires)).
  set (w0 := saved creds
               (elapse dtk (emit (EvTokenPost (RefreshGrant (refresh_token old))) w))).
  assert (ensured : _ensure_valid_token env fuel w = (Returns tt, w0)).
  { rewrite ensure_valid_token_unfold. rewrite Hc, Hexp.
    unfold has_refresh_token. rewrite Hc.
    destruct (refresh_token old) as [| c s] eqn:Hr; [now destruct Hrt |].
    cbn [PyStr.truthy]. unfold try_except.
    rewrite (refresh_token_run env w old dtk data expires access type Hc Htok He Ha Ht).
    rewrite Hr. reflexivity. }
  pose proof (make_request_first_post env _model fuel request_data w w0 creds
                ensured eq_refl) as Hrun.
  change (chat_endpoint env (chat_posts w0)) with (chat_endpoint env (chat_posts w)) in Hrun.
  rewrite Hchat in Hrun.
  eexists. split.
  - rewrite Hrun. unfold bind, resend_after_rejection. rewrite Hretry. reflexivity.
  - split; [reflexivity |]. exists creds. repeat split.
Qed.

Lemma make_request_refreshes_first_witness :
  exists w',
    make_request env_refresh_moves_resource "qwen3-coder-plus" 0 chat_request
                 (world_with_creds expired_creds 100)
    = return_response false (mkResponse 200 (mkChatBody (Some "completion") [])) w'
    /\ trace w' = [EvChatPost "https://new.qwen.ai/v1/chat/completions" "Bearer new-access"
                              (mkPayload "qwen3-coder-plus" (Some false) "messages") false;
                   EvTokenPost (RefreshGrant "old-refresh")]
    /\ (exists creds, oauth_creds w' = Some creds
                      /\ access_token creds = "new-access"
                      /\ resource_url creds = "https://new.qwen.ai"
                      /\ creds_file w' = Some (Accepted creds)).
Proof.
  apply (make_request_refreshes_first env_refresh_moves_resource "qwen3-coder-plus" 0
           chat_request (world_with_creds expired_creds 100) expired_creds 0 0
           (granted "new-access" "new-refresh" (Some "https://new.qwen.ai")) 3600%Z
           "new-access" "Bearer" (mkResponse 200 (mkChatBody (Some "completion") [])));
    try reflexivity; discriminate.
Defined.

(** X13.  Nothing is sent to the chat endpoint unless the token has been
    ensured: when [_ensure_valid_token] raises, [make_request] raises the
    same exception from the same world, and no chat request has been
    made. *)
Theorem make_request_needs_ensured_token
    (env : Env) (_model : string) (fuel : nat) (request_data : RequestData)
    (w w' : World) (e : PyExc) :
  _ensure_valid_token env fuel w = (Raises e, w') ->
  make_request env _model fuel request_data w = (Raises e, w')
  /\ chat_posts w' = chat_posts w.
Proof.
  intros H. split.
  - unfold make_request. apply bind_raises, H.
  - assert (K : keeps is_chat_post (_ensure_valid_token env fuel)).
    { intros w1. rewrite ensure_valid_token_unfold.
      destruct (is_token_expired _ _); [| reflexivity].
      destruct (has_refresh_token w1).
      - apply (keeps_try_except is_chat_post);
          [apply keeps_refresh_token; reflexivity | intros _].
        apply keeps_authenticate; [apply silent_chat | reflexivity].
      - apply keeps_authenticate; [apply silent_chat | reflexivity]. }
    specialize (K w). rewrite H in K. exact K.
Qed.

Lemma make_request_needs_ensured_token_witness :
  make_request env_device_refused "qwen3-coder-plus" 5 chat_request (world_with_file None)
  = (Raises (HTTPError 403),
     snd (_ensure_valid_token env_device_refused 5 (world_with_file None)))
  /\ chat_posts (snd (_ensure_valid_token env_device_refused 5 (world_with_file None)))
     = 0%nat.
Proof.
  apply (make_request_needs_ensured_token env_device_refused "qwen3-coder-plus" 5
           chat_request (world_with_file None)).
  reflexivity.
Defined.

(** X14.  What a dispatch returns for an answer it does not retry.  The
    request streams only if [request_data] says so; without the key it
    does not.  A streaming request returns the generator over the chunks
    and never parses the body.  A request that does not stream returns the
    parsed body, and raises [JSONDecodeError] when the body is not JSON.
    Only 4xx and 5xx count as errors: any other status, 3xx included,
    takes these paths.  The model sent is the client's, unless
    [request_data] names one. *)
Theorem make_request_result
    (env : Env) (_model : string) (fuel : nat) (request_data : RequestData)
    (w w0 : World) (creds : OAuthCreds) (dt : Q) (r : Response ChatBody) :
  _ensure_valid_token env fuel w = (Returns tt, w0) ->
  oauth_creds w0 = Some creds ->
  chat_endpoint env (chat_posts w0) = Replies dt r ->
  retry_status (status_code r) = false ->
  is_error_status (status_code r) = false ->
  let run := make_request env _model fuel request_data w in
  (rd_stream request_data = Some true ->
   fst run = Returns (StreamGenerator (cb_chunks (body r))))
  /\ (rd_stream request_data <> Some true ->
      fst run = match cb_json (body r) with
                | Some json => Returns (ParsedBody json)
                | None => Raises JSONDecodeError
                end)
  /\ (exists url authorization stream,
        trace (snd run)
        = EvChatPost url authorization
            (mkPayload (match rd_model request_data with
                        | Some named => named
                        | None => _model
                        end)
                       (rd_stream request_data) (rd_rest request_data))
            stream :: trace w0).
Proof.
  intros ensured cached Hreply Hretry Herr run.
  assert (E : run
              = return_response (get_default (rd_stream request_data) false) r
                  (elapse dt
                     (emit (EvChatPost (chat_completions_url (resource_url creds))
                                       ("Bearer " ++ access_token creds)
                                       (mkPayload (get_default (rd_model request_data) _model)
                                                  (rd_stream request_data)
                                                  (rd_rest request_data))
                                       (get_default (rd_stream request_data) false))
                           w0))).
  { subst run.
    rewrite (make_request_first_post env _model fuel request_data w w0 creds
               ensured cached).
    rewrite Hreply. unfold bind, resend_after_rejection. rewrite Hretry. reflexivity. }
  rewrite E. clear E.
  split; [| split].
  - intros ->. unfold return_response, raise_for_status, bind. rewrite Herr.
    reflexivity.
  - intros H. unfold return_response, raise_for_status, bind. rewrite Herr.
    destruct (rd_stream request_data) as [[|] |]; [now destruct H | |];
      cbn; destruct (cb_json (body r)); reflexivity.
  - rewrite return_response_world.
    exists (chat_completions_url (resource_url creds)),
      ("Bearer " ++ access_token creds), (get_default (rd_stream request_data) false).
    reflexivity.
Qed.

Lemma make_request_result_witness :
  fst (make_request env_refresh_moves_resource "qwen3-coder-plus" 0 chat_request
         (world_with_creds valid_creds 100))
  = Returns (ParsedBody "completion").
Proof.
  pose proof (make_request_result env_refresh_moves_resource "qwen3-coder-plus" 0
                chat_request (world_with_creds valid_creds 100)
                (world_with_creds valid_creds 100) valid_creds 0
                (mkResponse 200 (mkChatBody (Some "completion") []))
                eq_refl eq_refl eq_refl eq_refl eq_refl) as H.
  cbv zeta in H. destruct H as (_ & H & _).
  apply H. discriminate.
Defined.

(* ------------------------------------------------------------------ *)
(** ** The chat endpoint *)

Section ServerProperties.

Variable env : Env.
Variable fuel : nat.
Variable ChatCompletionResponse : Type.
Variable model_validate : Result -> option ChatCompletionResponse.

Let serve := chat_completions env fuel ChatCompletionResponse model_validate.

Lemma supported_model_iff (model : string) :
  existsb (String.eqb model) supported_models = true <-> model = "qwen3-coder-plus".
Proof.
  cbn. rewrite orb_false_r. apply String.eqb_eq.
Qed.

Lemma serve_supported (chat_request : ChatCompletionRequest) (w : World) :
  cr_model chat_request = "qwen3-coder-plus" ->
  serve chat_request w
  = match (QwenClient ;;
           make_request env (cr_model chat_request) fuel
                        (model_dump_without_model chat_request))%py w with
    | (Returns response_data, w') =>
        match model_validate response_data with
        | Some response => (Responds response, w')
        | None => (HTTPException 500 internal_server_error, w')
        end
    | (Raises e, w') => (HTTPException 500 internal_server_error, w')
    | (OutOfFuel, w') => (Unfinished, w')
    end.
Proof.
  intros H. unfold serve, chat_completions.
  rewrite (proj2 (supported_model_iff _) H). reflexivity.
Qed.

Lemma serve_unsupported (chat_request : ChatCompletionRequest) (w : World) :
  cr_model chat_request <> "qwen3-coder-plus" ->
  serve chat_request w
  = (HTTPException 400 (unsupported_model (cr_model chat_request)), w).
Proof.
  intros H. unfold serve, chat_completions.
  destruct (existsb _ _) eqn:E; [| reflexivity].
  apply supported_model_iff in E. contradiction.
Qed.

End ServerProperties.

(** X15.  The handler refuses a chat request for a model other than
    [qwen3-coder-plus] with status 400 before it does anything else: no
    client is constructed, the credential file is not read and no request
    is made.  The detail names the model asked for and lists the
    supported one. *)
Theorem chat_completions_unsupported_model
    (env : Env) (fuel : nat) (R : Type) (model_validate : Result -> option R)
    (chat_request : ChatCompletionRequest) (w : World) :
  cr_model chat_request <> "qwen3-coder-plus" ->
  chat_completions env fuel R model_validate chat_request w
  = (HTTPException 400
       (mkErrorDetail
          ("Unsupported model: " ++ cr_model chat_request
           ++ ". Supported models: qwen3-coder-plus")
          "invalid_request_error" (Some "model") None),
     w).
Proof.
  intros H. rewrite (serve_unsupported env fuel R model_validate chat_request w H).
  reflexivity.
Qed.

Lemma chat_completions_unsupported_model_witness :
  chat_completions env_rate_limited 0 string accept_parsed
    (mkChatCompletionRequest "gpt-4" (Some false) "messages")
    (world_with_stored valid_creds 100)
  = (HTTPException 400
       (mkErrorDetail "Unsupported model: gpt-4. Supported models: qwen3-coder-plus"
          "invalid_request_error" (Some "model") None),
     world_with_stored valid_creds 100).
Proof.
  apply (chat_completions_unsupported_model env_rate_limited 0 string accept_parsed
           (mkChatCompletionRequest "gpt-4" (Some false) "messages")
           (world_with_stored valid_creds 100)).
  discriminate.
Defined.

(** X16.  The handler ends in one of four ways only: it responds with a
    body the validator accepted, which the client returned; it raises 400
    for an unsupported model; it raises 500; or the poller is out of fuel.
    Every 500 carries the same detail, whatever failed: an exception of
    the client, upstream statuses such as 429 or 503 included, or a body
    the validator refuses. *)
Theorem chat_completions_outcomes
    (env : Env) (fuel : nat) (R : Type) (model_validate : Result -> option R)
    (chat_request : ChatCompletionRequest) (w : World) :
  let served := chat_completions env fuel R model_validate chat_request w in
  let client := (QwenClient ;;
                 make_request env (cr_model chat_request) fuel
                              (model_dump_without_model chat_request))%py w in
  ((exists response data,
      fst served = Responds response
      /\ fst client = Returns data /\ model_validate data = Some response)
   \/ (fst served = HTTPException 400 (unsupported_model (cr_model chat_request))
       /\ cr_model chat_request <> "qwen3-coder-plus")
   \/ fst served = HTTPException 500 internal_server_error
   \/ fst served = Unfinished)
  /\ (cr_model chat_request = "qwen3-coder-plus" ->
      (forall e, fst client = Raises e ->
                 served = (HTTPException 500 internal_server_error, snd client))
      /\ (forall data, fst client = Returns data -> model_validate data = None ->
                       served = (HTTPException 500 internal_server_error, snd client))).
Proof.
  cbv zeta.
  destruct (String.eqb_spec (cr_model chat_request) "qwen3-coder-plus") as [Hm | Hm].
  - rewrite (serve_supported env fuel R model_validate chat_request w Hm).
    destruct ((QwenClient ;; make_request env (cr_model chat_request) fuel _)%py w)
      as [[data | e |] w'] eqn:Hc; cbn [fst snd].
    + destruct (model_validate data) as [response |] eqn:Hv.
      * split; [left; exists response, data; repeat split; assumption |].
        intros _. split; [discriminate |].
        intros d Hd. injection Hd as <-. rewrite Hv. discriminate.
      * split; [right; right; left; reflexivity |].
        intros _. split; [discriminate | reflexivity].
    + split; [right; right; left; reflexivity |].
      intros _. split; [reflexivity | discriminate].
    + split; [right; right; right; reflexivity |].
      intros _. split; discriminate.
  - rewrite (serve_unsupported env fuel R model_validate chat_request w Hm).
    split; [right; left; split; [reflexivity | exact Hm] |].
    intros H. contradiction.
Qed.

Lemma chat_completions_outcomes_witness :
  chat_completions env_rate_limited 0 string accept_parsed served_request
    (world_with_stored valid_creds 100)
  = (HTTPException 500 internal_server_error,
     snd ((QwenClient ;;
           make_request env_rate_limited "qwen3-coder-plus" 0
                        (model_dump_without_model served_request))%py
            (world_with_stored valid_creds 100))).
Proof.
  pose proof (chat_completions_outcomes env_rate_limited 0 string accept_parsed
                served_request (world_with_stored valid_creds 100)) as H.
  cbv zeta in H. destruct H as [_ H]. destruct (H eq_refl) as [H1 _].
  apply (H1 (HTTPError 429)). reflexivity.
Defined.

(** X17.  The handler authenticates with the credential in the file,
    not with what an earlier client held.  When the file holds a
    credential that is not expired and the chat endpoint answers with a
    JSON body and a status that is neither an error nor 400, 401 or 403,
    a request that does not stream makes exactly one request, a chat
    request to the URL of the stored credential with its bearer token and
    the requested model, and responds with the validated body. *)
Theorem chat_completions_uses_stored_credential
    (env : Env) (fuel : nat) (R : Type) (model_validate : Result -> option R)
    (chat_request : ChatCompletionRequest) (w : World) (stored : OAuthCreds)
    (dt : Q) (r : Response ChatBody) (json : string) (response : R) :
  cr_model chat_request = "qwen3-coder-plus" ->
  cr_stream chat_request <> Some true ->
  creds_file w = Some (Accepted stored) ->
  is_token_expired (Some stored) (clock w) = false ->
  chat_endpoint env (chat_posts w) = Replies dt r ->
  retry_status (status_code r) = false ->
  is_error_status (status_code r) = false ->
  cb_json (body r) = Some json ->
  model_validate (ParsedBody json) = Some response ->
  exists w',
    chat_completions env fuel R model_validate chat_request w = (Responds response, w')
    /\ trace w'
       = EvChatPost (chat_completions_url (resource_url stored))
                    ("Bearer " ++ access_token stored)
                    (mkPayload "qwen3-coder-plus" (cr_stream chat_request)
                               (cr_rest chat_request))
                    false
           :: trace w
    /\ oauth_creds w' = Some stored
    /\ creds_file w' = Some (Accepted stored).
Proof.
  intros Hm Hs Hf Hexp Hreply Hretry Herr Hj Hv.
  rewrite (serve_supported env fuel R model_validate chat_request w Hm).
  set (w0 := mkWorld (Some stored) None (Some (Accepted stored)) (clock w) (trace w)).
  assert (Hnew : QwenClient w = (Returns tt, w0)).
  { unfold QwenClient, __init__, _load_oauth_creds, read_file, gets, bind, fresh_instance.
    cbn [creds_file]. rewrite Hf. reflexivity. }
  assert (ensured : _ensure_valid_token env fuel w0 = (Returns tt, w0)).
  { rewrite ensure_valid_token_unfold.
    change (oauth_creds w0) with (Some stored). change (clock w0) with (clock w).
    rewrite Hexp. reflexivity. }
  assert (Hstream : get_default (cr_stream chat_request) false = false).
  { destruct (cr_stream chat_request) as [[|] |]; [now destruct Hs | |]; reflexivity. }
  rewrite (bind_returns _ _ _ _ _ Hnew).
  rewrite (make_request_first_post env (cr_model chat_request) fuel
             (model_dump_without_model chat_request) w0 w0 stored ensured eq_refl).
  change (chat_posts w0) with (chat_posts w). rewrite Hreply.
  unfold bind at 1. unfold resend_after_rejection. rewrite Hretry. unfold ret at 1.
  cbn [model_dump_without_model rd_stream rd_model rd_rest get_default].
  rewrite Hstream.
  rewrite (return_response_json r json _ Herr Hj). rewrite Hv.
  eexists. split; [reflexivity |].
  cbn [trace oauth_creds creds_file elapse emit]. rewrite Hm. repeat split.
Qed.

Lemma chat_completions_uses_stored_credential_witness :
  exists w',
    chat_completions env_refresh_moves_resource 0 string accept_parsed served_request
      (world_with_stored valid_creds 100)
    = (Responds "completion", w')
    /\ trace w'
       = [EvChatPost "https://portal.qwen.ai/v1/chat/completions" "Bearer old-access"
                     (mkPayload "qwen3-coder-plus" (Some false) "messages") false]
    /\ oauth_creds w' = Some valid_creds
    /\ creds_file w' = Some (Accepted valid_creds).
Proof.
  apply (chat_completions_uses_stored_credential env_refresh_moves_resource 0 string
           accept_parsed served_request (world_with_stored valid_creds 100) valid_creds
           0 (mkResponse 200 (mkChatBody (Some "completion") [])) "completion"
           "completion"); try reflexivity; discriminate.
Defined.

(** X18.  A credential file that cannot be read as a credential makes the
    handler answer 500 to every request for the supported model: the
    client cannot be constructed, so nothing is requested from any
    endpoint and the file is left as it is. *)
Theorem chat_completions_corrupt_file
    (env : Env) (fuel : nat) (R : Type) (model_validate : Result -> option R)
    (chat_request : ChatCompletionRequest) (w : World) :
  cr_model chat_request = "qwen3-coder-plus" ->
  creds_file w = Some NotJson \/ creds_file w = Some Rejected ->
  exists w',
    chat_completions env fuel R model_validate chat_request w
    = (HTTPException 500 internal_server_error, w')
    /\ trace w' = trace w
    /\ creds_file w' = creds_file w.
Proof.
  intros Hm Hf.
  rewrite (serve_supported env fuel R model_validate chat_request w Hm).
  unfold bind at 1.
  unfold QwenClient, __init__, _load_oauth_creds, read_file, gets, bind, fresh_instance.
  cbn [creds_file].
  destruct Hf as [-> | ->]; (eexists; split; [reflexivity | split; reflexivity]).
Qed.

Lemma chat_completions_corrupt_file_witness :
  exists w',
    chat_completions env_refresh_moves_resource 0 string accept_parsed served_request
      (world_with_file (Some NotJson))
    = (HTTPException 500 internal_server_error, w')
    /\ trace w' = []
    /\ creds_file w' = Some NotJson.
Proof.
  apply (chat_completions_corrupt_file env_refresh_moves_resource 0 string accept_parsed
           served_request (world_with_file (Some NotJson))).
  - reflexivity.
  - left. reflexivity.
Defined.

Lemma return_response_stream (r : Response ChatBody) (w w' : World) (data : Result) :
  return_response true r w = (Returns data, w') ->
  data = StreamGenerator (cb_chunks (body r)).
Proof.
  unfold return_response, raise_for_status, bind.
  destruct (is_error_status (status_code r)); cbn; [discriminate |].
  intros H. injection H as <- _. reflexivity.
Qed.

Lemma return_response_generator (r : Response ChatBody) (w : World) :
  is_error_status (status_code r) = false ->
  return_response true r w = (Returns (StreamGenerator (cb_chunks (body r))), w).
Proof.
  intros H. unfold return_response, raise_for_status, bind. rewrite H. reflexivity.
Qed.

Lemma make_request_stream_returns
    (env : Env) (_model : string) (fuel : nat) (request_data : RequestData)
    (w w' : World) (data : Result) :
  rd_stream request_data = Some true ->
  make_request env _model fuel request_data w = (Returns data, w') ->
  exists chunks, data = StreamGenerator chunks.
Proof.
  intros Hs H. unfold make_request in H.
  apply bind_returns_inv in H. destruct H as (_ & w1 & _ & H).
  apply bind_returns_inv in H. destruct H as (stored & w2 & _ & H).
  cbv zeta in H.
  apply bind_returns_inv in H. destruct H as (token & w3 & _ & H).
  apply bind_returns_inv in H. destruct H as (r1 & w4 & _ & H).
  apply bind_returns_inv in H. destruct H as (r2 & w5 & _ & H).
  cbn [p_stream] in H. rewrite Hs in H. cbn [get_default] in H.
  exists (cb_chunks (body r2)). exact (return_response_stream _ _ _ _ H).
Qed.

(** X19.  The handler cannot serve a streaming request.  For a request
    with [stream] set, the client returns a generator, never a parsed
    body; with a validator that refuses generators the handler never
    responds: it raises 400 or 500, or the poller is out of fuel.  With a
    credential in the file that is not expired and an answer of the chat
    endpoint that is not an error, the streaming request has been sent
    upstream when the handler raises 500. *)
Theorem chat_completions_cannot_stream
    (env : Env) (fuel : nat) (R : Type) (model_validate : Result -> option R)
    (chat_request : ChatCompletionRequest) (w : World) :
  (forall chunks, model_validate (StreamGenerator chunks) = None) ->
  cr_stream chat_request = Some true ->
  let served := chat_completions env fuel R model_validate chat_request w in
  (forall response, fst served <> Responds response)
  /\ (forall stored dt r,
        cr_model chat_request = "qwen3-coder-plus" ->
        creds_file w = Some (Accepted stored) ->
        is_token_expired (Some stored) (clock w) = false ->
        chat_endpoint env (chat_posts w) = Replies dt r ->
        retry_status (status_code r) = false ->
        is_error_status (status_code r) = false ->
        fst served = HTTPException 500 internal_server_error
        /\ trace (snd served)
           = EvChatPost (chat_completions_url (resource_url stored))
                        ("Bearer " ++ access_token stored)
                        (mkPayload "qwen3-coder-plus" (Some true) (cr_rest chat_request))
                        true
               :: trace w).
Proof.
  intros Hv Hs served. subst served. split.
  - intros response.
    destruct (String.eqb_spec (cr_model chat_request) "qwen3-coder-plus") as [Hm | Hm].
    + rewrite (serve_supported env fuel R model_validate chat_request w Hm).
      destruct ((QwenClient ;; make_request env (cr_model chat_request) fuel _)%py w)
        as [[data | e |] w'] eqn:Hc; cbn [fst]; try discriminate.
      apply bind_returns_inv in Hc. destruct Hc as (_ & w1 & _ & Hc).
      destruct (make_request_stream_returns env _ fuel
                  (model_dump_without_model chat_request) _ _ _ Hs Hc) as (chunks & ->).
      rewrite Hv. discriminate.
    + rewrite (serve_unsupported env fuel R model_validate chat_request w Hm).
      discriminate.
  - intros stored dt r Hm Hf Hexp Hreply Hretry Herr.
    set (w0 := mkWorld (Some stored) None (Some (Accepted stored)) (clock w) (trace w)).
    assert (E : chat_completions env fuel R model_validate chat_request w
                = (HTTPException 500 internal_server_error,
                   elapse dt
                     (emit (EvChatPost (chat_completions_url (resource_url stored))
                                       ("Bearer " ++ access_token stored)
                                       (mkPayload "qwen3-coder-plus" (Some true)
                                                  (cr_rest chat_request))
                                       true)
                           w0))).
    { rewrite (serve_supported env fuel R model_validate chat_request w Hm).
      assert (Hnew : QwenClient w = (Returns tt, w0)).
      { unfold QwenClient, __init__, _load_oauth_creds, read_file, gets, bind,
          fresh_instance.
        cbn [creds_file]. rewrite Hf. reflexivity. }
      assert (ensured : _ensure_valid_token env fuel w0 = (Returns tt, w0)).
      { rewrite ensure_valid_token_unfold.
        change (oauth_creds w0) with (Some stored). change (clock w0) with (clock w).
        rewrite Hexp. reflexivity. }
      rewrite (bind_returns _ _ _ _ _ Hnew).
      rewrite (make_request_first_post env (cr_model chat_request) fuel
                 (model_dump_without_model chat_request) w0 w0 stored ensured eq_refl).
      change (chat_posts w0) with (chat_posts w). rewrite Hreply.
      unfold bind at 1. unfold resend_after_rejection. rewrite Hretry. unfold ret at 1.
      cbn [model_dump_without_model rd_stream rd_model rd_rest get_default p_stream].
      rewrite Hs. cbn [get_default].
      rewrite (return_response_generator r _ Herr). rewrite Hv. rewrite Hm.
      reflexivity. }
    rewrite E. split; reflexivity.
Qed.

Lemma chat_completions_cannot_stream_witness :
  let served :=
    chat_completions env_refresh_moves_resource 0 string accept_parsed
      (mkChatCompletionRequest "qwen3-coder-plus" (Some true) "messages")
      (world_with_stored valid_creds 100) in
  (forall response, fst served <> Responds response)
  /\ fst served = HTTPException 500 internal_server_error
  /\ trace (snd served)
     = [EvChatPost "https://portal.qwen.ai/v1/chat/completions" "Bearer old-access"
                   (mkPayload "qwen3-coder-plus" (Some true) "messages") true].
Proof.
  pose proof (chat_completions_cannot_stream env_refresh_moves_resource 0 string
                accept_parsed
                (mkChatCompletionRequest "qwen3-coder-plus" (Some true) "messages")
                (world_with_stored valid_creds 100)
                (fun _ => eq_refl) eq_refl) as H.
  cbv zeta in H. destruct H as [H1 H2]. cbv zeta. split; [exact H1 |].
  apply (H2 valid_creds 0 (mkResponse 200 (mkChatBody (Some "completion") [])));
    reflexivity.
Defined.

(* ------------------------------------------------------------------ *)
(** ** PKCE pairs *)

Lemma digit_cases (P : ascii -> Prop) :
  (forall k : nat, (k < 64)%nat ->
     P (match String.get k Base64.urlsafe_alphabet with
        | Some c => c
        | None => Base64.pad
        end)) ->
  forall n, P (Base64.digit n).
Proof.
  intros H n. unfold Base64.digit. apply H.
  assert (n mod 64 < 64)%N by (apply N.mod_lt; discriminate). lia.
Qed.

Lemma digit_unreserved (n : N) : is_unreserved (Base64.digit n) = true.
Proof.
  apply digit_cases. intros k Hk.
  do 64 (destruct k as [| k]; [reflexivity |]). lia.
Qed.

Lemma digit_not_pad (n : N) : Ascii.eqb (Base64.digit n) "=" = false.
Proof.
  apply digit_cases. intros k Hk.
  do 64 (destruct k as [| k]; [reflexivity |]). lia.
Qed.

Lemma index_digit (n : N) : Base64.index (Base64.digit n) = (n mod 64)%N.
Proof.
  unfold Base64.digit.
  assert (H : (n mod 64 < 64)%N) by (apply N.mod_lt; discriminate).
  remember (N.to_nat (n mod 64)) as k eqn:Ek.
  assert (E : (n mod 64)%N = N.of_nat k) by lia.
  assert (Hk : (k < 64)%nat) by lia.
  rewrite E. clear Ek E H.
  do 64 (destruct k as [| k]; [reflexivity |]). lia.
Qed.

Lemma digit_inj (m n : N) :
  Base64.digit m = Base64.digit n -> (m mod 64 = n mod 64)%N.
Proof.
  intros H. rewrite <- !index_digit. rewrite H. reflexivity.
Qed.

Lemma sextets (n : N) :
  (n < 16777216)%N ->
  n = (((((n / 262144) mod 64) * 64 + (n / 4096) mod 64) * 64 + (n / 64) mod 64) * 64
       + n mod 64)%N.
Proof.
  intros H.
  assert (E1 : (n / 4096 = n / 64 / 64)%N)
    by (rewrite N.Div0.div_div; reflexivity).
  assert (E2 : (n / 262144 = n / 64 / 64 / 64)%N)
    by (rewrite !N.Div0.div_div; reflexivity).
  rewrite E2, E1.
  pose proof (N.div_mod' n 64) as D0.
  pose proof (N.div_mod' (n / 64) 64) as D1.
  pose proof (N.div_mod' (n / 64 / 64) 64) as D2.
  assert (S : (n / 64 / 64 / 64 < 64)%N).
  { rewrite !N.Div0.div_div. apply N.Div0.div_lt_upper_bound. exact H. }
  rewrite (N.mod_small _ _ S).
  lia.
Qed.

Lemma sextets_inj (m n : N) :
  (m < 16777216)%N -> (n < 16777216)%N ->
  ((m / 262144) mod 64 = (n / 262144) mod 64)%N ->
  ((m / 4096) mod 64 = (n / 4096) mod 64)%N ->
  ((m / 64) mod 64 = (n / 64) mod 64)%N ->
  (m mod 64 = n mod 64)%N ->
  m = n.
Proof.
  intros Hm Hn E3 E2 E1 E0.
  rewrite (sextets m Hm), (sextets n Hn), E3, E2, E1, E0. reflexivity.
Qed.

Lemma to_N_inj (a b : Byte.byte) : Byte.to_N a = Byte.to_N b -> a = b.
Proof.
  intros H. pose proof (Byte.of_to_N a) as Ha. rewrite H, Byte.of_to_N in Ha.
  injection Ha as ->. reflexivity.
Qed.

Lemma list_ind3 {A} (P : list A -> Prop) :
  P [] -> (forall a, P [a]) -> (forall a b, P [a; b]) ->
  (forall a b c rest, P rest -> P (a :: b :: c :: rest)) ->
  forall l, P l.
Proof.
  intros H0 H1 H2 H3.
  assert (H : forall l, P l /\ (forall a, P (a :: l)) /\ (forall a b, P (a :: b :: l))).
  { induction l as [| x l (IH0 & IH1 & IH2)].
    - repeat split; [exact H0 | exact H1 | exact H2].
    - split; [apply IH1 | split; [intros a; apply IH2 |]].
      intros a b. apply H3. exact IH0. }
  intros l. apply (H l).
Qed.

Lemma encode_triple (a b c : Byte.byte) (rest : list Byte.byte) :
  Base64.urlsafe_b64encode (a :: b :: c :: rest)
  = (let n := (Byte.to_N a * 65536 + Byte.to_N b * 256 + Byte.to_N c)%N in
     String (Base64.digit (n / 262144))
       (String (Base64.digit (n / 4096))
          (String (Base64.digit (n / 64))
             (String (Base64.digit n) (Base64.urlsafe_b64encode rest))))).
Proof. reflexivity. Qed.

Lemma pad_is_not_digit (n : N) : Base64.pad <> Base64.digit n.
Proof.
  intros H. pose proof (digit_not_pad n) as D. rewrite <- H in D. discriminate D.
Qed.

Lemma digit_is_not_pad (n : N) : Base64.digit n <> Base64.pad.
Proof. intros H. exact (pad_is_not_digit n (eq_sym H)). Qed.

Ltac pad_clash :=
  match goal with
  | H : Base64.pad = Base64.digit _ |- _ => destruct (pad_is_not_digit _ H)
  | H : Base64.digit _ = Base64.pad |- _ => destruct (digit_is_not_pad _ H)
  end.

Ltac byte_bounds :=
  repeat match goal with
         | x : Byte.byte |- _ =>
             lazymatch goal with
             | _ : (Byte.to_N x <= 255)%N |- _ => fail
             | _ => pose proof (Byte.to_N_bounded x)
             end
         end.

Lemma urlsafe_b64encode_inj (x y : list Byte.byte) :
  Base64.urlsafe_b64encode x = Base64.urlsafe_b64encode y -> x = y.
Proof.
  revert y. induction x as [| a | a b | a b c rest IH] using list_ind3; intros y H.
  - destruct y as [| a' [| b' [| c' rest']]]; [reflexivity | discriminate H ..].
  - destruct y as [| a' [| b' [| c' rest']]]; try discriminate H.
    + cbn [Base64.urlsafe_b64encode] in H. cbv zeta in H. injection H as H1 H0.
      apply digit_inj in H1, H0. byte_bounds.
      f_equal. apply to_N_inj.
      assert (S1 : (Byte.to_N a * 16 / 64 < 64)%N)
        by (apply N.Div0.div_lt_upper_bound; lia).
      assert (S2 : (Byte.to_N a' * 16 / 64 < 64)%N)
        by (apply N.Div0.div_lt_upper_bound; lia).
      rewrite !N.mod_small in H1 by assumption.
      pose proof (N.div_mod' (Byte.to_N a * 16) 64).
      pose proof (N.div_mod' (Byte.to_N a' * 16) 64).
      lia.
    + cbn [Base64.urlsafe_b64encode] in H. cbv zeta in H.
      injection H; intros; pad_clash.
    + rewrite encode_triple in H. cbn [Base64.urlsafe_b64encode] in H. cbv zeta in H.
      injection H; intros; pad_clash.
  - destruct y as [| a' [| b' [| c' rest']]]; try discriminate H.
    + cbn [Base64.urlsafe_b64encode] in H. cbv zeta in H.
      injection H; intros; pad_clash.
    + cbn [Base64.urlsafe_b64encode] in H. cbv zeta in H. injection H as H2 H1 H0.
      apply digit_inj in H2, H1, H0. byte_bounds.
      set (m := ((Byte.to_N a * 256 + Byte.to_N b) * 4)%N) in *.
      set (n := ((Byte.to_N a' * 256 + Byte.to_N b') * 4)%N) in *.
      assert (Hm : (m < 16777216)%N) by (subst m; lia).
      assert (Hn : (n < 16777216)%N) by (subst n; lia).
      assert (Z1 : (m / 262144 = 0)%N) by (apply N.div_small; subst m; lia).
      assert (Z2 : (n / 262144 = 0)%N) by (apply N.div_small; subst n; lia).
      assert (E : m = n).
      { apply sextets_inj; try assumption. rewrite Z1, Z2. reflexivity. }
      subst m n.
      assert (Byte.to_N a = Byte.to_N a' /\ Byte.to_N b = Byte.to_N b') as [Ea Eb] by lia.
      apply to_N_inj in Ea, Eb. subst. reflexivity.
    + rewrite encode_triple in H. cbn [Base64.urlsafe_b64encode] in H. cbv zeta in H.
      injection H; intros; pad_clash.
  - destruct y as [| a' [| b' [| c' rest']]]; try discriminate H.
    + rewrite encode_triple in H. cbn [Base64.urlsafe_b64encode] in H. cbv zeta in H.
      injection H; intros; pad_clash.
    + rewrite encode_triple in H. cbn [Base64.urlsafe_b64encode] in H. cbv zeta in H.
      injection H; intros; pad_clash.
    + rewrite !encode_triple in H. cbv zeta in H.
      injection H as H3 H2 H1 H0 Hrest.
      apply digit_inj in H3, H2, H1, H0. byte_bounds.
      set (m := (Byte.to_N a * 65536 + Byte.to_N b * 256 + Byte.to_N c)%N) in *.
      set (n := (Byte.to_N a' * 65536 + Byte.to_N b' * 256 + Byte.to_N c')%N) in *.
      assert (Hm : (m < 16777216)%N) by (subst m; lia).
      assert (Hn : (n < 16777216)%N) by (subst n; lia).
      assert (E : m = n) by (apply sextets_inj; assumption).
      subst m n.
      assert (Byte.to_N a = Byte.to_N a' /\ Byte.to_N b = Byte.to_N b'
              /\ Byte.to_N c = Byte.to_N c') as (Ea & Eb & Ec) by lia.
      apply to_N_inj in Ea, Eb, Ec. subst.
      rewrite (IH rest' Hrest). reflexivity.
Qed.

Lemma rstrip_cons (c a : ascii) (t : string) :
  Ascii.eqb a c = false -> rstrip c (String a t) = String a (rstrip c t).
Proof.
  intros H. cbn [rstrip]. rewrite H. destruct (rstrip c t); reflexivity.
Qed.

(** What stripping the padding leaves of an encoding: characters of the
    alphabet only, four for every three bytes, rounded up; the encoding is
    this text and the padding. *)
Lemma rstrip_urlsafe_b64encode (bs : list Byte.byte) :
  all_chars is_unreserved (rstrip "=" (Base64.urlsafe_b64encode bs)) = true
  /\ String.length (rstrip "=" (Base64.urlsafe_b64encode bs))
     = ((4 * List.length bs + 2) / 3)%nat
  /\ Base64.urlsafe_b64encode bs
     = rstrip "=" (Base64.urlsafe_b64encode bs) ++ Base64.padding (List.length bs).
Proof.
  induction bs as [| a | a b | a b c rest (IH1 & IH2 & IH3)] using list_ind3.
  - repeat split.
  - cbn [Base64.urlsafe_b64encode]. cbv zeta.
    rewrite !rstrip_cons by apply digit_not_pad.
    cbn [rstrip Base64.pad Ascii.eqb Bool.eqb all_chars String.length].
    rewrite !digit_unreserved. repeat split.
  - cbn [Base64.urlsafe_b64encode]. cbv zeta.
    rewrite !rstrip_cons by apply digit_not_pad.
    cbn [rstrip Base64.pad Ascii.eqb Bool.eqb all_chars String.length].
    rewrite !digit_unreserved. repeat split.
  - rewrite encode_triple. cbv zeta.
    rewrite !rstrip_cons by apply digit_not_pad.
    split; [| split].
    + cbn [all_chars]. rewrite !digit_unreserved, IH1. reflexivity.
    + cbn [String.length List.length]. rewrite IH2.
      replace (4 * S (S (S (List.length rest))) + 2)%nat
        with ((4 * List.length rest + 2) + 4 * 3)%nat by lia.
      rewrite Nat.div_add by discriminate. lia.
    + cbn [append].
      replace (Base64.padding (List.length (a :: b :: c :: rest)))
        with (Base64.padding (List.length rest)).
      * rewrite <- IH3. reflexivity.
      * unfold Base64.padding. cbn [List.length].
        replace (S (S (S (List.length rest)))) with (List.length rest + 1 * 3)%nat by lia.
        rewrite Nat.Div0.mod_add. reflexivity.
Qed.

(** X20.  The pair [generate_pkce_pair] returns is well formed for RFC
    7636.  For thirty-two random bytes and a digest of thirty-two bytes,
    the code verifier and the code challenge are both forty-three
    characters long and made of letters, digits, [-] and [_] only: the
    padding is stripped entirely and nothing else is. *)
Theorem generate_pkce_pair_well_formed
    (sha256 : list Byte.byte -> list Byte.byte) (random : list Byte.byte) :
  List.length random = 32%nat ->
  (forall data, List.length (sha256 data) = 32%nat) ->
  let pair := generate_pkce_pair sha256 random in
  String.length (code_verifier pair) = 43%nat
  /\ all_chars is_unreserved (code_verifier pair) = true
  /\ String.length (code_challenge pair) = 43%nat
  /\ all_chars is_unreserved (code_challenge pair) = true.
Proof.
  intros Hr Hd pair. subst pair. unfold generate_pkce_pair.
  cbn [code_verifier code_challenge].
  destruct (rstrip_urlsafe_b64encode random) as (V1 & V2 & _).
  destruct (rstrip_urlsafe_b64encode
              (sha256 (list_byte_of_string
                         (rstrip "=" (Base64.urlsafe_b64encode random)))))
    as (C1 & C2 & _).
  rewrite Hr in V2. rewrite Hd in C2.
  repeat split; assumption.
Qed.

Lemma generate_pkce_pair_well_formed_witness :
  generate_pkce_pair ones_digest zero_bytes
  = mkPKCE "AAAAAAAAAAAAAAAAAAAAAAAAAAAAAAAAAAAAAAAAAAA"
           "__________________________________________8"
  /\ String.length (code_verifier (generate_pkce_pair ones_digest zero_bytes)) = 43%nat
  /\ all_chars is_unreserved (code_verifier (generate_pkce_pair ones_digest zero_bytes))
     = true
  /\ String.length (code_challenge (generate_pkce_pair ones_digest zero_bytes)) = 43%nat
  /\ all_chars is_unreserved (code_challenge (generate_pkce_pair ones_digest zero_bytes))
     = true.
Proof.
  split; [reflexivity |].
  apply (generate_pkce_pair_well_formed ones_digest zero_bytes).
  - reflexivity.
  - intros data. reflexivity.
Defined.

(** X21.  The code verifier keeps all the randomness drawn: two draws of
    thirty-two bytes that give the same verifier are the same bytes.
    Stripping the padding loses nothing. *)
Theorem generate_pkce_pair_verifier_injective
    (sha256 : list Byte.byte -> list Byte.byte) (random1 random2 : list Byte.byte) :
  List.length random1 = 32%nat ->
  List.length random2 = 32%nat ->
  code_verifier (generate_pkce_pair sha256 random1)
  = code_verifier (generate_pkce_pair sha256 random2) ->
  random1 = random2.
Proof.
  unfold generate_pkce_pair. cbn [code_verifier]. intros H1 H2 H.
  apply urlsafe_b64encode_inj.
  destruct (rstrip_urlsafe_b64encode random1) as (_ & _ & E1).
  destruct (rstrip_urlsafe_b64encode random2) as (_ & _ & E2).
  rewrite E1, E2, H, H1, H2. reflexivity.
Qed.

Lemma generate_pkce_pair_verifier_injective_witness : zero_bytes = repeat Byte.x00 32.
Proof.
  apply (generate_pkce_pair_verifier_injective ones_digest zero_bytes (repeat Byte.x00 32));
    reflexivity.
Defined.

(* ------------------------------------------------------------------ *)
(** ** The stream generator on every source *)

(** X22.  Whatever the generator is given, a byte source of any shape or
    an exception raised before there is one, it yields the events of the
    chunks delivered, in order, then exactly one closing event, then the
    sentinel, and raises nothing.  The closing event is the stop event
    when the source ended normally and the error event otherwise, never
    both: a stream that failed carries no finish reason. *)
Theorem generate_stream_shape
    (model_dump_json : ChatCompletionStreamResponse -> string)
    (completion_id : string) (created_time : Z) (request_model : string)
    (acquired : Caught + ByteSource) :
  let chunks := match acquired with inl _ => [] | inr source => delivered source end in
  let failure := match acquired with inl e => Some e | inr source => ending source end in
  let closing :=
    match failure with
    | None => sse (model_dump_json (final_response completion_id created_time request_model))
    | Some e => sse (py_repr (error_response e))
    end in
  generate_stream model_dump_json completion_id created_time request_model acquired
  = (List.app
       (map (fun chunk =>
               sse (model_dump_json
                      (stream_response completion_id created_time request_model chunk)))
            chunks)
       [closing; DONE],
     None).
Proof.
  cbv zeta. unfold generate_stream.
  destruct acquired as [e | source]; [reflexivity |].
  assert (H : try_body model_dump_json completion_id created_time request_model source
              = (List.app
                   (map (fun chunk =>
                           sse (model_dump_json
                                  (stream_response completion_id created_time
                                                   request_model chunk)))
                        (delivered source))
                   (match ending source with
                    | None =>
                        [sse (model_dump_json
                                (final_response completion_id created_time request_model));
                         DONE]
                    | Some _ => []
                    end),
                 ending source)).
  { induction source as [| e | text rest IH]; cbn [try_body delivered ending map List.app].
    - reflexivity.
    - reflexivity.
    - rewrite IH. reflexivity. }
  rewrite H. destruct (ending source) as [e |].
  - rewrite <- List.app_assoc. reflexivity.
  - reflexivity.
Qed.

(* ------------------------------------------------------------------ *)
(** ** The streaming endpoint, end to end *)

(** C7.  The generator never streams.  Whatever the client returns for
    the streaming request, line 120 awaits it and raises [TypeError]
    inside the [try]: the generator yields the error event with that
    text and the sentinel, and nothing else.  An exception of the client
    gives the error event with its text.  So every run that ends yields
    exactly one error event and the sentinel: no chunk event, no stop
    event.  With a chat endpoint that streams [Hello] and [ world] and
    ends normally, the request is sent upstream and the two events
    yielded are the error event and the sentinel. *)
Theorem chat_completion_stream_never_streams
    (env : Env) (fuel : nat)
    (model_dump_json : ChatCompletionStreamResponse -> string)
    (completion_id : string) (created_time : Z) (request_model : string)
    (str : PyExc -> string) (rest : string) (w : World) :
  let run := chat_completion_stream env fuel model_dump_json completion_id created_time
               request_model str rest in
  let client := make_request env adapter_model fuel (stream_request_data rest) w in
  let error_event message := sse (py_repr (error_response (mkCaught message))) in
  (forall result, fst client = Returns result ->
     run w
     = (Some ([error_event "object generator can't be used in 'await' expression"; DONE],
              None),
        snd client))
  /\ (forall e, fst client = Raises e ->
        run w = (Some ([error_event (str e); DONE], None), snd client))
  /\ (forall yielded raised, fst (run w) = Some (yielded, raised) ->
        raised = None /\ exists message, yielded = [error_event message; DONE])
  /\ (let streamed :=
        chat_completion_stream env_streams_hello_world fuel model_dump_json completion_id
          created_time request_model str rest (world_with_creds valid_creds 100) in
      fst streamed
      = Some (["data: {'error': {'message': " ++ PyStr.dquote
               ++ "object generator can't be used in 'await' expression" ++ PyStr.dquote
               ++ ", 'type': 'internal_error'}}" ++ PyStr.nl ++ PyStr.nl;
               "data: [DONE]" ++ PyStr.nl ++ PyStr.nl],
              None)
      /\ trace (snd streamed)
         = [EvChatPost "https://portal.qwen.ai/v1/chat/completions" "Bearer old-access"
                       (mkPayload "qwen3-coder-plus" (Some true) rest) true]).
Proof.
  cbv zeta.
  assert (Hrun : forall result w',
            make_request env adapter_model fuel (stream_request_data rest) w
            = (Returns result, w') ->
            chat_completion_stream env fuel model_dump_json completion_id created_time
              request_model str rest w
            = (Some ([sse (py_repr
                             (error_response
                                (mkCaught
                                   "object generator can't be used in 'await' expression")));
                      DONE], None), w')).
  { intros result w' H.
    destruct (make_request_stream_returns env adapter_model fuel
                (stream_request_data rest) w w' result eq_refl H) as (chunks & ->).
    unfold chat_completion_stream, await_make_request. rewrite H. reflexivity. }
  split; [| split; [| split]].
  - intros result H.
    destruct (make_request env adapter_model fuel (stream_request_data rest) w)
      as [outcome w'] eqn:E.
    cbn [fst snd] in *. subst outcome. exact (Hrun result w' eq_refl).
  - intros e H. unfold chat_completion_stream, await_make_request.
    destruct (make_request env adapter_model fuel (stream_request_data rest) w)
      as [outcome w'].
    cbn [fst snd] in *. subst outcome. reflexivity.
  - intros yielded raised H.
    destruct (make_request env adapter_model fuel (stream_request_data rest) w)
      as [[result | e |] w'] eqn:E.
    + rewrite (Hrun result w' eq_refl) in H. cbn [fst] in H.
      injection H as <- <-. split; [reflexivity |].
      exists "object generator can't be used in 'await' expression". reflexivity.
    + unfold chat_completion_stream, await_make_request in H. rewrite E in H.
      cbn in H. injection H as <- <-. split; [reflexivity |].
      exists (str e). reflexivity.
    + unfold chat_completion_stream, await_make_request in H. rewrite E in H.
      discriminate H.
  - split; reflexivity.
Qed.

Lemma chat_completion_stream_never_streams_witness :
  chat_completion_stream env_streams_hello_world 0
    (fun _ => "event") "chatcmpl-0" 0 "qwen3-coder-plus" (fun _ => "failed") "messages"
    (world_with_creds valid_creds 100)
  = (Some (["data: {'error': {'message': " ++ PyStr.dquote
            ++ "object generator can't be used in 'await' expression" ++ PyStr.dquote
            ++ ", 'type': 'internal_error'}}" ++ PyStr.nl ++ PyStr.nl;
            "data: [DONE]" ++ PyStr.nl ++ PyStr.nl],
           None),
     snd (make_request env_streams_hello_world adapter_model 0
            (stream_request_data "messages") (world_with_creds valid_creds 100))).
Proof.
  apply (proj1 (chat_completion_stream_never_streams env_streams_hello_world 0
                  (fun _ => "event") "chatcmpl-0" 0 "qwen3-coder-plus"
                  (fun _ => "failed") "messages" (world_with_creds valid_creds 100))
           (StreamGenerator ["Hello"; " world"])).
  reflexivity.
Defined.
